(** * NetworksDB data source and the ASN healing loop of the [db] command

    A shallow embedding of [datasrcs/networksdb.go] (the NetworksDB service:
    [OnASNRequest] and the scrape- and API-backed resolution chains) and of
    [healASInfo] from the [db] command, followed by the properties the
    specification states about them.

    The Go code talks to the outside world through the event bus, the rate
    limiter, HTTP fetches, regular expressions, JSON decoding and the [net]
    package.  None of these is part of the translated file, so they appear
    here as the fields of an environment record [Env]; every effect the code
    performs is recorded, in program order, in a trace of [Event]s. *)

From Stdlib Require Import ZArith Ascii String List Lia DecimalString.
From stdpp Require Import base strings gmap list.
Import ListNotations.

Local Open Scope string_scope.
Local Open Scope list_scope.
Local Open Scope Z_scope.

(** ** Data model *)

(** [stringset.Set] is a Go [map[string]struct{}]; a [nil] set is [None]
    where the code distinguishes it. *)
Abbreviation StringSet := (gset string).

(** [requests.ASNRequest], restricted to the fields this file reads or
    writes. *)
Record ASNRequest := mkASNRequest {
  Address : string;
  ASN : Z;
  Prefix : string;
  CC : string;
  Description : string;
  Netblocks : option StringSet;
  Tag : string;
  Source : string
}.

(** Source-type tags of the [requests] package. *)
Definition API : string := "api".
Definition SCRAPE : string := "scrape".

(** [config.APIKey]: only [Key] is read. *)
Record APIKey := mkAPIKey { Key : string }.

(** [NetworksDB]: the service name held by the embedded [BaseService]
    ([n.String()]), the credential and the mode selected at start. *)
Record NetworksDB := mkNetworksDB {
  name : string;
  APIfield : option APIKey;
  SourceType : string;
  hasAPIKey : bool;
  ratelimit : Z
}.

(** [net.IP] is a byte slice, [nil] (the empty list) when parsing failed;
    [net.IPNet] is a network number and a mask. *)
Definition IP := list Z.
Record IPNet := mkIPNet { IPNet_IP : IP; IPNet_Mask : list Z }.

(** The compiled package-level patterns used on the ASN paths.  Each has
    one capture group: the href after the Announcing ASN label, the digits
    after the AS Number label, the text after the CIDR label, the text after
    the AS Name label and the country path component of the Location link. *)
Inductive Regexp :=
| networksdbASNLinkRE
| networksdbASNRE
| networksdbCIDRRE
| networksdbASNameRE
| networksdbCCRE.

(** The anonymous structs the JSON bodies are decoded into all have the
    shape [{Error, Total, Results}]; they differ in the element type of
    [Results]. *)
Record Response (R : Type) := mkResponse {
  Error : string;
  Total : Z;
  Results : list R
}.
Arguments mkResponse {R}.
Arguments Error {R}.
Arguments Total {R}.
Arguments Results {R}.

Record IPResult := mkIPResult { Org_ID : string; Network_CIDR : string }.
Record OrgResult := mkOrgResult { ASNs : list Z }.
Record ASResult := mkASResult {
  res_ASN : Z;
  res_ASName : string;
  res_Description : string;
  res_CountryCode : string;
  res_Country : string
}.
Record NetblockResult := mkNetblockResult { CIDR : string }.

(** An outbound call of [http.RequestWebPage]: the URL, the form
    parameter of the POST body ([nil] body is [None]) and the headers. *)
Record Request := mkRequest {
  req_url : string;
  req_body : option (string * string);
  req_headers : option (list (string * string))
}.

(** ** Effects *)

Inductive EventBus := TheEventBus.

(** The event bus stored in the context under [requests.ContextEventBus],
    as every function of the service reads it on entry; a stored [nil]
    pointer is [None]. *)
Record Context := mkContext { ContextEventBus : option EventBus }.

Inductive Topic := LogTopic | SetActiveTopic | NewASNTopic.
Inductive Priority := PriorityHigh | PriorityCritical.
Inductive Payload := PString (s : string) | PASN (r : ASNRequest).

Inductive Event :=
| EvCheckRateLimit
| EvRequestWebPage (r : Request)
| EvPublish (t : Topic) (p : Priority) (d : Payload).

(** The world outside the translated file.  A failed call ([err != nil])
    is the left injection, carrying the error text. *)
Record Env := mkEnv {
  (* net/http *)
  RequestWebPage : Request -> string + string;
  (* regexp: nil is the empty list *)
  FindStringSubmatch : Regexp -> string -> list string;
  FindAllStringSubmatch : Regexp -> string -> list (list string);
  (* encoding/json *)
  UnmarshalIP : string -> string + Response IPResult;
  UnmarshalOrg : string -> string + Response OrgResult;
  UnmarshalAS : string -> string + Response ASResult;
  UnmarshalNetblocks : string -> string + Response NetblockResult;
  (* net *)
  ParseIP : string -> IP;
  ParseCIDR : string -> string + IPNet;
  Contains : IPNet -> IP -> bool;
  (* strings, strconv *)
  TrimSpace : string -> string;
  Atoi : string -> string + Z;
  (* the order in which the k-th iteration over a Go map visits its keys *)
  map_order : nat -> StringSet -> list string
}.

(** Go leaves the iteration order of a map unspecified and lets it change
    between two iterations; all that is known is that every key is visited
    once. *)
Definition map_order_ok (E : Env) : Prop :=
  forall k (s : StringSet), map_order E k s ≡ₚ elements s.

(** A computation either returns or panics; it emits a trace and advances
    the count of map iterations performed so far. *)
Inductive Outcome (A : Type) :=
| Done (a : A)
| Panicked (msg : string).
Arguments Done {A}.
Arguments Panicked {A}.

Record Res (A : Type) := mkRes {
  outcome : Outcome A;
  trace : list Event;
  iters : nat
}.
Arguments mkRes {A}.
Arguments outcome {A}.
Arguments trace {A}.
Arguments iters {A}.

Definition M (A : Type) : Type := nat -> Res A.

Definition ret {A} (a : A) : M A := fun k => mkRes (Done a) [] k.

Definition bind {A B} (m : M A) (f : A -> M B) : M B :=
  fun k =>
    let r := m k in
    match outcome r with
    | Done a =>
        let r' := f a (iters r) in
        mkRes (outcome r') (trace r ++ trace r') (iters r')
    | Panicked msg => mkRes (Panicked msg) (trace r) (iters r)
    end.

Notation "'let*' x ':=' c1 'in' c2" := (bind c1 (fun x => c2))
  (at level 10, x pattern, c1 at level 100, c2 at level 200).
Notation "c1 >> c2" := (bind c1 (fun _ => c2))
  (at level 100, c2 at level 200, right associativity).

Definition emit (e : Event) : M unit := fun k => mkRes (Done tt) [e] k.
Definition panic {A} (msg : string) : M A := fun k => mkRes (Panicked msg) [] k.

(** [bus.Publish(topic, priority, data)]. *)
Definition Publish (bus : EventBus) (t : Topic) (p : Priority) (d : Payload)
  : M unit := emit (EvPublish t p d).


(** [xs == nil] on a slice. *)
Definition is_nil {A} (xs : list A) : bool :=
  match xs with [] => true | _ => false end.

(** [strconv.Itoa]. *)
Definition Itoa (z : Z) : string := NilZero.string_of_int (Z.to_int z).

(** [xs[i]], with the run-time bounds check. *)
Definition index {A} (i : nat) (xs : list A) : M A :=
  match xs !! i with
  | Some x => ret x
  | None =>
      panic ("runtime error: index out of range [" +:+ Itoa (Z.of_nat i) +:+
             "] with length " +:+ Itoa (Z.of_nat (length xs)))
  end.

(** ** The [stringset] package *)

(** Modelled from the spec: the [stringset] package is not part of the
    translated file.  A CIDR set is keyed by the exact string value, an
    insert of a member is a no-op, and nothing is promised about the order
    in which members are visited. *)
Definition New : StringSet := ∅.
Definition Insert (s : StringSet) (e : string) : StringSet := {[ e ]} ∪ s.
Definition Union (s other : StringSet) : StringSet := s ∪ other.
Definition len (s : StringSet) : nat := size s.

(** ** Construction and start of the service *)

Definition networksdbBaseURL : string := "https://networksdb.io".
Definition networksdbAPIPATH : string := "/api/v1".

Definition NewNetworksDB : NetworksDB :=
  {| name := "NetworksDB"; APIfield := None; SourceType := API;
     hasAPIKey := true; ratelimit := 0 |}.

(** [OnStart]; [key] is what the configuration holds for this source
    ([nil] is [None]).  The rate limit is a [time.Duration] in
    nanoseconds. *)
Definition OnStart (n : NetworksDB) (key : option APIKey) : NetworksDB :=
  let missing :=
    match key with
    | None => true
    | Some k => String.eqb (Key k) ""
    end in
  {| name := name n;
     APIfield := key;
     SourceType := if missing then SCRAPE else SourceType n;
     hasAPIKey := if missing then false else hasAPIKey n;
     ratelimit := 3 * 1000000000 |}.

Definition getIPURL (addr : string) : string :=
  networksdbBaseURL +:+ "/ip/" +:+ addr.
Definition getASNURL (asn : Z) : string :=
  networksdbBaseURL +:+ "/autonomous-system/AS" +:+ Itoa asn.
Definition getAPIIPURL : string :=
  networksdbBaseURL +:+ networksdbAPIPATH +:+ "/ip/info".
Definition getAPIOrgInfoURL : string :=
  networksdbBaseURL +:+ networksdbAPIPATH +:+ "/org/info".
Definition getAPIASNInfoURL : string :=
  networksdbBaseURL +:+ networksdbAPIPATH +:+ "/as/info".
Definition getAPINetblocksURL : string :=
  networksdbBaseURL +:+ networksdbAPIPATH +:+ "/as/networks".

(** [n.CheckRateLimit()] of the embedded [BaseService]: it only delays. *)
Definition CheckRateLimit (n : NetworksDB) : M unit := emit EvCheckRateLimit.

(** [getHeaders]; [n.API.Key] dereferences the credential. *)
Definition getHeaders (n : NetworksDB) : M (option (list (string * string))) :=
  if negb (hasAPIKey n) then ret None
  else
    match APIfield n with
    | None => panic "invalid memory address or nil pointer dereference"
    | Some k =>
        ret (Some [("X-Api-Key", Key k);
                   ("Content-Type", "application/x-www-form-urlencoded")])
    end.

(** ** The resolution chains *)

Section Service.

Variable E : Env.

(** [http.RequestWebPage(u, body, headers, "", "")]. *)
Definition http (r : Request) : M (string + string) :=
  fun k => mkRes (Done (RequestWebPage E r)) [EvRequestWebPage r] k.

(** One iteration over the keys of a set ([for cidr := range s]). *)
Definition range (s : StringSet) : M (list string) :=
  fun k => mkRes (Done (map_order E k s)) [] (S k).

(** [s.Slice()] collects the keys with one iteration over the map. *)
Definition Slice (s : StringSet) : M (list string) := range s.

Definition log (n : NetworksDB) (bus : EventBus) (msg : string) : M unit :=
  Publish bus LogTopic PriorityHigh (PString (name n +:+ ": " +:+ msg)).

Definition setActive (n : NetworksDB) (bus : EventBus) : M unit :=
  Publish bus SetActiveTopic PriorityCritical (PString (name n)).

(** The loop over [networksdbCIDRRE.FindAllStringSubmatch(page, -1)]:
    [match[1]] is read under the guard [len(match) >= 2]. *)
Definition insert_cidrs (all : list (list string)) (netblocks : StringSet)
  : StringSet :=
  fold_left
    (fun nb m =>
       if (2 <=? length m)%nat then Insert nb (TrimSpace E (nth 1 m ""))
       else nb)
    all netblocks.

(** The body of [for cidr := range netblocks] in the two prefix
    selections, over the keys in visiting order: the first key that parses
    and contains [ip] is assigned to [prefix] and ends the loop. *)
Fixpoint scan_prefix (ip : IP) (order : list string) (prefix : string)
  : string :=
  match order with
  | [] => prefix
  | cidr :: rest =>
      match ParseCIDR E cidr with
      | inr ipnet =>
          if Contains E ipnet ip then cidr
          else scan_prefix ip rest prefix
      | inl _ => scan_prefix ip rest prefix
      end
  end.

(** Lines 216-229 of [executeASNQuery]. *)
Definition scrape_prefix (addr : string) (netblocks : StringSet) : M string :=
  let* prefix :=
    (if negb (String.eqb addr "") then
       let ip := ParseIP E addr in
       let* order := range netblocks in
       ret (scan_prefix ip order "")
     else ret "") in
  if String.eqb prefix "" && (0 <? len netblocks)%nat then
    let* sl := Slice netblocks in
    index 0 sl
  else ret prefix.

Definition executeASNQuery (n : NetworksDB) (ctx : Context) (asn : Z)
  (addr : string) (netblocks : StringSet) : M unit :=
  match ContextEventBus ctx with
  | None => ret tt
  | Some bus =>
      CheckRateLimit n >>
      setActive n bus >>
      let u := getASNURL asn in
      let* r := http (mkRequest u None None) in
      match r with
      | inl err => log n bus (u +:+ ": " +:+ err)
      | inr page =>
          let matches := FindStringSubmatch E networksdbASNameRE page in
          if is_nil matches || (length matches <? 2)%nat then
            log n bus "The regular expression failed to extract the AS name"
          else
            let* m1 := index 1 matches in
            let name_ := TrimSpace E m1 in
            let matches := FindStringSubmatch E networksdbCCRE page in
            if is_nil matches || (length matches <? 2)%nat then
              log n bus
                "The regular expression failed to extract the country code"
            else
              let* m1 := index 1 matches in
              let cc := TrimSpace E m1 in
              let netblocks :=
                insert_cidrs (FindAllStringSubmatch E networksdbCIDRRE page)
                  netblocks in
              let* prefix := scrape_prefix addr netblocks in
              Publish bus NewASNTopic PriorityHigh
                (PASN {| Address := addr;
                         ASN := asn;
                         Prefix := prefix;
                         CC := cc;
                         Description := name_ +:+ ", " +:+ cc;
                         Netblocks := Some netblocks;
                         Tag := SourceType n;
                         Source := name n |})
      end
  end.

Definition executeASNAddrQuery (n : NetworksDB) (ctx : Context)
  (addr : string) : M unit :=
  match ContextEventBus ctx with
  | None => ret tt
  | Some bus =>
      let u := getIPURL addr in
      let* r := http (mkRequest u None None) in
      match r with
      | inl err => log n bus (u +:+ ": " +:+ err)
      | inr page =>
          let matches := FindStringSubmatch E networksdbASNLinkRE page in
          if is_nil matches || (length matches <? 2)%nat then
            log n bus
              (u +:+ ": Failed to extract the autonomous system href")
          else
            CheckRateLimit n >>
            setActive n bus >>
            let* m1 := index 1 matches in
            let u := networksdbBaseURL +:+ m1 in
            let* r := http (mkRequest u None None) in
            match r with
            | inl err => log n bus (u +:+ ": " +:+ err)
            | inr page =>
                let netblocks :=
                  insert_cidrs (FindAllStringSubmatch E networksdbCIDRRE page)
                    New in
                let matches := FindStringSubmatch E networksdbASNRE page in
                if is_nil matches || (length matches <? 2)%nat then
                  log n bus
                    (u +:+
                     ": The regular expression failed to extract the ASN")
                else
                  let* m1 := index 1 matches in
                  match Atoi E (TrimSpace E m1) with
                  | inl _ =>
                      log n bus (u +:+ ": Failed to extract a valid ASN")
                  | inr asn => executeASNQuery n ctx asn addr netblocks
                  end
            end
      end
  end.

Definition zero_results : string := ": The request returned zero results".

Definition apiIPQuery (n : NetworksDB) (ctx : Context) (addr : string)
  : M (string * string) :=
  match ContextEventBus ctx with
  | None => ret ("", "")
  | Some bus =>
      CheckRateLimit n >>
      setActive n bus >>
      let u := getAPIIPURL in
      let* hdrs := getHeaders n in
      let* r := http (mkRequest u (Some ("ip", addr)) hdrs) in
      match r with
      | inl err => log n bus (u +:+ ": " +:+ err) >> ret ("", "")
      | inr page =>
          match UnmarshalIP E page with
          | inl err => log n bus (u +:+ ": " +:+ err) >> ret ("", "")
          | inr m =>
              if negb (String.eqb (Error m) "") then
                log n bus (u +:+ ": " +:+ Error m) >> ret ("", "")
              else if (Total m =? 0)%Z || (length (Results m) =? 0)%nat then
                log n bus (u +:+ zero_results) >> ret ("", "")
              else
                let* r0 := index 0 (Results m) in
                ret (Network_CIDR r0, Org_ID r0)
          end
      end
  end.

Definition apiOrgInfoQuery (n : NetworksDB) (ctx : Context) (id : string)
  : M (list Z) :=
  match ContextEventBus ctx with
  | None => ret []
  | Some bus =>
      CheckRateLimit n >>
      setActive n bus >>
      let u := getAPIOrgInfoURL in
      let* hdrs := getHeaders n in
      let* r := http (mkRequest u (Some ("id", id)) hdrs) in
      match r with
      | inl err => log n bus (u +:+ ": " +:+ err) >> ret []
      | inr page =>
          match UnmarshalOrg E page with
          | inl err => log n bus (u +:+ ": " +:+ err) >> ret []
          | inr m =>
              if negb (String.eqb (Error m) "") then
                log n bus (u +:+ ": " +:+ Error m) >> ret []
              else
                (* m.Total == 0 || len(m.Results[0].ASNs) == 0 *)
                let* zero :=
                  (if (Total m =? 0)%Z then ret true
                   else
                     let* r0 := index 0 (Results m) in
                     ret (length (ASNs r0) =? 0)%nat) in
                if zero then log n bus (u +:+ zero_results) >> ret []
                else
                  let* r0 := index 0 (Results m) in
                  ret (ASNs r0)
          end
      end
  end.

(** A [nil] result is [None]. *)
Definition apiASNInfoQuery (n : NetworksDB) (ctx : Context) (asn : Z)
  : M (option ASNRequest) :=
  match ContextEventBus ctx with
  | None => ret None
  | Some bus =>
      CheckRateLimit n >>
      setActive n bus >>
      let u := getAPIASNInfoURL in
      let* hdrs := getHeaders n in
      let* r := http (mkRequest u (Some ("asn", Itoa asn)) hdrs) in
      match r with
      | inl err => log n bus (u +:+ ": " +:+ err) >> ret None
      | inr page =>
          match UnmarshalAS E page with
          | inl err => log n bus (u +:+ ": " +:+ err) >> ret None
          | inr m =>
              if negb (String.eqb (Error m) "") then
                log n bus (u +:+ ": " +:+ Error m) >> ret None
              else if (Total m =? 0)%Z || (length (Results m) =? 0)%nat then
                log n bus (u +:+ zero_results) >> ret None
              else
                let* r0 := index 0 (Results m) in
                ret (Some {| Address := "";
                             ASN := res_ASN r0;
                             Prefix := "";
                             CC := res_CountryCode r0;
                             Description :=
                               res_Description r0 +:+ ", " +:+
                               res_CountryCode r0;
                             Netblocks := None;
                             Tag := SourceType n;
                             Source := name n |})
          end
      end
  end.

Definition apiNetblocksQuery (n : NetworksDB) (ctx : Context) (asn : Z)
  : M StringSet :=
  let netblocks := New in
  match ContextEventBus ctx with
  | None => ret netblocks
  | Some bus =>
      CheckRateLimit n >>
      setActive n bus >>
      let u := getAPINetblocksURL in
      let* hdrs := getHeaders n in
      let* r := http (mkRequest u (Some ("asn", Itoa asn)) hdrs) in
      match r with
      | inl err => log n bus (u +:+ ": " +:+ err) >> ret netblocks
      | inr page =>
          match UnmarshalNetblocks E page with
          | inl err => log n bus (u +:+ ": " +:+ err) >> ret netblocks
          | inr m =>
              if negb (String.eqb (Error m) "") then
                log n bus (u +:+ ": " +:+ Error m) >> ret netblocks
              else if (Total m =? 0)%Z || (length (Results m) =? 0)%nat then
                log n bus (u +:+ zero_results) >> ret netblocks
              else
                ret (fold_left (fun nb block => Insert nb (CIDR block))
                       (Results m) netblocks)
          end
      end
  end.

(** Lines 324-336 of [executeAPIASNQuery]. *)
Definition api_prefix (addr : string) (netblocks : StringSet) : M string :=
  let* prefix :=
    (if negb (String.eqb addr "") then
       let ip := ParseIP E addr in
       let* order := range netblocks in
       ret (scan_prefix ip order "")
     else ret "") in
  if String.eqb prefix "" then
    let* sl := Slice netblocks in
    index 0 sl
  else ret prefix.

(** [executeAPIASNQuery] from the prefix selection on, once the netblocks
    are known to be non-empty. *)
Definition publishAPIASN (n : NetworksDB) (ctx : Context) (bus : EventBus)
  (asn : Z) (addr : string) (netblocks : StringSet) : M unit :=
  let* prefix := api_prefix addr netblocks in
  CheckRateLimit n >>
  setActive n bus >>
  let* req := apiASNInfoQuery n ctx asn in
  match req with
  | None =>
      log n bus (Itoa asn +:+ ": Failed to obtain ASN information")
  | Some req =>
      let req :=
        {| Address := if negb (String.eqb addr "") then addr else Address req;
           ASN := ASN req;
           Prefix := prefix;
           CC := CC req;
           Description := Description req;
           Netblocks := Some netblocks;
           Tag := Tag req;
           Source := Source req |} in
      Publish bus NewASNTopic PriorityHigh (PASN req)
  end.

Definition executeAPIASNQuery (n : NetworksDB) (ctx : Context) (asn : Z)
  (addr : string) (netblocks : option StringSet) : M unit :=
  match ContextEventBus ctx with
  | None => ret tt
  | Some bus =>
      let netblocks :=
        match netblocks with None => New | Some s => s end in
      if (len netblocks =? 0)%nat then
        let* found := apiNetblocksQuery n ctx asn in
        let netblocks := Union netblocks found in
        if (len netblocks =? 0)%nat then
          log n bus
            (Itoa asn +:+
             ": Failed to obtain netblocks associated with the ASN")
        else publishAPIASN n ctx bus asn addr netblocks
      else publishAPIASN n ctx bus asn addr netblocks
  end.

(** The inner loop of [executeAPIASNAddrQuery] over one candidate's
    netblocks: [true] when it reaches [asn = a; break loop]. *)
Fixpoint scan_contains (ip : IP) (order : list string) : bool :=
  match order with
  | [] => false
  | cidr :: rest =>
      match ParseCIDR E cidr with
      | inr ipnet =>
          if Contains E ipnet ip then true else scan_contains ip rest
      | inl _ => scan_contains ip rest
      end
  end.

(** The labelled loop of [executeAPIASNAddrQuery] over the candidates, with
    the variables [asn] and [cidrs] it assigns. *)
Fixpoint candidates_loop (n : NetworksDB) (ctx : Context) (bus : EventBus)
  (ip : IP) (asns : list Z) (asn : Z) (cidrs : StringSet)
  : M (Z * StringSet) :=
  match asns with
  | [] => ret (asn, cidrs)
  | a :: rest =>
      CheckRateLimit n >>
      let* cidrs := apiNetblocksQuery n ctx a in
      (if (len cidrs =? 0)%nat then
         log n bus
           (Itoa a +:+
            ": Failed to obtain netblocks associated with the ASN")
       else ret tt) >>
      let* order := range cidrs in
      if scan_contains ip order then ret (a, cidrs)
      else candidates_loop n ctx bus ip rest asn cidrs
  end.

(** Lines 272-301 of [executeAPIASNAddrQuery]: the search among the
    candidates and what follows it. *)
Definition resolve_candidates (n : NetworksDB) (ctx : Context)
  (bus : EventBus) (addr : string) (asns : list Z) : M unit :=
  let ip := ParseIP E addr in
  let* (asn, cidrs) := candidates_loop n ctx bus ip asns 0 New in
  if (asn =? 0)%Z then
    log n bus
      (addr +:+ ": Failed to obtain the ASN associated with the IP address")
  else executeAPIASNQuery n ctx asn addr (Some cidrs).

Definition executeAPIASNAddrQuery (n : NetworksDB) (ctx : Context)
  (addr : string) : M unit :=
  match ContextEventBus ctx with
  | None => ret tt
  | Some bus =>
      let* (_, id) := apiIPQuery n ctx addr in
      if String.eqb id "" then
        log n bus (addr +:+ ": Failed to obtain IP address information")
      else
        CheckRateLimit n >>
        setActive n bus >>
        let* asns := apiOrgInfoQuery n ctx id in
        if (length asns =? 0)%nat then
          log n bus
            (id +:+
             ": Failed to obtain ASNs associated with the organization")
        else resolve_candidates n ctx bus addr asns
  end.

Definition OnASNRequest (n : NetworksDB) (ctx : Context) (req : ASNRequest)
  : M unit :=
  if String.eqb (Address req) "" && (ASN req =? 0)%Z then ret tt
  else
    match ContextEventBus ctx with
    | None => ret tt
    | Some bus =>
        CheckRateLimit n >>
        if hasAPIKey n then
          if negb (String.eqb (Address req) "") then
            executeAPIASNAddrQuery n ctx (Address req)
          else executeAPIASNQuery n ctx (ASN req) "" None
        else if negb (String.eqb (Address req) "") then
          executeASNAddrQuery n ctx (Address req)
        else executeASNQuery n ctx (ASN req) "" New
    end.

End Service.

(** ** A concrete library for the scenarios

    An executable stand-in for the parts of the Go library the service
    calls, restricted to ASCII text and dotted-quad IPv4: enough to run the
    chains on concrete requests. *)
Module GoModel.

Definition is_digit (c : ascii) : bool :=
  let n := nat_of_ascii c in (48 <=? n)%nat && (n <=? 57)%nat.

Definition is_space (c : ascii) : bool :=
  let n := nat_of_ascii c in
  (n =? 32)%nat || ((9 <=? n)%nat && (n <=? 13)%nat).

Fixpoint trim_left (s : string) : string :=
  match s with
  | String c rest => if is_space c then trim_left rest else s
  | EmptyString => EmptyString
  end.

Fixpoint trim_right (s : string) : string :=
  match s with
  | String c rest =>
      match trim_right rest with
      | EmptyString => if is_space c then EmptyString else String c EmptyString
      | t => String c t
      end
  | EmptyString => EmptyString
  end.

Definition TrimSpaceASCII (s : string) : string := trim_right (trim_left s).

Fixpoint digits (s : string) (acc : Z) : option Z :=
  match s with
  | EmptyString => Some acc
  | String c rest =>
      if is_digit c then
        digits rest (10 * acc + Z.of_nat (nat_of_ascii c) - 48)
      else None
  end.

(** A non-empty run of decimal digits. *)
Definition decimal (s : string) : option Z :=
  match s with
  | EmptyString => None
  | _ => digits s 0
  end.

Definition AtoiASCII (s : string) : string + Z :=
  let in_range (z : Z) : string + Z :=
    if (- 2 ^ 63 <=? z) && (z <? 2 ^ 63) then inr z
    else inl "value out of range" in
  let body (neg : bool) (t : string) : string + Z :=
    match decimal t with
    | Some z => in_range (if neg then - z else z)
    | None => inl "invalid syntax"
    end in
  match s with
  | String "-" t => body true t
  | String "+" t => body false t
  | _ => body false s
  end.

Fixpoint split_on (sep : ascii) (s : string) : list string :=
  match s with
  | EmptyString => [EmptyString]
  | String c rest =>
      if Ascii.eqb c sep then EmptyString :: split_on sep rest
      else
        match split_on sep rest with
        | w :: ws => String c w :: ws
        | [] => [String c EmptyString]
        end
  end.

Definition octet (s : string) : option Z :=
  match decimal s with
  | Some z => if z <=? 255 then Some z else None
  | None => None
  end.

(** Dotted-quad IPv4 only; anything else is [nil]. *)
Definition ParseIP4 (s : string) : IP :=
  match split_on "." s with
  | [a; b; c; d] =>
      match octet a, octet b, octet c, octet d with
      | Some a, Some b, Some c, Some d => [a; b; c; d]
      | _, _, _, _ => []
      end
  | _ => []
  end.

(** The [i]-th byte of the mask of a prefix of [bits] bits. *)
Definition mask_byte (bits : Z) (i : Z) : Z :=
  let k := Z.max 0 (Z.min 8 (bits - 8 * i)) in
  256 - 2 ^ (8 - k).

Definition CIDRMask (bits : Z) : list Z :=
  map (mask_byte bits) [0; 1; 2; 3].

Fixpoint and_bytes (xs ys : list Z) : list Z :=
  match xs, ys with
  | x :: xs, y :: ys => Z.land x y :: and_bytes xs ys
  | _, _ => []
  end.

Definition ParseCIDR4 (s : string) : string + IPNet :=
  match split_on "/" s with
  | [a; l] =>
      match ParseIP4 a, decimal l with
      | (_ :: _) as ip, Some bits =>
          if bits <=? 32 then
            let m := CIDRMask bits in
            inr {| IPNet_IP := and_bytes ip m; IPNet_Mask := m |}
          else inl ("invalid CIDR address: " +:+ s)
      | _, _ => inl ("invalid CIDR address: " +:+ s)
      end
  | _ => inl ("invalid CIDR address: " +:+ s)
  end.

Fixpoint bytes_eqb (xs ys : list Z) : bool :=
  match xs, ys with
  | [], [] => true
  | x :: xs, y :: ys => (x =? y)%Z && bytes_eqb xs ys
  | _, _ => false
  end.

(** [ipnet.Contains(ip)]: equal lengths and equal masked bytes. *)
Definition Contains4 (ipnet : IPNet) (ip : IP) : bool :=
  (length ip =? length (IPNet_IP ipnet))%nat &&
  negb (is_nil ip) &&
  bytes_eqb (and_bytes (IPNet_IP ipnet) (IPNet_Mask ipnet))
            (and_bytes ip (IPNet_Mask ipnet)).

(** Keys are visited in the order [elements] lists them, at every
    iteration. *)
Definition elements_order (k : nat) (s : StringSet) : list string := elements s.

Definition unreachable (r : Request) : string + string :=
  inl "no route to host".

(** An environment over this library: the remote side answers [fetch],
    and the bodies are decoded by the given functions.  The scrape
    patterns match nothing unless overridden. *)
Definition env
  (fetch : Request -> string + string)
  (find : Regexp -> string -> list string)
  (findall : Regexp -> string -> list (list string))
  (uIP : string -> string + Response IPResult)
  (uOrg : string -> string + Response OrgResult)
  (uAS : string -> string + Response ASResult)
  (uNet : string -> string + Response NetblockResult) : Env :=
  {| RequestWebPage := fetch;
     FindStringSubmatch := find;
     FindAllStringSubmatch := findall;
     UnmarshalIP := uIP;
     UnmarshalOrg := uOrg;
     UnmarshalAS := uAS;
     UnmarshalNetblocks := uNet;
     ParseIP := ParseIP4;
     ParseCIDR := ParseCIDR4;
     Contains := Contains4;
     TrimSpace := TrimSpaceASCII;
     Atoi := AtoiASCII;
     map_order := elements_order |}.

End GoModel.

(** ** The ASN healing loop of the [db] command *)

Module Heal.

(** [requests.Output], restricted to the textual form of its addresses
    ([a.Address.String()]). *)
Record Output := mkOutput { Addresses : list string }.

Inductive Event :=
| EvInsertInfrastructure
    (asn : Z) (desc addr prefix source tag uuid : string)
| EvASNRequest (src : string) (req : ASNRequest)
| EvSleep (d : Z).

(** [time.Second], in nanoseconds. *)
Definition Second : Z := 1000000000.

(** What [healASInfo] reads from its collaborators.  The cache is written
    by [cache.Update], subscribed to the new-ASN topic and run by the data
    sources concurrently with the loop, so the answer of [cache.AddrSearch]
    depends on when it is asked: [AddrSearch k a] is the answer to the
    [k]-th lookup made by the loop. *)
Record Env := mkEnv {
  NewLocalSystem_err : bool;
  DataSources : list string;
  EventOutput : nat -> string -> list Output;
  AddrSearch : nat -> string -> option ASNRequest
}.

(** A run either got through ([proceeded]) or is still inside the wait loop
    when the fuel, the number of sleeps it is followed for, is used up. *)
Record Res := mkRes {
  proceeded : bool;
  trace : list Event;
  lookups : nat
}.

Definition H : Type := nat -> Res.

Definition skip : H := fun k => mkRes true [] k.

Definition seq (h1 h2 : H) : H :=
  fun k =>
    let r1 := h1 k in
    if proceeded r1 then
      let r2 := h2 (lookups r1) in
      mkRes (proceeded r2) (trace r1 ++ trace r2) (lookups r2)
    else r1.

Definition emit (e : Event) : H := fun k => mkRes true [e] k.

Fixpoint for_each {A} (xs : list A) (body : A -> H) : H :=
  match xs with
  | [] => skip
  | x :: rest => seq (body x) (for_each rest body)
  end.

Section Loop.

Variable W : Env.

Definition InsertInfrastructure (r : ASNRequest) (uuid : string) : H :=
  emit (EvInsertInfrastructure (ASN r) (Description r) (Address r)
          (Prefix r) (Source r) (Tag r) uuid).

(** [for cache.AddrSearch(addr) == nil { time.Sleep(time.Second) }]. *)
Fixpoint wait (fuel : nat) (addr : string) : H :=
  fun k =>
    match AddrSearch W k addr with
    | Some _ => mkRes true [] (S k)
    | None =>
        match fuel with
        | O => mkRes false [] (S k)
        | S fuel' =>
            let r := wait fuel' addr (S k) in
            mkRes (proceeded r) (EvSleep Second :: trace r) (lookups r)
        end
    end.

(** [&requests.ASNRequest{Address: addr}]. *)
Definition request_for (addr : string) : ASNRequest :=
  {| Address := addr; ASN := 0; Prefix := ""; CC := ""; Description := "";
     Netblocks := None; Tag := ""; Source := "" |}.

(** The body of the innermost loop of [healASInfo], for one address. *)
Definition heal_address (fuel : nat) (uuid addr : string) : H :=
  fun k =>
    match AddrSearch W k addr with
    | Some r => InsertInfrastructure r uuid (S k)
    | None =>
        seq (for_each (DataSources W)
               (fun src => emit (EvASNRequest src (request_for addr))))
          (seq (wait fuel addr)
             (fun k' =>
                match AddrSearch W k' addr with
                | Some r => InsertInfrastructure r uuid (S k')
                | None => skip (S k')
                end))
          (S k)
    end.

(** The requests handed to the data sources for one address, in order. *)
Definition dispatches (addr : string) : list Event :=
  map (fun src => EvASNRequest src (request_for addr)) (DataSources W).

Definition healASInfo (fuel : nat) (uuids : list string) : H :=
  if NewLocalSystem_err W then skip
  else
    for_each uuids (fun uuid =>
      fun k =>
        for_each (EventOutput W k uuid) (fun out =>
          for_each (Addresses out) (fun a =>
            heal_address fuel uuid a)) k).

End Loop.

End Heal.

(** ** Scenarios *)

Module Scenario.

Definition ctx : Context := {| ContextEventBus := Some TheEventBus |}.

(** The service as started with, and without, a credential. *)
Definition api_mode : NetworksDB :=
  OnStart NewNetworksDB (Some {| Key := "secret" |}).
Definition scrape_mode : NetworksDB := OnStart NewNetworksDB None.

(** [r] is a POST to [u] with the form parameter [k=v]. *)
Definition posts (r : Request) (u k v : string) : bool :=
  String.eqb (req_url r) u &&
  match req_body r with
  | Some (k', v') => String.eqb k' k && String.eqb v' v
  | None => false
  end.

Definition no_match (re : Regexp) (page : string) : list string := [].
Definition no_matches (re : Regexp) (page : string) : list (list string) := [].

Definition bad_json {R} (page : string) : string + Response R :=
  inl "unexpected end of JSON input".

(** The API scenario of the specification.  The remote side answers the
    four calls the scenario names; [other] answers any other call, and
    [ipcidr], [asname] and [country] fill the response fields the scenario
    leaves open. *)
Section APIScenario.

Variable other : Request -> string + string.
Variables ipcidr asname country : string.

Definition api_fetch (r : Request) : string + string :=
  if posts r getAPIIPURL "ip" "198.51.100.7" then inr "ip-info"
  else if posts r getAPIOrgInfoURL "id" "org-1" then inr "org-info"
  else if posts r getAPINetblocksURL "asn" "64500" then inr "networks"
  else if posts r getAPIASNInfoURL "asn" "64500" then inr "as-info"
  else other r.

Definition api_uIP (page : string) : string + Response IPResult :=
  if String.eqb page "ip-info" then
    inr {| Error := ""; Total := 1;
           Results := [{| Org_ID := "org-1"; Network_CIDR := ipcidr |}] |}
  else bad_json page.

Definition api_uOrg (page : string) : string + Response OrgResult :=
  if String.eqb page "org-info" then
    inr {| Error := ""; Total := 1;
           Results := [{| ASNs := [64500; 64501] |}] |}
  else bad_json page.

Definition api_uNet (page : string) : string + Response NetblockResult :=
  if String.eqb page "networks" then
    inr {| Error := ""; Total := 1;
           Results := [{| CIDR := "198.51.100.0/24" |}] |}
  else bad_json page.

Definition api_uAS (page : string) : string + Response ASResult :=
  if String.eqb page "as-info" then
    inr {| Error := ""; Total := 1;
           Results := [{| res_ASN := 64500;
                          res_ASName := asname;
                          res_Description := "Example Net";
                          res_CountryCode := "US";
                          res_Country := country |}] |}
  else bad_json page.

Definition api_env : Env :=
  GoModel.env api_fetch no_match no_matches api_uIP api_uOrg api_uAS api_uNet.

End APIScenario.

(** The organisation-info body [{total: 1, results: []}], after a
    successful IP-info call. *)
Definition empty_org_uOrg (page : string) : string + Response OrgResult :=
  if String.eqb page "org-info" then
    inr {| Error := ""; Total := 1; Results := [] |}
  else bad_json page.

Definition empty_org_env : Env :=
  GoModel.env (api_fetch GoModel.unreachable)
    no_match no_matches (api_uIP "198.51.100.0/24") empty_org_uOrg
    (api_uAS "EXAMPLE" "United States") api_uNet.

(** Scrape mode: the page of AS64500 names the AS and its country but lists
    no CIDR block. *)
Definition bare_fetch (r : Request) : string + string :=
  if String.eqb (req_url r) (getASNURL 64500) then inr "as-page"
  else inl "no route to host".

Definition bare_find (re : Regexp) (page : string) : list string :=
  if String.eqb page "as-page" then
    match re with
    | networksdbASNameRE => ["AS Name:</b> Example Net<br>"; " Example Net"]
    | networksdbCCRE => ["Location:</b> ... /country/US>"; "US"]
    | _ => []
    end
  else [].

Definition bare_env : Env :=
  GoModel.env bare_fetch bare_find no_matches bad_json bad_json bad_json
    bad_json.

(** [&requests.ASNRequest{ASN: asn}] and [&requests.ASNRequest{Address: a}]. *)
Definition by_asn (asn : Z) : ASNRequest :=
  {| Address := ""; ASN := asn; Prefix := ""; CC := ""; Description := "";
     Netblocks := None; Tag := ""; Source := "" |}.
Definition by_address (a : string) : ASNRequest := Heal.request_for a.

(** The record the API scenario resolves to. *)
Definition example_record : ASNRequest :=
  {| Address := "198.51.100.7";
     ASN := 64500;
     Prefix := "198.51.100.0/24";
     CC := "US";
     Description := "Example Net, US";
     Netblocks := Some {[ "198.51.100.0/24" ]};
     Tag := API;
     Source := "NetworksDB" |}.

(** Orchestrator scenarios: one event with one output holding the address;
    the cache answers every lookup from [cache]. *)
Definition heal_env (cache : nat -> string -> option ASNRequest) : Heal.Env :=
  {| Heal.NewLocalSystem_err := false;
     Heal.DataSources := ["NetworksDB"; "RADb"];
     Heal.EventOutput :=
       fun _ _ => [{| Heal.Addresses := ["198.51.100.7"] |}];
     Heal.AddrSearch := cache |}.

Definition seeded (k : nat) (a : string) : option ASNRequest :=
  if String.eqb a "198.51.100.7" then Some example_record else None.

Definition never (k : nat) (a : string) : option ASNRequest := None.

(** The entry shows up at the sixth lookup. *)
Definition late (k : nat) (a : string) : option ASNRequest :=
  if (5 <=? k)%nat then seeded k a else None.

End Scenario.

(** ** Observations on traces *)

(** The records published on the new-ASN topic, in order. *)
Fixpoint published (tr : list Event) : list ASNRequest :=
  match tr with
  | [] => []
  | EvPublish NewASNTopic _ (PASN r) :: rest => r :: published rest
  | _ :: rest => published rest
  end.

(** The diagnostic messages published on the log topic, in order. *)
Fixpoint logged (tr : list Event) : list string :=
  match tr with
  | [] => []
  | EvPublish LogTopic _ (PString msg) :: rest => msg :: logged rest
  | _ :: rest => logged rest
  end.

(** The outbound calls, in order. *)
Fixpoint fetched (tr : list Event) : list Request :=
  match tr with
  | [] => []
  | EvRequestWebPage r :: rest => r :: fetched rest
  | _ :: rest => fetched rest
  end.

(** A computation that publishes no record: [quiet]; one whose published
    records all satisfy [P] and whose result, when it returns, satisfies
    [Q]: [sat P m Q]. *)
Definition quiet {A} (m : M A) : Prop :=
  forall k, published (trace (m k)) = [].

Definition sat {A} (P : ASNRequest -> Prop) (m : M A) (Q : A -> Prop) : Prop :=
  forall k,
    Forall P (published (trace (m k))) /\
    forall a, outcome (m k) = Done a -> Q a.

(** The record invariant of the data model, as the specification states
    it, and its two halves. *)
Definition prefix_in_netblocks (r : ASNRequest) : Prop :=
  exists s : StringSet, Netblocks r = Some s /\ (s <> ∅ -> Prefix r ∈ s).

Definition netblocks_nonempty (r : ASNRequest) : Prop :=
  exists s : StringSet, Netblocks r = Some s /\ s <> ∅.

Definition record_invariant (r : ASNRequest) : Prop :=
  prefix_in_netblocks r /\ netblocks_nonempty r.

(** [cidr] is a syntactically valid CIDR string; its block contains [ip]. *)
Definition well_formed (E : Env) (cidr : string) : bool :=
  match ParseCIDR E cidr with
  | inr _ => true
  | inl _ => false
  end.

Definition block_contains (E : Env) (ip : IP) (cidr : string) : bool :=
  match ParseCIDR E cidr with
  | inr ipnet => Contains E ipnet ip
  | inl _ => false
  end.

(** The netblocks in [s] hold a block that contains [ip]. *)
Definition hit (E : Env) (ip : IP) (s : StringSet) : bool :=
  existsb (block_contains E ip) (elements s).

(** The set the netblocks endpoint yields for [a]. *)
Definition netblocks_of (E : Env) (n : NetworksDB) (ctx : Context) (a : Z)
  : StringSet :=
  match outcome (apiNetblocksQuery E n ctx a 0%nat) with
  | Done s => s
  | Panicked _ => ∅
  end.

(** The call to the netblocks endpoint for [a] under the credential [key]. *)
Definition netblocks_request (key : APIKey) (a : Z) : Request :=
  {| req_url := getAPINetblocksURL;
     req_body := Some ("asn", Itoa a);
     req_headers :=
       Some [("X-Api-Key", Key key);
             ("Content-Type", "application/x-www-form-urlencoded")] |}.

(** The elements of [l] up to and including the first that satisfies [f]. *)
Fixpoint upto_first {A} (f : A -> bool) (l : list A) : list A :=
  match l with
  | [] => []
  | x :: rest => if f x then [x] else x :: upto_first f rest
  end.

(** The variables [asn] and [cidrs] after the loop over the candidates,
    given what the endpoint yields for each. *)
Fixpoint selection (E : Env) (n : NetworksDB) (ctx : Context) (ip : IP)
  (asns : list Z) (asn : Z) (cidrs : StringSet) : Z * StringSet :=
  match asns with
  | [] => (asn, cidrs)
  | a :: rest =>
      if hit E ip (netblocks_of E n ctx a) then (a, netblocks_of E n ctx a)
      else selection E n ctx ip rest asn (netblocks_of E n ctx a)
  end.

(** How a finished attempt looks from the bus: it ended on a diagnostic
    message and published no record, or it ended on the one record it
    published. *)
Definition failed_attempt (tr : list Event) : Prop :=
  published tr = [] /\
  exists tr' msg, tr = tr' ++ [EvPublish LogTopic PriorityHigh (PString msg)].

Definition successful_attempt (tr : list Event) : Prop :=
  exists tr' r,
    tr = tr' ++ [EvPublish NewASNTopic PriorityHigh (PASN r)] /\
    published tr' = [].

(** A computation whose every run that returns is a finished attempt, and
    whose crashing runs publish no record. *)
Definition concludes (m : M unit) : Prop :=
  forall k,
    match outcome (m k) with
    | Done _ => failed_attempt (trace (m k)) \/ successful_attempt (trace (m k))
    | Panicked _ => published (trace (m k)) = []
    end.

(** [req] with its ASN field replaced. *)
Definition with_ASN (req : ASNRequest) (asn : Z) : ASNRequest :=
  {| Address := Address req; ASN := asn; Prefix := Prefix req; CC := CC req;
     Description := Description req; Netblocks := Netblocks req;
     Tag := Tag req; Source := Source req |}.

(** ** Further observations *)

(** [Type] of the Service interface. *)
Definition Type_ (n : NetworksDB) : string := SourceType n.

(** [strings.HasPrefix]. *)
Fixpoint HasPrefix (s prefix : string) {struct prefix} : bool :=
  match prefix, s with
  | EmptyString, _ => true
  | String c p, String d s' => Ascii.eqb c d && HasPrefix s' p
  | String _ _, EmptyString => false
  end.

(** Every event of every run of [m] satisfies [P]. *)
Definition always {A} (P : Event -> Prop) (m : M A) : Prop :=
  forall k, Forall P (trace (m k)).

(** What the service puts on the bus: diagnostic messages that start with
    its name, at high priority; its name as the liveness signal, at
    critical priority; records that carry its type and name, at high
    priority; nothing else. *)
Definition bus_discipline (n : NetworksDB) (e : Event) : Prop :=
  match e with
  | EvPublish LogTopic PriorityHigh (PString msg) =>
      HasPrefix msg (name n +:+ ": ") = true
  | EvPublish SetActiveTopic PriorityCritical (PString s) => s = name n
  | EvPublish NewASNTopic PriorityHigh (PASN r) =>
      Tag r = Type_ n /\ Source r = name n
  | EvPublish _ _ _ => False
  | _ => True
  end.

(** The headers [getHeaders] builds from a credential. *)
Definition api_headers (key : APIKey) : list (string * string) :=
  [("X-Api-Key", Key key);
   ("Content-Type", "application/x-www-form-urlencoded")].

(** An outbound call of API mode: a POST below the API path of the base
    URL, with the credential; and one of scrape mode: a GET below the base
    URL, without headers. *)
Definition api_call (key : APIKey) (e : Event) : Prop :=
  match e with
  | EvRequestWebPage r =>
      HasPrefix (req_url r) (networksdbBaseURL +:+ networksdbAPIPATH +:+ "/")
        = true /\
      req_headers r = Some (api_headers key) /\
      req_body r <> None
  | _ => True
  end.

Definition scrape_call (e : Event) : Prop :=
  match e with
  | EvRequestWebPage r =>
      HasPrefix (req_url r) networksdbBaseURL = true /\
      req_headers r = None /\
      req_body r = None
  | _ => True
  end.

(** The trace as the rate limiter sees it: [paced_from waited tr] holds when
    every outbound call in [tr] comes after a rate-limit wait that no other
    call has used up, [waited] telling whether such a wait is pending at the
    start; [waited_after] is what is pending at the end. *)
Fixpoint paced_from (waited : bool) (tr : list Event) : bool :=
  match tr with
  | [] => true
  | EvCheckRateLimit :: rest => paced_from true rest
  | EvRequestWebPage _ :: rest => waited && paced_from false rest
  | EvPublish _ _ _ :: rest => paced_from waited rest
  end.

Fixpoint waited_after (waited : bool) (tr : list Event) : bool :=
  match tr with
  | [] => waited
  | EvCheckRateLimit :: rest => waited_after true rest
  | EvRequestWebPage _ :: rest => waited_after false rest
  | EvPublish _ _ _ :: rest => waited_after waited rest
  end.

Definition paced (tr : list Event) : bool := paced_from false tr.

(** A computation that paces its own calls, and one that does so once a
    wait is pending. *)
Definition pace_any {A} (m : M A) : Prop :=
  forall k waited, paced_from waited (trace (m k)) = true.

Definition pace_armed {A} (m : M A) : Prop :=
  forall k, paced_from true (trace (m k)) = true.

(** An event that is a publication on the bus. *)
Definition is_publication (e : Event) : Prop :=
  match e with
  | EvPublish _ _ _ => True
  | _ => False
  end.

(** A description is a name followed by the country code of the record. *)
Definition description_ends_with_cc (r : ASNRequest) : Prop :=
  exists nm, Description r = nm +:+ ", " +:+ CC r.

(** The call an API helper makes to [u] with the form parameter [k=v]. *)
Definition api_request (key : APIKey) (u k v : string) : Request :=
  {| req_url := u; req_body := Some (k, v);
     req_headers := Some (api_headers key) |}.

(** A body that decodes without a service error. *)
Definition decoded {R} (result : string + string)
  (unmarshal : string -> string + Response R) (m : Response R) : Prop :=
  exists page, result = inr page /\ unmarshal page = inr m /\ Error m = "".

(** ** The Whois handler of the service *)

Module Whois.

(** [requests.WhoisRequest], restricted to the fields the handler reads or
    writes. *)
Record WhoisRequest := mkWhoisRequest {
  Domain : string;
  NewDomains : list string;
  Tag : string;
  Source : string
}.

(** [config.Config]: only the scope test is used. *)
Record Config := mkConfig { IsDomainInScope : string -> bool }.

(** The context of the handler: the bus, as before, and the configuration
    stored under [requests.ContextConfig] (a stored [nil] is [None]). *)
Record WhoisContext := mkWhoisContext {
  bus_of : Context;
  ContextConfig : option Config
}.

(** The patterns of the Whois path: the href of an IP page, the CIDR shown
    on an IP page, and the two markers that delimit the list of domains. *)
Inductive Pattern :=
| networksdbIPLinkRE
| networksdbIPPageCIDRRE
| networksdbDomainsRE
| networksdbTableRE.

(** What the handler uses beyond [Env]: the [regexp] calls on its own
    patterns (a [nil] result is the empty list), the subdomain pattern of
    the [dns] package, [amassnet.FirstLast] and [net.IP.String]. *)
Record Lib := mkLib {
  reFindAllStringSubmatch : Pattern -> string -> list (list string);
  reFindStringSubmatch : Pattern -> string -> list string;
  reFindStringIndex : Pattern -> string -> list Z;
  AnySubdomainRegex_FindAllString : string -> list string;
  FirstLast : IPNet -> IP * IP;
  IP_String : IP -> string
}.

(** What the handler does: the events of the service, and a publication on
    the new-Whois topic. *)
Inductive WhoisEvent :=
| EvService (e : Event)
| EvPublishWhois (p : Priority) (r : WhoisRequest).

Record WRes (A : Type) := mkWRes {
  woutcome : Outcome A;
  wtrace : list WhoisEvent;
  witers : nat
}.
Arguments mkWRes {A}.
Arguments woutcome {A}.
Arguments wtrace {A}.
Arguments witers {A}.

Definition W (A : Type) : Type := nat -> WRes A.

Definition wret {A} (a : A) : W A := fun k => mkWRes (Done a) [] k.

Definition wbind {A B} (m : W A) (f : A -> W B) : W B :=
  fun k =>
    let r := m k in
    match woutcome r with
    | Done a =>
        let r' := f a (witers r) in
        mkWRes (woutcome r') (wtrace r ++ wtrace r') (witers r')
    | Panicked msg => mkWRes (Panicked msg) (wtrace r) (witers r)
    end.

(** A computation of the service, run inside the handler. *)
Definition lift {A} (m : M A) : W A :=
  fun k =>
    let r := m k in
    mkWRes (outcome r) (map EvService (trace r)) (iters r).

(** [bus.Publish(requests.NewWhoisTopic, priority, req)]. *)
Definition PublishWhois (bus : EventBus) (p : Priority) (r : WhoisRequest)
  : W unit := fun k => mkWRes (Done tt) [EvPublishWhois p r] k.

(** [s[lo:hi]] on a string, with the run-time bounds checks. *)
Definition slice (s : string) (lo hi : Z) : M string :=
  let len := Z.of_nat (String.length s) in
  if (hi <? 0) || (len <? hi) then
    panic ("runtime error: slice bounds out of range [:" +:+ Itoa hi +:+
           "] with length " +:+ Itoa len)
  else if (lo <? 0) || (hi <? lo) then
    panic ("runtime error: slice bounds out of range [" +:+ Itoa lo +:+
           ":" +:+ Itoa hi +:+ "]")
  else ret (substring (Z.to_nat lo) (Z.to_nat (hi - lo)) s).

Definition getDomainToIPURL (domain : string) : string :=
  networksdbBaseURL +:+ "/domain-to-ips/" +:+ domain.

Definition getDomainsInNetworkURL (first last : string) : string :=
  networksdbBaseURL +:+ "/domains-in-network/" +:+ first +:+ "/" +:+ last.

Section Handler.

Variable E : Env.
Variable L : Lib.

(** The body of the loop over the IP links (lines 600-654), for one match:
    [newdomains] as it is when the body is left, by [continue] or at its
    end. *)
Definition visit (n : NetworksDB) (bus : EventBus) (match_ : list string)
  (newdomains : StringSet) : M StringSet :=
  if (length match_ <? 2)%nat then ret newdomains
  else
    CheckRateLimit n >>
    setActive n bus >>
    let* m1 := index 1 match_ in
    let u := networksdbBaseURL +:+ m1 in
    let* r := http E (mkRequest u None None) in
    match r with
    | inl err => log n bus (u +:+ ": " +:+ err) >> ret newdomains
    | inr page =>
        let cidrMatch := reFindStringSubmatch L networksdbIPPageCIDRRE page in
        if is_nil cidrMatch || (length cidrMatch <? 2)%nat then
          log n bus (u +:+ ": Failed to extract the CIDR") >> ret newdomains
        else
          let* c1 := index 1 cidrMatch in
          match ParseCIDR E c1 with
          | inl _ => ret newdomains
          | inr cidr =>
              CheckRateLimit n >>
              setActive n bus >>
              let (first, last) := FirstLast L cidr in
              let u :=
                getDomainsInNetworkURL (IP_String L first)
                  (IP_String L last) in
              let* r := http E (mkRequest u None None) in
              match r with
              | inl err =>
                  log n bus (u +:+ ": " +:+ err) >> ret newdomains
              | inr page =>
                  let domainsPos :=
                    reFindStringIndex L networksdbDomainsRE page in
                  let tablePos :=
                    reFindStringIndex L networksdbTableRE page in
                  if is_nil domainsPos || is_nil tablePos ||
                     (length domainsPos <? 2)%nat ||
                     (length tablePos <? 2)%nat then
                    log n bus
                      (u +:+
                       ": Failed to extract the domain section of the page")
                    >> ret newdomains
                  else
                    let* start := index 1 domainsPos in
                    let* end_ := index 1 tablePos in
                    let* section := slice page start end_ in
                    ret (fold_left
                           (fun nd d => Insert nd (TrimSpace E d))
                           (AnySubdomainRegex_FindAllString L section)
                           newdomains)
              end
          end
    end.

(** [for _, match := range matches]. *)
Fixpoint visit_all (n : NetworksDB) (bus : EventBus)
  (matches : list (list string)) (newdomains : StringSet) : M StringSet :=
  match matches with
  | [] => ret newdomains
  | match_ :: rest =>
      let* newdomains := visit n bus match_ newdomains in
      visit_all n bus rest newdomains
  end.

Definition OnWhoisRequest (n : NetworksDB) (ctx : WhoisContext)
  (req : WhoisRequest) : W unit :=
  match ContextConfig ctx, ContextEventBus (bus_of ctx) with
  | Some cfg, Some bus =>
      if negb (IsDomainInScope cfg (Domain req)) then wret tt
      else
        wbind (lift (CheckRateLimit n)) (fun _ =>
        wbind (lift (setActive n bus)) (fun _ =>
        let u := getDomainToIPURL (Domain req) in
        wbind (lift (http E (mkRequest u None None))) (fun r =>
        match r with
        | inl err => lift (log n bus (u +:+ ": " +:+ err))
        | inr page =>
            let matches :=
              reFindAllStringSubmatch L networksdbIPLinkRE page in
            if is_nil matches then
              lift (log n bus (u +:+ ": Failed to extract the IP page href"))
            else
              wbind (lift (visit_all n bus matches New)) (fun newdomains =>
              wbind (lift (Slice E newdomains)) (fun sl =>
              if (0 <? length sl)%nat then
                wbind (lift (Slice E newdomains)) (fun sl' =>
                PublishWhois bus PriorityHigh
                  {| Domain := Domain req;
                     NewDomains := sl';
                     Tag := SourceType n;
                     Source := name n |})
              else wret tt))
        end)))
  | _, _ => wret tt
  end.

End Handler.

(** The service events of a trace of the handler, and its publications on
    the new-Whois topic. *)
Fixpoint service_events (tr : list WhoisEvent) : list Event :=
  match tr with
  | [] => []
  | EvService e :: rest => e :: service_events rest
  | EvPublishWhois _ _ :: rest => service_events rest
  end.

Fixpoint whois_published (tr : list WhoisEvent) : list WhoisRequest :=
  match tr with
  | [] => []
  | EvService _ :: rest => whois_published rest
  | EvPublishWhois _ r :: rest => r :: whois_published rest
  end.

End Whois.

(** The fetches of the IP pages the links of a domain page call for: one
    for each match that has its capture, in order. *)
Definition ip_page_requests (matches : list (list string)) : list Request :=
  map (fun m => mkRequest (networksdbBaseURL +:+ nth 1 m "") None None)
    (List.filter (fun m => (2 <=? length m)%nat) matches).

(** ** A Whois scenario *)

Module WhoisScenario.

(** [amassnet.FirstLast] and [net.IP.String] on the IPv4 stand-in. *)
Fixpoint or_not_bytes (xs ms : list Z) : list Z :=
  match xs, ms with
  | x :: xs, m :: ms => Z.lor x (255 - m) :: or_not_bytes xs ms
  | _, _ => []
  end.

Definition FirstLast4 (ipnet : IPNet) : IP * IP :=
  (GoModel.and_bytes (IPNet_IP ipnet) (IPNet_Mask ipnet),
   or_not_bytes (IPNet_IP ipnet) (IPNet_Mask ipnet)).

Definition IP4_String (ip : IP) : string :=
  String.concat "." (map Itoa ip).

(** The domain page of example.com links to three IP pages: the first is
    well formed, the second match lacks its capture, the third cannot be
    fetched.  The page of the network lists one domain between the two
    markers. *)
Definition domain_page : string := "domain-page".
Definition ip_page : string := "ip-page".
Definition network_page : string :=
  "Domains in network www.example.com <table class".
Definition reversed_page : string :=
  "<table class ... Domains in network www.example.com".

Definition fetch (network : string) (r : Request) : string + string :=
  let u := req_url r in
  if String.eqb u (Whois.getDomainToIPURL "example.com") then inr domain_page
  else if String.eqb u (networksdbBaseURL +:+ "/ip/198.51.100.7") then
    inr ip_page
  else if String.eqb u
            (Whois.getDomainsInNetworkURL "198.51.100.0" "198.51.100.255")
  then inr network
  else inl "no route to host".

Definition findall (p : Whois.Pattern) (page : string)
  : list (list string) :=
  match p with
  | Whois.networksdbIPLinkRE =>
      if String.eqb page domain_page then
        [["<a href=/ip/198.51.100.7>"; "/ip/198.51.100.7"];
         ["<a>"];
         ["<a href=/ip/203.0.113.9>"; "/ip/203.0.113.9"]]
      else []
  | _ => []
  end.

Definition find (p : Whois.Pattern) (page : string) : list string :=
  match p with
  | Whois.networksdbIPPageCIDRRE =>
      if String.eqb page ip_page then
        ["<b>Network: 198.51.100.0/24</a>"; "198.51.100.0/24"]
      else []
  | _ => []
  end.

Definition findindex (p : Whois.Pattern) (page : string) : list Z :=
  if String.eqb page network_page then
    match p with
    | Whois.networksdbDomainsRE => [0; 18]
    | Whois.networksdbTableRE => [35; 47]
    | _ => []
    end
  else if String.eqb page reversed_page then
    match p with
    | Whois.networksdbDomainsRE => [17; 35]
    | Whois.networksdbTableRE => [0; 12]
    | _ => []
    end
  else [].

Definition subdomains (section : string) : list string :=
  if String.eqb section " www.example.com <table class" then
    ["www.example.com"]
  else [].

Definition lib : Whois.Lib :=
  {| Whois.reFindAllStringSubmatch := findall;
     Whois.reFindStringSubmatch := find;
     Whois.reFindStringIndex := findindex;
     Whois.AnySubdomainRegex_FindAllString := subdomains;
     Whois.FirstLast := FirstLast4;
     Whois.IP_String := IP4_String |}.

Definition env (network : string) : Env :=
  GoModel.env (fetch network) Scenario.no_match Scenario.no_matches
    Scenario.bad_json Scenario.bad_json Scenario.bad_json Scenario.bad_json.

Definition in_scope : Whois.Config :=
  {| Whois.IsDomainInScope := fun d => String.eqb d "example.com" |}.

Definition ctx : Whois.WhoisContext :=
  {| Whois.bus_of := Scenario.ctx; Whois.ContextConfig := Some in_scope |}.

Definition request (d : string) : Whois.WhoisRequest :=
  {| Whois.Domain := d; Whois.NewDomains := []; Whois.Tag := "";
     Whois.Source := "" |}.

End WhoisScenario.

(** An event of the healing loop that is an insertion into storage. *)
Definition is_insertion (e : Heal.Event) : Prop :=
  match e with
  | Heal.EvInsertInfrastructure _ _ _ _ _ _ _ => True
  | _ => False
  end.

(** ** The [db] command: selection and listing of enumerations *)

Module DB.

(** [strings.ToLower] and [strings.TrimSpace]. *)
Record Strings := mkStrings {
  ToLower : string -> string;
  TrimSpace : string -> string
}.

(** [s[n:]] for [n] within the string. *)
Fixpoint drop (n : nat) (s : string) : string :=
  match n, s with
  | O, _ => s
  | S n', String _ s' => drop n' s'
  | S _, EmptyString => EmptyString
  end.

(** [strings.HasSuffix]: the suffix is no longer than the string and equals
    its tail of that length. *)
Definition HasSuffix (s suffix : string) : bool :=
  (String.length suffix <=? String.length s)%nat &&
  String.eqb (drop (String.length s - String.length suffix) s) suffix.

(** [requests.Output], restricted to the name and the textual addresses. *)
Record Output := mkOutput { Name : string; Addresses : list string }.

(** What the command reads from a graph database.  Times are instants on
    one clock.  [MigrateEvent] answers with the error, if any, of moving an
    event into a target that already holds the events given first. *)
Record Graph := mkGraph {
  EventList : list string;
  EventDomains : string -> list string;
  EventDateRange : string -> Z * Z;
  EventOutput : string -> list Output;
  MigrateEvent : list string -> string -> option string
}.

Section Scope.

Variable Str : Strings.

(** The loop of [domainNameInScope] over [scope], with its flag. *)
Fixpoint scope_loop (n : string) (scope : list string) (discovered : bool)
  : bool :=
  match scope with
  | [] => discovered
  | d :: rest =>
      let d := ToLower Str d in
      if String.eqb n d || HasSuffix n ("." +:+ d) then true
      else scope_loop n rest discovered
  end.

Definition domainNameInScope (name : string) (scope : list string) : bool :=
  let n := ToLower Str (TrimSpace Str name) in
  scope_loop n scope false.

(** The inner loop of [eventUUIDs] over the domains: [true] when it
    reaches the append and the [break]. *)
Fixpoint domains_loop (domains surface : list string) : bool :=
  match domains with
  | [] => false
  | domain :: rest =>
      if domainNameInScope domain surface then true
      else domains_loop rest surface
  end.

Fixpoint eventUUIDs_loop (db : Graph) (domains ids uuids : list string)
  : list string :=
  match ids with
  | [] => uuids
  | id :: rest =>
      if (length domains =? 0)%nat then
        eventUUIDs_loop db domains rest (uuids ++ [id])
      else
        let surface := EventDomains db id in
        if domains_loop domains surface then
          eventUUIDs_loop db domains rest (uuids ++ [id])
        else eventUUIDs_loop db domains rest uuids
  end.

Definition eventUUIDs (domains : list string) (db : Graph) : list string :=
  eventUUIDs_loop db domains (EventList db) [].

End Scope.

(** [migrateAllEvents]: the events handed to [MigrateEvent], in order, and
    the error returned ([nil] is [None]). *)
Fixpoint migrateAllEvents_from (from : Graph) (held uuids : list string)
  : list string * option string :=
  match uuids with
  | [] => ([], None)
  | uuid :: rest =>
      match MigrateEvent from held uuid with
      | Some err => ([uuid], Some err)
      | None =>
          let (calls, e) := migrateAllEvents_from from (held ++ [uuid]) rest in
          (uuid :: calls, e)
      end
  end.

Definition migrateAllEvents (uuids : list string) (from : Graph)
  : list string * option string :=
  migrateAllEvents_from from [] uuids.

(** [memGraphForEvents]; [created] tells whether the in-memory graph could
    be made.  The graph returned is given by the events moved into it. *)
Definition memGraphForEvents (created : bool) (uuids : list string)
  (from : Graph) : option (list string) * option string :=
  if negb created then
    (None, Some "Failed to create the in-memory graph database")
  else
    match migrateAllEvents uuids from with
    | (_, Some err) =>
        (None,
         Some ("Failed to move the data into the in-memory graph database: "
               +:+ err))
    | (moved, None) => (Some moved, None)
    end.

(** The loop of [getEventOutput], from index [i - 1] down to 0. *)
Fixpoint getEventOutput_loop (db : Graph) (uuids : list string) (i : nat)
  (output : list Output) : list Output :=
  match i with
  | O => output
  | S i' =>
      getEventOutput_loop db uuids i'
        (output ++ EventOutput db (nth i' uuids ""))
  end.

Definition getEventOutput (uuids : list string) (db : Graph) : list Output :=
  getEventOutput_loop db uuids (length uuids) [].

(** The comparison [orderedEvents] hands to [sort.Slice], on the date
    ranges of two events: [l1.After(l2) || e2.Before(e1)]. *)
Definition less (db : Graph) (x y : string) : bool :=
  let (e1, l1) := EventDateRange db x in
  let (e2, l2) := EventDateRange db y in
  (l2 <? l1) || (e2 <? e1).

(** Lines 843-846 of [runDBCommand]: the enumeration the user chose. *)
Definition select_enum (Enum : Z) (uuids : list string) : M (list string) :=
  if (0 <? Enum) && (Enum <? Z.of_nat (length uuids)) then
    let* u := index (Z.to_nat Enum) uuids in
    ret [u]
  else ret uuids.

(** The line feed [Println] ends a line with. *)
Definition nl : string := String (ascii_of_nat 10) EmptyString.

(** The inner loop of [listEvents] over the domains of one event, from
    index [x]. *)
Fixpoint print_domains (x : nat) (domains : list string) : string :=
  match domains with
  | [] => ""
  | domain :: rest =>
      (if negb (x =? 0)%nat then ", " else "") +:+ domain +:+
      print_domains (S x) rest
  end.

(** The loop of [listEvents] from index [i]: what it prints.  [Format]
    renders an instant with the time format of the command. *)
Fixpoint listEvents_loop (Format : Z -> string) (db : Graph) (i : nat)
  (events : list string) (earliest latest : list Z) : string :=
  match events with
  | [] => ""
  | event :: rest =>
      (if negb (i =? 0)%nat then nl else "") +:+
      Itoa (Z.of_nat i + 1) +:+ ") " +:+
      Format (nth i earliest 0) +:+ " -> " +:+
      Format (nth i latest 0) +:+ ": " +:+
      print_domains 0 (EventDomains db event) +:+ nl +:+
      listEvents_loop Format db (S i) rest earliest latest
  end.

(** The second half of [orderedEvents]: the two lists of instants. *)
Fixpoint date_ranges (db : Graph) (events : list string) (earliest latest : list Z)
  : list Z * list Z :=
  match events with
  | [] => (earliest, latest)
  | event :: rest =>
      let (e, l) := EventDateRange db event in
      date_ranges db rest (earliest ++ [e]) (latest ++ [l])
  end.

(** [orderedEvents]; [sort_Slice] is [sort.Slice], which reorders the
    events in place by the comparison it is given. *)
Definition orderedEvents
  (sort_Slice : (string -> string -> bool) -> list string -> list string)
  (events : list string) (db : Graph) : list string * list Z * list Z :=
  let events := sort_Slice (less db) events in
  let (earliest, latest) := date_ranges db events [] [] in
  (events, earliest, latest).

(** [listEvents]: the message on the error stream when nothing is found
    (left), or the listing on the standard output (right). *)
Definition listEvents (Str : Strings) (Format : Z -> string)
  (sort_Slice : (string -> string -> bool) -> list string -> list string)
  (domains : list string) (db : Graph) : string + string :=
  let events := eventUUIDs Str domains db in
  if (length events =? 0)%nat then
    inl ("No enumerations found within the provided scope" +:+ nl)
  else
    let '(events, earliest, latest) := orderedEvents sort_Slice events db in
    inr (listEvents_loop Format db 0 events earliest latest).

End DB.

(** The entry [listEvents] prints for the event at index [i]. *)
Definition listed_entry (Format : Z -> string) (db : DB.Graph)
  (earliest latest : list Z) (i : nat) (event : string) : string :=
  Itoa (Z.of_nat i + 1) +:+ ") " +:+
  Format (nth i earliest 0) +:+ " -> " +:+
  Format (nth i latest 0) +:+ ": " +:+
  String.concat ", " (DB.EventDomains db event) +:+ DB.nl.

(** ** Properties *)

Lemma published_app (t1 t2 : list Event) :
  published (t1 ++ t2) = published t1 ++ published t2.
Proof.
  induction t1 as [|e t1 IH]; [reflexivity|].
  destruct e as [ |r|t p d]; simpl; auto.
  destruct t, d; simpl; auto. now rewrite IH.
Qed.

Lemma logged_app (t1 t2 : list Event) :
  logged (t1 ++ t2) = logged t1 ++ logged t2.
Proof.
  induction t1 as [|e t1 IH]; [reflexivity|].
  destruct e as [ |r|t p d]; simpl; auto.
  destruct t, d; simpl; auto. now rewrite IH.
Qed.

Lemma fetched_app (t1 t2 : list Event) :
  fetched (t1 ++ t2) = fetched t1 ++ fetched t2.
Proof.
  induction t1 as [|e t1 IH]; [reflexivity|].
  destruct e; simpl; auto. now rewrite IH.
Qed.

Section Rules.

Context {A B : Type}.

Lemma quiet_bind (m : M A) (f : A -> M B) :
  quiet m -> (forall a, quiet (f a)) -> quiet (bind m f).
Proof.
  intros Hm Hf k. unfold bind.
  destruct (outcome (m k)) as [a|msg]; simpl.
  - now rewrite published_app, Hm, Hf.
  - apply Hm.
Qed.

Lemma sat_bind (P : ASNRequest -> Prop) (m : M A) (f : A -> M B)
  (Q1 : A -> Prop) (Q : B -> Prop) :
  sat P m Q1 -> (forall a, Q1 a -> sat P (f a) Q) -> sat P (bind m f) Q.
Proof.
  intros Hm Hf k. destruct (Hm k) as [Hp Hq]. unfold bind.
  destruct (outcome (m k)) as [a|msg] eqn:Ho; simpl.
  - destruct (Hf a (Hq a eq_refl) (iters (m k))) as [Hp' Hq'].
    split; [|exact Hq'].
    rewrite published_app. apply Forall_app. now split.
  - split; [exact Hp|]. intros b Hb. discriminate Hb.
Qed.

Lemma quiet_sat (P : ASNRequest -> Prop) (m : M A) :
  quiet m -> sat P m (fun _ => True).
Proof. intros Hm k. rewrite Hm. split; [constructor|trivial]. Qed.

Lemma sat_quiet_bind (P : ASNRequest -> Prop) (m : M A) (f : A -> M B)
  (Q : B -> Prop) :
  quiet m -> (forall a, sat P (f a) Q) -> sat P (bind m f) Q.
Proof.
  intros Hm Hf. apply sat_bind with (Q1 := fun _ => True).
  - now apply quiet_sat.
  - intros a _. apply Hf.
Qed.

End Rules.

Lemma quiet_ret {A} (a : A) : quiet (ret a).
Proof. intros k. reflexivity. Qed.

Lemma quiet_panic {A} (msg : string) : quiet (@panic A msg).
Proof. intros k. reflexivity. Qed.

Lemma quiet_index {A} (i : nat) (xs : list A) : quiet (index i xs).
Proof. unfold index. destruct (xs !! i); [apply quiet_ret|apply quiet_panic]. Qed.

Lemma quiet_CheckRateLimit (n : NetworksDB) : quiet (CheckRateLimit n).
Proof. intros k. reflexivity. Qed.

Lemma quiet_getHeaders (n : NetworksDB) : quiet (getHeaders n).
Proof.
  unfold getHeaders. destruct (negb (hasAPIKey n)); [apply quiet_ret|].
  destruct (APIfield n); [apply quiet_ret|apply quiet_panic].
Qed.

Lemma quiet_log (n : NetworksDB) (bus : EventBus) (msg : string) :
  quiet (log n bus msg).
Proof. intros k. reflexivity. Qed.

Lemma quiet_setActive (n : NetworksDB) (bus : EventBus) :
  quiet (setActive n bus).
Proof. intros k. reflexivity. Qed.

Lemma quiet_http (E : Env) (r : Request) : quiet (http E r).
Proof. intros k. reflexivity. Qed.

Lemma quiet_range (E : Env) (s : StringSet) : quiet (range E s).
Proof. intros k. reflexivity. Qed.

Create HintDb quiet.
#[export] Hint Resolve quiet_ret quiet_panic quiet_index quiet_CheckRateLimit
  quiet_getHeaders quiet_log quiet_setActive quiet_http quiet_range : quiet.

(** Decomposes a computation along its binds and case distinctions. *)
Ltac quiet_step :=
  first
    [ solve [auto with quiet]
    | apply quiet_bind; [|intros]
    | match goal with
      | |- quiet (match ?x with _ => _ end) => destruct x
      end ].

Ltac quiet_tac := repeat quiet_step.

Lemma quiet_apiIPQuery E n ctx addr : quiet (apiIPQuery E n ctx addr).
Proof. unfold apiIPQuery. quiet_tac. Qed.

Lemma quiet_apiOrgInfoQuery E n ctx id : quiet (apiOrgInfoQuery E n ctx id).
Proof. unfold apiOrgInfoQuery. quiet_tac. Qed.

Lemma quiet_apiASNInfoQuery E n ctx asn : quiet (apiASNInfoQuery E n ctx asn).
Proof. unfold apiASNInfoQuery. quiet_tac. Qed.

Lemma quiet_apiNetblocksQuery E n ctx asn :
  quiet (apiNetblocksQuery E n ctx asn).
Proof. unfold apiNetblocksQuery. quiet_tac. Qed.

#[export] Hint Resolve quiet_apiIPQuery quiet_apiOrgInfoQuery
  quiet_apiASNInfoQuery quiet_apiNetblocksQuery : quiet.

(** *** Prefix selection *)

Section PrefixSelection.

Variable E : Env.
Hypothesis order_ok : map_order_ok E.

Lemma elem_of_map_order (k : nat) (s : StringSet) (x : string) :
  x ∈ map_order E k s <-> x ∈ s.
Proof. rewrite (order_ok k s). apply elem_of_elements. Qed.

Lemma scan_prefix_cases (ip : IP) (order : list string) (p : string) :
  scan_prefix E ip order p = p \/ scan_prefix E ip order p ∈ order.
Proof.
  induction order as [|cidr rest IH]; simpl; [now left|].
  destruct (ParseCIDR E cidr) as [err|ipnet].
  - destruct IH as [IH|IH]; [now left|right; now constructor].
  - destruct (Contains E ipnet ip).
    + right. constructor.
    + destruct IH as [IH|IH]; [now left|right; now constructor].
Qed.

Lemma index_range_elem (k : nat) (s : StringSet) (x : string) (i : nat) :
  outcome (index i (map_order E k s) (S k)) = Done x -> x ∈ s.
Proof.
  unfold index. destruct (map_order E k s !! i) as [y|] eqn:Hy; simpl.
  - intros [= <-]. apply (elem_of_map_order k). now apply list_elem_of_lookup_2 in Hy.
  - discriminate.
Qed.

Lemma sat_scrape_prefix (P : ASNRequest -> Prop) (addr : string)
  (netblocks : StringSet) :
  sat P (scrape_prefix E addr netblocks)
    (fun p => netblocks <> ∅ -> p ∈ netblocks).
Proof.
  intros k. split.
  { assert (Hq : quiet (scrape_prefix E addr netblocks))
      by (unfold scrape_prefix, Slice; quiet_tac).
    rewrite Hq. constructor. }
  intros p. unfold scrape_prefix, Slice, bind, range, ret. simpl.
  destruct (negb (String.eqb addr "")); simpl.
  - destruct (scan_prefix_cases (ParseIP E addr) (map_order E k netblocks) "")
      as [Hs|Hs].
    + rewrite Hs. simpl.
      destruct (0 <? len netblocks)%nat eqn:Hl; simpl.
      * intros Hx _. revert Hx. apply index_range_elem.
      * intros _ Hne. apply Nat.ltb_ge in Hl. unfold len in Hl.
        assert (size netblocks = 0%nat) as Hz by lia.
        apply size_empty_inv in Hz. exfalso. apply Hne.
        now apply leibniz_equiv.
    + destruct (String.eqb (scan_prefix E (ParseIP E addr)
                              (map_order E k netblocks) "") "" &&
                (0 <? len netblocks)%nat); simpl.
      * intros Hx _. revert Hx. apply index_range_elem.
      * intros [= <-] _. now apply (elem_of_map_order k).
  - destruct (0 <? len netblocks)%nat eqn:Hl; simpl.
    + intros Hx _. revert Hx. apply index_range_elem.
    + intros _ Hne. apply Nat.ltb_ge in Hl. unfold len in Hl.
      assert (size netblocks = 0%nat) as Hz by lia.
      apply size_empty_inv in Hz. exfalso. apply Hne.
      now apply leibniz_equiv.
Qed.

Lemma sat_api_prefix (P : ASNRequest -> Prop) (addr : string)
  (netblocks : StringSet) :
  sat P (api_prefix E addr netblocks) (fun p => p ∈ netblocks).
Proof.
  intros k. split.
  { assert (Hq : quiet (api_prefix E addr netblocks))
      by (unfold api_prefix, Slice; quiet_tac).
    rewrite Hq. constructor. }
  intros p. unfold api_prefix, Slice, bind, range, ret. simpl.
  destruct (negb (String.eqb addr "")); simpl.
  - destruct (scan_prefix_cases (ParseIP E addr) (map_order E k netblocks) "")
      as [Hs|Hs].
    + rewrite Hs. simpl. apply index_range_elem.
    + destruct (String.eqb (scan_prefix E (ParseIP E addr)
                              (map_order E k netblocks) "") ""); simpl.
      * apply index_range_elem.
      * intros [= <-]. now apply (elem_of_map_order k).
  - apply index_range_elem.
Qed.

Lemma sat_publish (P : ASNRequest -> Prop) (bus : EventBus) (r : ASNRequest) :
  P r -> sat P (Publish bus NewASNTopic PriorityHigh (PASN r)) (fun _ => True).
Proof. intros Hr k. simpl. split; [now repeat constructor|trivial]. Qed.

(** Scrape mode: the prefix of a published record is a member of its
    netblocks whenever there are any. *)
Lemma sat_executeASNQuery n ctx asn addr netblocks :
  sat prefix_in_netblocks (executeASNQuery E n ctx asn addr netblocks)
    (fun _ => True).
Proof.
  unfold executeASNQuery.
  destruct (ContextEventBus ctx) as [bus|]; [|apply quiet_sat; quiet_tac].
  repeat (apply sat_quiet_bind; [solve [quiet_tac]|intros]).
  destruct a1 as [err|page]; [apply quiet_sat; quiet_tac|].
  destruct (_ || _); [apply quiet_sat; quiet_tac|].
  apply sat_quiet_bind; [solve [quiet_tac]|intros m1].
  destruct (_ || _); [apply quiet_sat; quiet_tac|].
  apply sat_quiet_bind; [solve [quiet_tac]|intros m2].
  eapply sat_bind; [apply sat_scrape_prefix|].
  intros prefix Hp. apply sat_publish.
  eexists; split; [reflexivity|exact Hp].
Qed.

Lemma sat_executeASNAddrQuery n ctx addr :
  sat prefix_in_netblocks (executeASNAddrQuery E n ctx addr) (fun _ => True).
Proof.
  unfold executeASNAddrQuery.
  destruct (ContextEventBus ctx) as [bus|]; [|apply quiet_sat; quiet_tac].
  apply sat_quiet_bind; [solve [quiet_tac]|intros r].
  destruct r as [err|page]; [apply quiet_sat; quiet_tac|].
  destruct (_ || _); [apply quiet_sat; quiet_tac|].
  repeat (apply sat_quiet_bind; [solve [quiet_tac]|intros]).
  destruct a2 as [err|page']; [apply quiet_sat; quiet_tac|].
  destruct (_ || _); [apply quiet_sat; quiet_tac|].
  apply sat_quiet_bind; [solve [quiet_tac]|intros m1].
  destruct (Atoi E _) as [err|asn]; [apply quiet_sat; quiet_tac|].
  apply sat_executeASNQuery.
Qed.

Lemma size_nonzero_nonempty (s : StringSet) :
  (len s =? 0)%nat = false -> s <> ∅.
Proof.
  intros H ->. unfold len in H. now rewrite size_empty in H.
Qed.

(** API mode: a published record has netblocks, and its prefix is one of
    them. *)
Lemma sat_publishAPIASN n ctx bus asn addr netblocks :
  netblocks <> ∅ ->
  sat record_invariant (publishAPIASN E n ctx bus asn addr netblocks)
    (fun _ => True).
Proof.
  intros Hne. unfold publishAPIASN.
  eapply sat_bind; [apply sat_api_prefix|]. intros prefix Hp.
  repeat (apply sat_quiet_bind; [solve [quiet_tac]|intros]).
  destruct a1 as [req|]; [|apply quiet_sat; quiet_tac].
  apply sat_publish. split; eexists; (split; [reflexivity|auto]).
Qed.

Lemma sat_executeAPIASNQuery n ctx asn addr netblocks :
  sat record_invariant (executeAPIASNQuery E n ctx asn addr netblocks)
    (fun _ => True).
Proof.
  unfold executeAPIASNQuery.
  destruct (ContextEventBus ctx) as [bus|]; [|apply quiet_sat; quiet_tac].
  destruct (len _ =? 0)%nat eqn:Hl.
  - apply sat_quiet_bind; [solve [quiet_tac]|intros found].
    destruct (len (Union _ found) =? 0)%nat eqn:Hl';
      [apply quiet_sat; quiet_tac|].
    apply sat_publishAPIASN. now apply size_nonzero_nonempty.
  - apply sat_publishAPIASN. now apply size_nonzero_nonempty.
Qed.

Lemma quiet_candidates_loop n ctx bus ip asns asn cidrs :
  quiet (candidates_loop E n ctx bus ip asns asn cidrs).
Proof.
  revert asn cidrs. induction asns as [|a rest IH]; intros asn cidrs; simpl.
  - apply quiet_ret.
  - repeat (apply quiet_bind; [solve [quiet_tac]|intros]).
    destruct (scan_contains _ _ _); [apply quiet_ret|apply IH].
Qed.

Lemma sat_executeAPIASNAddrQuery n ctx addr :
  sat record_invariant (executeAPIASNAddrQuery E n ctx addr) (fun _ => True).
Proof.
  unfold executeAPIASNAddrQuery.
  destruct (ContextEventBus ctx) as [bus|]; [|apply quiet_sat; quiet_tac].
  apply sat_quiet_bind; [solve [quiet_tac]|intros [c id]].
  destruct (String.eqb id ""); [apply quiet_sat; quiet_tac|].
  repeat (apply sat_quiet_bind; [solve [quiet_tac]|intros]).
  destruct (length _ =? 0)%nat; [apply quiet_sat; quiet_tac|].
  unfold resolve_candidates.
  apply sat_quiet_bind; [apply quiet_candidates_loop|intros [asn cidrs]].
  destruct (asn =? 0); [apply quiet_sat; quiet_tac|].
  apply sat_executeAPIASNQuery.
Qed.

Lemma sat_weaken {A} (P P' : ASNRequest -> Prop) (m : M A) (Q : A -> Prop) :
  (forall r, P r -> P' r) -> sat P m Q -> sat P' m Q.
Proof.
  intros HP Hm k. destruct (Hm k) as [Hp Hq]. split; [|exact Hq].
  eapply Forall_impl; eauto.
Qed.

End PrefixSelection.

(** C1, as amended.  Every record the adapter publishes carries a netblocks
    set and, whenever that set is non-empty, a prefix that is one of its
    members; a record published in API mode moreover has a non-empty
    netblocks set. *)
Theorem published_record_invariant (E : Env) (n : NetworksDB) (ctx : Context)
  (req : ASNRequest) (k : nat) :
  map_order_ok E ->
  Forall
    (fun r => prefix_in_netblocks r /\
              (hasAPIKey n = true -> netblocks_nonempty r))
    (published (trace (OnASNRequest E n ctx req k))).
Proof.
  intros Hok.
  cut (sat (fun r => prefix_in_netblocks r /\
                     (hasAPIKey n = true -> netblocks_nonempty r))
         (OnASNRequest E n ctx req) (fun _ => True)).
  { intros H. apply H. }
  unfold OnASNRequest.
  destruct (_ && _); [apply quiet_sat; quiet_tac|].
  destruct (ContextEventBus ctx) as [bus|]; [|apply quiet_sat; quiet_tac].
  apply sat_quiet_bind; [solve [quiet_tac]|intros _].
  destruct (hasAPIKey n) eqn:Hkey.
  - apply sat_weaken with (P := record_invariant).
    { intros r [H1 H2]. now split. }
    destruct (negb _);
      [now apply sat_executeAPIASNAddrQuery|now apply sat_executeAPIASNQuery].
  - apply sat_weaken with (P := prefix_in_netblocks).
    { intros r H. split; [exact H|discriminate]. }
    destruct (negb _);
      [now apply sat_executeASNAddrQuery|now apply sat_executeASNQuery].
Qed.

Lemma published_record_invariant_witness :
  let E :=
    Scenario.api_env GoModel.unreachable "198.51.100.0/24" "EXAMPLE"
      "United States" in
  map_order_ok E /\
  Forall
    (fun r => prefix_in_netblocks r /\
              (hasAPIKey Scenario.api_mode = true -> netblocks_nonempty r))
    (published
       (trace
          (OnASNRequest E Scenario.api_mode Scenario.ctx
             (Scenario.by_address "198.51.100.7") 0%nat))).
Proof.
  intros E.
  assert (H : map_order_ok E) by (intros k s; reflexivity).
  split; [exact H|].
  exact (published_record_invariant E Scenario.api_mode Scenario.ctx
           (Scenario.by_address "198.51.100.7") 0%nat H).
Defined.

(** C1, as stated, fails in scrape mode: asked for AS64500 alone, with a
    page that names the AS and its country but lists no block, the adapter
    publishes a record whose netblocks set is empty. *)
Lemma scrape_publishes_without_netblocks :
  exists r,
    published
      (trace
         (OnASNRequest Scenario.bare_env Scenario.scrape_mode Scenario.ctx
            (Scenario.by_asn 64500) 0%nat)) = [r] /\
    Netblocks r = Some ∅ /\ Prefix r = "" /\ ~ record_invariant r.
Proof.
  eexists. split; [vm_compute; reflexivity|].
  split; [reflexivity|]. split; [reflexivity|].
  intros [_ [s [Hs Hne]]]. simpl in Hs. injection Hs as <-.
  now apply Hne.
Qed.

(** *** The scan over the netblocks *)

Section Scan.

Variable E : Env.

Lemma scan_prefix_found (ip : IP) (order : list string) (p0 c : string) :
  c ∈ order -> block_contains E ip c = true ->
  scan_prefix E ip order p0 ∈ order /\
  block_contains E ip (scan_prefix E ip order p0) = true.
Proof.
  unfold block_contains.
  induction order as [|cidr rest IH]; intros Hc Hb.
  - now apply elem_of_nil in Hc.
  - simpl. destruct (ParseCIDR E cidr) as [err|ipnet] eqn:Hp.
    + apply elem_of_cons in Hc as [->|Hc]; [now rewrite Hp in Hb|].
      destruct (IH Hc Hb) as [H1 H2]. split; [now constructor|exact H2].
    + destruct (Contains E ipnet ip) eqn:Hin.
      * split; [constructor|now rewrite Hp].
      * apply elem_of_cons in Hc as [->|Hc];
          [rewrite Hp in Hb; congruence|].
        destruct (IH Hc Hb) as [H1 H2]. split; [now constructor|exact H2].
Qed.

Lemma scan_prefix_skips (ip : IP) (order : list string) (p0 : string) :
  scan_prefix E ip order p0 =
  scan_prefix E ip (List.filter (well_formed E) order) p0.
Proof.
  induction order as [|cidr rest IH]; [reflexivity|].
  simpl. unfold well_formed at 1.
  destruct (ParseCIDR E cidr) as [err|ipnet] eqn:Hp; simpl.
  - exact IH.
  - rewrite Hp. now rewrite IH.
Qed.

Lemma scan_contains_existsb (ip : IP) (order : list string) :
  scan_contains E ip order = existsb (block_contains E ip) order.
Proof.
  induction order as [|cidr rest IH]; [reflexivity|].
  simpl. unfold block_contains at 1.
  destruct (ParseCIDR E cidr) as [err|ipnet]; simpl; [exact IH|].
  destruct (Contains E ipnet ip); simpl; [reflexivity|exact IH].
Qed.

End Scan.

(** C9.  When the netblocks hold a valid CIDR string whose block contains
    the address, the prefix selection of either variant returns a member
    whose block contains the address; and the scan passes over malformed
    strings as if they were not there. *)
Theorem prefix_selection_contains (E : Env) (netblocks : StringSet)
  (C addr : string) (k : nat) :
  map_order_ok E ->
  well_formed E "" = false ->
  addr <> "" ->
  C ∈ netblocks ->
  well_formed E C = true ->
  block_contains E (ParseIP E addr) C = true ->
  (exists p,
      outcome (scrape_prefix E addr netblocks k) = Done p /\
      p ∈ netblocks /\ block_contains E (ParseIP E addr) p = true) /\
  (exists p,
      outcome (api_prefix E addr netblocks k) = Done p /\
      p ∈ netblocks /\ block_contains E (ParseIP E addr) p = true) /\
  (forall ip order p0,
      scan_prefix E ip order p0 =
      scan_prefix E ip (List.filter (well_formed E) order) p0).
Proof.
  intros Hok Hempty Haddr HC _ Hin.
  assert (Hord : C ∈ map_order E k netblocks)
    by now apply elem_of_map_order.
  destruct (scan_prefix_found E (ParseIP E addr) _ "" C Hord Hin)
    as [Hmem Hblock].
  set (p := scan_prefix E (ParseIP E addr) (map_order E k netblocks) "") in *.
  assert (Hp : String.eqb p "" = false).
  { apply String.eqb_neq. intros Heq. rewrite Heq in Hblock.
    unfold block_contains in Hblock. unfold well_formed in Hempty.
    destruct (ParseCIDR E ""); congruence. }
  apply String.eqb_neq in Haddr.
  apply elem_of_map_order in Hmem; [|exact Hok].
  split; [|split].
  - exists p. split; [|now split].
    unfold scrape_prefix, bind, range, ret. rewrite Haddr. simpl.
    fold p. rewrite Hp. reflexivity.
  - exists p. split; [|now split].
    unfold api_prefix, bind, range, ret. rewrite Haddr. simpl.
    fold p. rewrite Hp. reflexivity.
  - apply scan_prefix_skips.
Qed.

Lemma prefix_selection_contains_witness :
  let E := Scenario.bare_env in
  let netblocks : StringSet :=
    {[ "not a block"; "10.0.0.0/8"; "198.51.100.0/24" ]} in
  map_order_ok E /\
  well_formed E "" = false /\
  "198.51.100.7" <> "" /\
  "198.51.100.0/24" ∈ netblocks /\
  well_formed E "198.51.100.0/24" = true /\
  block_contains E (ParseIP E "198.51.100.7") "198.51.100.0/24" = true /\
  exists p,
    outcome (api_prefix E "198.51.100.7" netblocks 0%nat) = Done p /\
    p ∈ netblocks /\ block_contains E (ParseIP E "198.51.100.7") p = true.
Proof.
  intros E netblocks.
  assert (H1 : map_order_ok E) by (intros k s; reflexivity).
  assert (H2 : well_formed E "" = false) by reflexivity.
  assert (H3 : "198.51.100.7" <> "") by discriminate.
  assert (H4 : "198.51.100.0/24" ∈ netblocks) by (vm_compute; reflexivity).
  assert (H5 : well_formed E "198.51.100.0/24" = true) by reflexivity.
  assert (H6 : block_contains E (ParseIP E "198.51.100.7") "198.51.100.0/24"
               = true) by reflexivity.
  repeat (split; [assumption|]).
  exact (proj1 (proj2
           (prefix_selection_contains E netblocks "198.51.100.0/24"
              "198.51.100.7" 0%nat H1 H2 H3 H4 H5 H6))).
Defined.

(** *** The request handler *)

(** C8.  A request with neither an address nor an ASN is dropped: the
    handler returns without a rate-limit wait, a fetch or a publication. *)
Theorem invalid_request_rejected (E : Env) (n : NetworksDB) (ctx : Context)
  (req : ASNRequest) (k : nat) :
  Address req = "" -> ASN req = 0 ->
  OnASNRequest E n ctx req k = mkRes (Done tt) [] k.
Proof.
  intros Ha Hn. unfold OnASNRequest. rewrite Ha, Hn. reflexivity.
Qed.

Lemma invalid_request_rejected_witness :
  Address (Scenario.by_asn 0) = "" /\
  ASN (Scenario.by_asn 0) = 0 /\
  OnASNRequest Scenario.bare_env Scenario.scrape_mode Scenario.ctx
    (Scenario.by_asn 0) 0%nat = mkRes (Done tt) [] 0%nat.
Proof.
  split; [reflexivity|]. split; [reflexivity|].
  apply invalid_request_rejected; reflexivity.
Defined.

(** C10.  A request with both an address and an ASN is resolved by address,
    in API and in scrape mode, and the ASN it carries plays no part. *)
Theorem address_takes_precedence (E : Env) (n : NetworksDB) (ctx : Context)
  (req : ASNRequest) :
  Address req <> "" -> ASN req <> 0 ->
  OnASNRequest E n ctx req =
    match ContextEventBus ctx with
    | None => ret tt
    | Some _ =>
        CheckRateLimit n >>
        if hasAPIKey n then executeAPIASNAddrQuery E n ctx (Address req)
        else executeASNAddrQuery E n ctx (Address req)
    end /\
  forall asn, OnASNRequest E n ctx (with_ASN req asn) = OnASNRequest E n ctx req.
Proof.
  intros Ha _. apply String.eqb_neq in Ha.
  unfold OnASNRequest. simpl. rewrite Ha. simpl.
  split; [|reflexivity].
  destruct (ContextEventBus ctx); [|reflexivity].
  destruct (hasAPIKey n); reflexivity.
Qed.

Lemma address_takes_precedence_witness :
  let req := with_ASN (Scenario.by_address "198.51.100.7") 64500 in
  Address req <> "" /\
  ASN req <> 0 /\
  OnASNRequest Scenario.bare_env Scenario.api_mode Scenario.ctx req =
    (CheckRateLimit Scenario.api_mode >>
     executeAPIASNAddrQuery Scenario.bare_env Scenario.api_mode Scenario.ctx
       "198.51.100.7") /\
  OnASNRequest Scenario.bare_env Scenario.api_mode Scenario.ctx
    (with_ASN req 64501) =
  OnASNRequest Scenario.bare_env Scenario.api_mode Scenario.ctx req.
Proof.
  intros req.
  assert (H1 : Address req <> "") by discriminate.
  assert (H2 : ASN req <> 0) by discriminate.
  split; [exact H1|]. split; [exact H2|].
  destruct (address_takes_precedence Scenario.bare_env Scenario.api_mode
              Scenario.ctx req H1 H2) as [Hpath Hasn].
  split; [exact Hpath|exact (Hasn 64501)].
Defined.

(** *** The API scenario *)

(** C5.  Resolving 198.51.100.7 in API mode, with organisation org-1,
    candidates 64500 and 64501, the block 198.51.100.0/24 for 64500 and the
    AS information Example Net, US, publishes exactly one record: AS 64500,
    prefix 198.51.100.0/24, description Example Net, US, and the address. *)
Theorem api_scenario_record (other : Request -> string + string)
  (ipcidr asname country : string) (k : nat) :
  let r :=
    OnASNRequest (Scenario.api_env other ipcidr asname country)
      Scenario.api_mode Scenario.ctx (Scenario.by_address "198.51.100.7") k in
  outcome r = Done tt /\
  published (trace r) =
    [ {| Address := "198.51.100.7";
         ASN := 64500;
         Prefix := "198.51.100.0/24";
         CC := "US";
         Description := "Example Net, US";
         Netblocks := Some {[ "198.51.100.0/24" ]};
         Tag := "api";
         Source := "NetworksDB" |} ].
Proof.
  split; vm_compute; reflexivity.
Qed.

(** *** The healing loop *)

Section HealProperties.

Variable W : Heal.Env.

Lemma for_each_emit {A} (xs : list A) (f : A -> Heal.Event) (k : nat) :
  Heal.for_each xs (fun x => Heal.emit (f x)) k =
  Heal.mkRes true (map f xs) k.
Proof.
  induction xs as [|x rest IH]; [reflexivity|].
  simpl. unfold Heal.seq. simpl. now rewrite IH.
Qed.

(** As long as the lookups find nothing, the loop sleeps. *)
Lemma wait_stalls (addr : string) (fuel k : nat) :
  (forall j, (k <= j <= k + fuel)%nat -> Heal.AddrSearch W j addr = None) ->
  Heal.wait W fuel addr k =
  Heal.mkRes false (repeat (Heal.EvSleep Heal.Second) fuel) (S (k + fuel)).
Proof.
  revert k. induction fuel as [|fuel IH]; intros k Hnone; simpl.
  - rewrite Hnone by lia. now rewrite Nat.add_0_r.
  - rewrite Hnone by lia. rewrite IH.
    + simpl. f_equal. lia.
    + intros j Hj. apply Hnone. lia.
Qed.

(** The loop is left only by a lookup that finds an entry. *)
Lemma wait_exit (addr : string) (fuel k : nat) :
  Heal.proceeded (Heal.wait W fuel addr k) = true ->
  exists j, (k <= j <= k + fuel)%nat /\ Heal.AddrSearch W j addr <> None.
Proof.
  revert k. induction fuel as [|fuel IH]; intros k; simpl.
  - destruct (Heal.AddrSearch W k addr) eqn:Hk; simpl; [|discriminate].
    intros _. exists k. split; [lia|congruence].
  - destruct (Heal.AddrSearch W k addr) eqn:Hk; simpl.
    + intros _. exists k. split; [lia|congruence].
    + intros H. destruct (IH _ H) as (j & Hj & Hfound).
      exists j. split; [lia|exact Hfound].
Qed.

(** Once an entry shows up after [d] sleeps, the loop is left. *)
Lemma wait_resumes (addr : string) (fuel d k : nat) :
  (d <= fuel)%nat ->
  (forall j, (k <= j < k + d)%nat -> Heal.AddrSearch W j addr = None) ->
  Heal.AddrSearch W (k + d) addr <> None ->
  Heal.wait W fuel addr k =
  Heal.mkRes true (repeat (Heal.EvSleep Heal.Second) d) (S (k + d)).
Proof.
  revert fuel k. induction d as [|d IH]; intros fuel k Hle Hnone Hsome.
  - rewrite Nat.add_0_r in *.
    destruct fuel; simpl; destruct (Heal.AddrSearch W k addr); congruence.
  - destruct fuel as [|fuel]; [lia|]. simpl.
    rewrite Hnone by lia. rewrite (IH fuel (S k)).
    + simpl. f_equal. lia.
    + lia.
    + intros j Hj. apply Hnone. lia.
    + now replace (S k + d)%nat with (k + S d)%nat by lia.
Qed.

End HealProperties.

(** C6.  An address the cache already answers for is not dispatched: its
    cached fact is inserted, no data source is asked and the loop does not
    sleep, whatever the bound on waiting. *)
Theorem cached_address_inserted (W : Heal.Env) (fuel : nat)
  (uuid addr : string) (k : nat) (r : ASNRequest) :
  Heal.AddrSearch W k addr = Some r ->
  Heal.heal_address W fuel uuid addr k =
  Heal.mkRes true
    [Heal.EvInsertInfrastructure (ASN r) (Description r) (Address r)
       (Prefix r) (Source r) (Tag r) uuid]
    (S k).
Proof.
  intros Hr. unfold Heal.heal_address. rewrite Hr. reflexivity.
Qed.

Lemma cached_address_inserted_witness :
  Heal.AddrSearch (Scenario.heal_env Scenario.seeded) 0%nat "198.51.100.7" =
    Some Scenario.example_record /\
  Heal.healASInfo (Scenario.heal_env Scenario.seeded) 0%nat ["event-1"] 0%nat =
  Heal.mkRes true
    [Heal.EvInsertInfrastructure 64500 "Example Net, US" "198.51.100.7"
       "198.51.100.0/24" "NetworksDB" "api" "event-1"]
    1%nat.
Proof.
  split; [reflexivity|].
  unfold Heal.healASInfo. simpl. unfold Heal.seq.
  rewrite (cached_address_inserted (Scenario.heal_env Scenario.seeded) 0%nat
             "event-1" "198.51.100.7" 0%nat Scenario.example_record eq_refl).
  reflexivity.
Defined.

(** C7.  The wait on the cache is unbounded: after the request has been
    handed to every data source, the loop sleeps one second per failed
    lookup and, however long it is followed, it has not been left while
    the lookups find no entry; nothing is inserted. *)
Theorem wait_unbounded (W : Heal.Env) (fuel : nat) (uuid addr : string)
  (k : nat) :
  (forall j, (k <= j <= S k + fuel)%nat -> Heal.AddrSearch W j addr = None) ->
  Heal.heal_address W fuel uuid addr k =
  Heal.mkRes false
    (Heal.dispatches W addr ++ repeat (Heal.EvSleep Heal.Second) fuel)
    (S (S k + fuel)).
Proof.
  intros Hnone. unfold Heal.heal_address.
  rewrite Hnone by lia. unfold Heal.seq at 1.
  rewrite for_each_emit. simpl. unfold Heal.seq.
  rewrite wait_stalls.
  - reflexivity.
  - intros j Hj. apply Hnone. lia.
Qed.

Lemma wait_unbounded_witness :
  (forall j, (0 <= j <= 1 + 3)%nat ->
     Heal.AddrSearch (Scenario.heal_env Scenario.never) j "198.51.100.7" = None) /\
  Heal.heal_address (Scenario.heal_env Scenario.never) 3%nat "event-1"
    "198.51.100.7" 0%nat =
  Heal.mkRes false
    [Heal.EvASNRequest "NetworksDB" (Heal.request_for "198.51.100.7");
     Heal.EvASNRequest "RADb" (Heal.request_for "198.51.100.7");
     Heal.EvSleep 1000000000; Heal.EvSleep 1000000000;
     Heal.EvSleep 1000000000]
    5%nat.
Proof.
  split; [intros j _; reflexivity|].
  apply (wait_unbounded (Scenario.heal_env Scenario.never) 3%nat "event-1"
           "198.51.100.7" 0%nat).
  intros j _. reflexivity.
Defined.

(** *** Candidate selection in API mode *)

Lemma bind_run {A B} (m : M A) (f : A -> M B) (k k' : nat) (a : A)
  (tr : list Event) :
  m k = mkRes (Done a) tr k' ->
  bind m f k =
  mkRes (outcome (f a k')) (tr ++ trace (f a k')) (iters (f a k')).
Proof. intros H. unfold bind. now rewrite H. Qed.

Section Candidates.

Variable E : Env.
Variable n : NetworksDB.
Variable ctx : Context.
Variable bus : EventBus.
Variable key : APIKey.

Hypothesis order_ok : map_order_ok E.
Hypothesis has_bus : ContextEventBus ctx = Some bus.
Hypothesis api_mode : hasAPIKey n = true.
Hypothesis credential : APIfield n = Some key.

Lemma scan_contains_hit (ip : IP) (k : nat) (s : StringSet) :
  scan_contains E ip (map_order E k s) = hit E ip s.
Proof.
  rewrite scan_contains_existsb. unfold hit.
  apply eq_true_iff_eq. rewrite !existsb_exists.
  split; intros (x & Hx & Hb); exists x; (split; [|exact Hb]);
    apply list_elem_of_In; apply list_elem_of_In in Hx.
  - now rewrite <- (order_ok k s).
  - now rewrite (order_ok k s).
Qed.

(** One call to the netblocks endpoint: it returns, having made exactly one
    fetch and published no record. *)
Lemma apiNetblocksQuery_run (a : Z) (k : nat) :
  exists tr,
    apiNetblocksQuery E n ctx a k = mkRes (Done (netblocks_of E n ctx a)) tr k /\
    fetched tr = [netblocks_request key a] /\
    published tr = [].
Proof.
  unfold netblocks_of, apiNetblocksQuery, getHeaders, netblocks_request.
  rewrite has_bus, api_mode, credential.
  unfold bind, http, CheckRateLimit, setActive, log, Publish, emit, ret.
  simpl.
  destruct (RequestWebPage E _) as [err|page]; simpl;
    [eexists; repeat split; reflexivity|].
  destruct (UnmarshalNetblocks E page) as [err|m]; simpl;
    [eexists; repeat split; reflexivity|].
  destruct (negb (String.eqb (Error m) "")); simpl;
    [eexists; repeat split; reflexivity|].
  destruct ((Total m =? 0) || (length (Results m) =? 0)%nat); simpl;
    eexists; repeat split; reflexivity.
Qed.

Lemma selection_find (ip : IP) (asns : list Z) (asn : Z) (cidrs : StringSet) :
  match List.find (fun a => hit E ip (netblocks_of E n ctx a)) asns with
  | Some a => selection E n ctx ip asns asn cidrs = (a, netblocks_of E n ctx a)
  | None => fst (selection E n ctx ip asns asn cidrs) = asn
  end.
Proof.
  revert cidrs. induction asns as [|a rest IH]; intros cidrs; simpl.
  - reflexivity.
  - destruct (hit E ip (netblocks_of E n ctx a)); [reflexivity|apply IH].
Qed.

Lemma candidates_loop_run (ip : IP) (asns : list Z) (asn : Z)
  (cidrs : StringSet) (k : nat) :
  exists tr k',
    candidates_loop E n ctx bus ip asns asn cidrs k =
      mkRes (Done (selection E n ctx ip asns asn cidrs)) tr k' /\
    fetched tr =
      map (netblocks_request key)
        (upto_first (fun a => hit E ip (netblocks_of E n ctx a)) asns) /\
    published tr = [].
Proof.
  revert asn cidrs k.
  induction asns as [|a rest IH]; intros asn cidrs k.
  - exists [], k. repeat split.
  - destruct (apiNetblocksQuery_run a k) as (tr1 & Hrun & Hf1 & Hp1).
    cbn [candidates_loop selection upto_first].
    rewrite (bind_run (CheckRateLimit n) _ k k tt [EvCheckRateLimit] eq_refl).
    rewrite (bind_run _ _ k k _ tr1 Hrun).
    set (s := netblocks_of E n ctx a) in *.
    assert (Hlog : exists tr2,
               (if (len s =? 0)%nat
                then log n bus
                       (Itoa a +:+
                        ": Failed to obtain netblocks associated with the ASN")
                else ret tt) k = mkRes (Done tt) tr2 k /\
               fetched tr2 = [] /\ published tr2 = []).
    { destruct (len s =? 0)%nat; eexists; repeat split; reflexivity. }
    destruct Hlog as (tr2 & Hlog & Hf2 & Hp2).
    rewrite (bind_run _ _ k k tt tr2 Hlog).
    rewrite (bind_run (range E s) _ k (S k) (map_order E k s) [] eq_refl).
    rewrite scan_contains_hit.
    destruct (hit E ip s).
    + exists ([EvCheckRateLimit] ++ tr1 ++ tr2 ++ [] ++ []), (S k).
      cbn [ret outcome trace iters]. split; [reflexivity|].
      rewrite !fetched_app, !published_app, Hf1, Hf2, Hp1, Hp2.
      split; reflexivity.
    + destruct (IH asn s (S k)) as (tr3 & k' & Hrest & Hf3 & Hp3).
      rewrite Hrest.
      exists ([EvCheckRateLimit] ++ tr1 ++ tr2 ++ [] ++ tr3), k'.
      cbn [outcome trace iters]. split; [reflexivity|].
      rewrite !fetched_app, !published_app, Hf1, Hf2, Hf3, Hp1, Hp2, Hp3.
      split; reflexivity.
Qed.

Lemma upto_first_none {A} (f : A -> bool) (l : list A) :
  List.find f l = None -> upto_first f l = l.
Proof.
  induction l as [|x rest IH]; [reflexivity|]. simpl.
  destruct (f x); [discriminate|]. intros H. now rewrite IH.
Qed.

End Candidates.

(** C4.  In API mode the candidates are tried in list order, one netblocks
    call each, up to the first whose netblocks contain the address; that
    candidate and its netblocks are what the attempt goes on with.  When no
    candidate's netblocks contain the address, every candidate has been
    asked, the attempt ends on the diagnostic message and no record is
    published. *)
Theorem first_matching_candidate_selected (E : Env) (n : NetworksDB)
  (ctx : Context) (bus : EventBus) (key : APIKey) (addr : string)
  (asns : list Z) (k : nat) :
  map_order_ok E ->
  ContextEventBus ctx = Some bus ->
  hasAPIKey n = true ->
  APIfield n = Some key ->
  asns <> [] ->
  let ip := ParseIP E addr in
  let matches := fun a => hit E ip (netblocks_of E n ctx a) in
  let loop := candidates_loop E n ctx bus ip asns 0 New k in
  let r := resolve_candidates E n ctx bus addr asns k in
  fetched (trace loop) =
    map (netblocks_request key) (upto_first matches asns) /\
  match List.find matches asns with
  | Some a =>
      outcome loop = Done (a, netblocks_of E n ctx a) /\
      (a <> 0 ->
       let r' :=
         executeAPIASNQuery E n ctx a addr (Some (netblocks_of E n ctx a))
           (iters loop) in
       r = mkRes (outcome r') (trace loop ++ trace r') (iters r'))
  | None =>
      outcome r = Done tt /\
      published (trace r) = [] /\
      last (logged (trace r)) =
        Some (name n +:+ ": " +:+ addr +:+
              ": Failed to obtain the ASN associated with the IP address") /\
      fetched (trace r) = map (netblocks_request key) asns
  end.
Proof.
  intros Hok Hbus Hmode Hcred _ ip matches. cbv zeta.
  destruct (candidates_loop_run E n ctx bus key Hok Hbus Hmode Hcred
              ip asns 0 New k) as (tr & k' & Hrun & Hf & Hp).
  fold matches in Hf.
  pose proof (selection_find E n ctx ip asns 0 New) as Hsel.
  fold matches in Hsel.
  unfold resolve_candidates, bind. fold ip. rewrite !Hrun.
  cbn [outcome trace iters].
  split; [exact Hf|].
  destruct (List.find matches asns) as [a|] eqn:Hfind.
  - rewrite Hsel. split; [reflexivity|]. intros Ha.
    apply Z.eqb_neq in Ha. now rewrite Ha.
  - destruct (selection E n ctx ip asns 0 New) as [asn cidrs].
    simpl in Hsel. subst asn. simpl.
    rewrite published_app, logged_app, fetched_app, Hp, Hf. simpl.
    rewrite app_nil_r, (upto_first_none _ _ Hfind).
    repeat split. apply last_snoc.
Qed.

Lemma first_matching_candidate_selected_witness :
  let E :=
    Scenario.api_env GoModel.unreachable "198.51.100.0/24" "EXAMPLE"
      "United States" in
  let n := Scenario.api_mode in
  let key := {| Key := "secret" |} in
  let loop :=
    candidates_loop E n Scenario.ctx TheEventBus (ParseIP E "198.51.100.7")
      [64500; 64501] 0 New 0%nat in
  map_order_ok E /\
  ContextEventBus Scenario.ctx = Some TheEventBus /\
  hasAPIKey n = true /\
  APIfield n = Some key /\
  [64500; 64501] <> [] /\
  fetched (trace loop) = [netblocks_request key 64500] /\
  outcome loop = Done (64500, {[ "198.51.100.0/24" ]}).
Proof.
  intros E n key loop.
  assert (H1 : map_order_ok E) by (intros k s; reflexivity).
  assert (H2 : ContextEventBus Scenario.ctx = Some TheEventBus) by reflexivity.
  assert (H3 : hasAPIKey n = true) by reflexivity.
  assert (H4 : APIfield n = Some key) by reflexivity.
  assert (H5 : [64500; 64501] <> []) by discriminate.
  repeat (split; [assumption|]).
  pose proof (first_matching_candidate_selected E n Scenario.ctx TheEventBus
                key "198.51.100.7" [64500; 64501] 0%nat H1 H2 H3 H4 H5) as H.
  cbv zeta in H. destruct H as [Hf Hm].
  assert (Hfind :
            List.find
              (fun a => hit E (ParseIP E "198.51.100.7")
                          (netblocks_of E n Scenario.ctx a))
              [64500; 64501] = Some 64500) by (vm_compute; reflexivity).
  rewrite Hfind in Hm. destruct Hm as [Ho _].
  unfold loop. split.
  - rewrite Hf. vm_compute. reflexivity.
  - rewrite Ho. vm_compute. reflexivity.
Defined.

(** With an address none of the candidates' netblocks contain, both
    candidates are asked and the attempt ends without a record. *)
Example no_candidate_matches :
  let E :=
    Scenario.api_env GoModel.unreachable "198.51.100.0/24" "EXAMPLE"
      "United States" in
  let r :=
    resolve_candidates E Scenario.api_mode Scenario.ctx TheEventBus
      "203.0.113.9" [64500; 64501] 0%nat in
  outcome r = Done tt /\
  published (trace r) = [] /\
  fetched (trace r) =
    map (netblocks_request {| Key := "secret" |}) [64500; 64501] /\
  last (logged (trace r)) =
    Some "NetworksDB: 203.0.113.9: Failed to obtain the ASN associated with the IP address".
Proof. repeat split; vm_compute; reflexivity. Qed.

(** *** How attempts end *)

Lemma quiet_scrape_prefix E addr netblocks :
  quiet (scrape_prefix E addr netblocks).
Proof. unfold scrape_prefix, Slice. quiet_tac. Qed.

Lemma quiet_api_prefix E addr netblocks : quiet (api_prefix E addr netblocks).
Proof. unfold api_prefix, Slice. quiet_tac. Qed.

#[export] Hint Resolve quiet_scrape_prefix quiet_api_prefix
  quiet_candidates_loop : quiet.

Lemma concludes_log n bus msg : concludes (log n bus msg).
Proof.
  intros k. simpl. left. split; [reflexivity|].
  now exists [], (name n +:+ ": " +:+ msg).
Qed.

Lemma concludes_publish bus r :
  concludes (Publish bus NewASNTopic PriorityHigh (PASN r)).
Proof. intros k. simpl. right. now exists [], r. Qed.

Lemma concludes_bind {A} (m : M A) (f : A -> M unit) :
  quiet m -> (forall a, concludes (f a)) -> concludes (bind m f).
Proof.
  intros Hm Hf k. unfold bind.
  destruct (outcome (m k)) as [a|msg] eqn:Ho; simpl; [|apply Hm].
  specialize (Hf a (iters (m k))). specialize (Hm k).
  destruct (outcome (f a (iters (m k)))).
  - destruct Hf as [[Hp (tr' & msg & Ht)]|(tr' & r & Ht & Hp)].
    + left. split; [now rewrite published_app, Hm, Hp|].
      exists (trace (m k) ++ tr'), msg. now rewrite Ht, app_assoc.
    + right. exists (trace (m k) ++ tr'), r.
      split; [now rewrite Ht, app_assoc|].
      now rewrite published_app, Hm, Hp.
  - now rewrite published_app, Hm, Hf.
Qed.

Ltac concludes_step :=
  first
    [ apply concludes_log
    | apply concludes_publish
    | apply concludes_bind; [solve [quiet_tac]|intros]
    | match goal with
      | |- concludes (match ?x with _ => _ end) => destruct x
      end ].

Ltac concludes_tac := repeat concludes_step.

Section Attempts.

Variable E : Env.
Variable n : NetworksDB.
Variable ctx : Context.
Variable bus : EventBus.
Hypothesis has_bus : ContextEventBus ctx = Some bus.

Lemma concludes_executeASNQuery asn addr netblocks :
  concludes (executeASNQuery E n ctx asn addr netblocks).
Proof. unfold executeASNQuery. rewrite has_bus. concludes_tac. Qed.

Lemma concludes_executeASNAddrQuery addr :
  concludes (executeASNAddrQuery E n ctx addr).
Proof.
  unfold executeASNAddrQuery. rewrite has_bus. concludes_tac.
  apply concludes_executeASNQuery.
Qed.

Lemma concludes_executeAPIASNQuery asn addr netblocks :
  concludes (executeAPIASNQuery E n ctx asn addr netblocks).
Proof.
  unfold executeAPIASNQuery, publishAPIASN. rewrite has_bus. concludes_tac.
Qed.

Lemma concludes_resolve_candidates addr asns :
  concludes (resolve_candidates E n ctx bus addr asns).
Proof.
  unfold resolve_candidates.
  apply concludes_bind; [auto with quiet|intros [asn cidrs]].
  destruct (asn =? 0); [apply concludes_log|].
  apply concludes_executeAPIASNQuery.
Qed.

Lemma concludes_executeAPIASNAddrQuery addr :
  concludes (executeAPIASNAddrQuery E n ctx addr).
Proof.
  unfold executeAPIASNAddrQuery. rewrite has_bus.
  apply concludes_bind; [auto with quiet|intros [c id]].
  concludes_tac. apply concludes_executeAPIASNQuery.
Qed.

(** Every attempt that returns ended on a diagnostic message with no record
    published, or on the single record it published; an attempt that
    crashes has published none. *)
Lemma attempts_conclude (req : ASNRequest) :
  Address req <> "" \/ ASN req <> 0 ->
  concludes (OnASNRequest E n ctx req).
Proof.
  intros Hreq. unfold OnASNRequest. rewrite has_bus.
  assert (Hvalid : String.eqb (Address req) "" && (ASN req =? 0) = false).
  { apply andb_false_iff. destruct Hreq as [H|H].
    - left. now apply String.eqb_neq.
    - right. now apply Z.eqb_neq. }
  rewrite Hvalid.
  apply concludes_bind; [auto with quiet|intros _].
  destruct (hasAPIKey n), (negb _);
    auto using concludes_executeAPIASNAddrQuery, concludes_executeAPIASNQuery,
      concludes_executeASNAddrQuery, concludes_executeASNQuery.
Qed.

End Attempts.

(** *** Responses without results *)

Section SoftFailures.

Variable E : Env.
Variable n : NetworksDB.
Variable ctx : Context.
Variable bus : EventBus.
Variable key : APIKey.
Hypothesis has_bus : ContextEventBus ctx = Some bus.
Hypothesis api_mode : hasAPIKey n = true.
Hypothesis credential : APIfield n = Some key.

Ltac run_query :=
  unfold getHeaders; rewrite ?has_bus, ?api_mode, ?credential;
  unfold bind, http, CheckRateLimit, setActive, log, Publish, emit, ret;
  simpl.

(** The three helpers that test [len(m.Results) == 0] return on every
    response. *)
Lemma apiIPQuery_returns addr k :
  exists v, outcome (apiIPQuery E n ctx addr k) = Done v.
Proof.
  unfold apiIPQuery. run_query.
  destruct (RequestWebPage E _) as [err|page]; simpl; [eauto|].
  destruct (UnmarshalIP E page) as [err|m]; simpl; [eauto|].
  destruct (negb (String.eqb (Error m) "")); simpl; [eauto|].
  destruct (Results m) as [|r0 rest]; simpl.
  - rewrite orb_true_r. simpl. eauto.
  - destruct (_ || _); simpl; eauto.
Qed.

Lemma apiASNInfoQuery_returns asn k :
  exists v, outcome (apiASNInfoQuery E n ctx asn k) = Done v.
Proof.
  unfold apiASNInfoQuery. run_query.
  destruct (RequestWebPage E _) as [err|page]; simpl; [eauto|].
  destruct (UnmarshalAS E page) as [err|m]; simpl; [eauto|].
  destruct (negb (String.eqb (Error m) "")); simpl; [eauto|].
  destruct (Results m) as [|r0 rest]; simpl.
  - rewrite orb_true_r. simpl. eauto.
  - destruct (_ || _); simpl; eauto.
Qed.

Lemma apiNetblocksQuery_returns asn k :
  exists v, outcome (apiNetblocksQuery E n ctx asn k) = Done v.
Proof.
  destruct (apiNetblocksQuery_run E n ctx bus key has_bus api_mode credential
              asn k) as (tr & Hrun & _).
  rewrite Hrun. simpl. eauto.
Qed.

(** A body without results is answered with the failure value and one
    diagnostic message, as in [apiIPQuery]. *)
Lemma apiIPQuery_no_results addr k page m :
  RequestWebPage E
    (mkRequest getAPIIPURL (Some ("ip", addr))
       (Some [("X-Api-Key", Key key);
              ("Content-Type", "application/x-www-form-urlencoded")])) =
    inr page ->
  UnmarshalIP E page = inr m ->
  Error m = "" ->
  Results m = [] ->
  outcome (apiIPQuery E n ctx addr k) = Done ("", "") /\
  logged (trace (apiIPQuery E n ctx addr k)) =
    [name n +:+ ": " +:+ getAPIIPURL +:+ zero_results].
Proof.
  intros Hpage Hm Herr Hres. unfold apiIPQuery. run_query.
  rewrite Hpage. simpl. rewrite Hm. simpl. rewrite Herr, Hres. simpl.
  rewrite orb_true_r. simpl. split; reflexivity.
Qed.

(** [apiOrgInfoQuery] indexes the results before looking at their number:
    a body with a non-zero total and no result makes it fault. *)
Lemma apiOrgInfoQuery_no_results id k page m :
  RequestWebPage E
    (mkRequest getAPIOrgInfoURL (Some ("id", id))
       (Some [("X-Api-Key", Key key);
              ("Content-Type", "application/x-www-form-urlencoded")])) =
    inr page ->
  UnmarshalOrg E page = inr m ->
  Error m = "" ->
  Total m <> 0 ->
  Results m = [] ->
  outcome (apiOrgInfoQuery E n ctx id k) = Panicked "runtime error: index out of range [0] with length 0" /\
  logged (trace (apiOrgInfoQuery E n ctx id k)) = [].
Proof.
  intros Hpage Hm Herr Htot Hres. unfold apiOrgInfoQuery. run_query.
  rewrite Hpage. simpl. rewrite Hm. simpl. rewrite Herr, Hres. simpl.
  apply Z.eqb_neq in Htot. rewrite Htot. simpl. split; reflexivity.
Qed.

End SoftFailures.

(** C2 does not hold of [apiOrgInfoQuery]: on a body that decodes to a
    total of one and an empty results array it faults on the index, and
    publishes no diagnostic message. *)
Theorem apiOrgInfoQuery_faults_on_empty_results (k : nat) :
  let r :=
    apiOrgInfoQuery Scenario.empty_org_env Scenario.api_mode Scenario.ctx
      "org-1" k in
  UnmarshalOrg Scenario.empty_org_env "org-info" =
    inr {| Error := ""; Total := 1; Results := [] |} /\
  outcome r = Panicked "runtime error: index out of range [0] with length 0" /\
  logged (trace r) = [].
Proof. repeat split. Qed.

(** C3 does not hold of the attempt that meets this body: resolving
    198.51.100.7 in API mode, the handler crashes inside the
    organisation-info query; it has published neither a diagnostic message
    nor a record. *)
Theorem attempt_crashes_without_log (k : nat) :
  let r :=
    OnASNRequest Scenario.empty_org_env Scenario.api_mode Scenario.ctx
      (Scenario.by_address "198.51.100.7") k in
  outcome r = Panicked "runtime error: index out of range [0] with length 0" /\
  logged (trace r) = [] /\
  published (trace r) = [].
Proof. repeat split. Qed.

(** The entry appears at the sixth lookup: the loop has slept four times,
    and the fact found then is inserted. *)
Example late_entry_resumes :
  Heal.healASInfo (Scenario.heal_env Scenario.late) 10%nat ["event-1"] 0%nat =
  Heal.mkRes true
    (Heal.dispatches (Scenario.heal_env Scenario.late) "198.51.100.7" ++
     repeat (Heal.EvSleep Heal.Second) 4 ++
     [Heal.EvInsertInfrastructure 64500 "Example Net, US" "198.51.100.7"
        "198.51.100.0/24" "NetworksDB" "api" "event-1"])
    7%nat.
Proof. reflexivity. Qed.

(** *** What goes out on the bus and on the wire *)

Lemma HasPrefix_app (p s : string) : HasPrefix (p +:+ s) p = true.
Proof.
  induction p as [|c p IH]; [reflexivity|].
  simpl. now rewrite Ascii.eqb_refl, IH.
Qed.

Lemma HasPrefix_app_l (p q s : string) :
  HasPrefix s (p +:+ q) = true -> HasPrefix s p = true.
Proof.
  revert s. induction p as [|c p IH]; intros s; [reflexivity|].
  simpl. destruct s as [|d s]; [discriminate|].
  intros H. apply andb_prop in H as [H1 H2].
  rewrite H1. simpl. now apply IH.
Qed.

Lemma HasPrefix_app2 (a b c : string) :
  HasPrefix (a +:+ b +:+ c) (a +:+ b) = true.
Proof.
  induction a as [|x a IH].
  - exact (HasPrefix_app b c).
  - change (Ascii.eqb x x && HasPrefix (a +:+ b +:+ c) (a +:+ b) = true).
    now rewrite Ascii.eqb_refl, IH.
Qed.

Section AlwaysRules.

Context {A B : Type}.
Variable P : Event -> Prop.

Lemma always_ret (a : A) : always P (ret a).
Proof. intros k. constructor. Qed.

Lemma always_panic (msg : string) : always P (@panic A msg).
Proof. intros k. constructor. Qed.

Lemma always_bind (m : M A) (f : A -> M B) :
  always P m -> (forall a, always P (f a)) -> always P (bind m f).
Proof.
  intros Hm Hf k. unfold bind.
  destruct (outcome (m k)) as [a|msg]; simpl; [|apply Hm].
  apply Forall_app. split; [apply Hm|apply Hf].
Qed.

Lemma always_bind_ret (a : A) (f : A -> M B) :
  always P (f a) -> always P (bind (ret a) f).
Proof. intros Hf k. unfold bind, ret. simpl. apply Hf. Qed.

End AlwaysRules.

Lemma always_emit (P : Event -> Prop) (e : Event) : P e -> always P (emit e).
Proof. intros He k. simpl. now repeat constructor. Qed.

Lemma always_index {A} (P : Event -> Prop) (i : nat) (xs : list A) :
  always P (index i xs).
Proof. unfold index. destruct (xs !! i); intros k; constructor. Qed.

Lemma always_range (P : Event -> Prop) (E : Env) (s : StringSet) :
  always P (range E s).
Proof. intros k. constructor. Qed.

(** Splits a computation along its binds and case distinctions, leaving
    the conditions on the events it emits. *)
Ltac always_step :=
  match goal with
  | |- always _ (ret _) => apply always_ret
  | |- always _ (panic _) => apply always_panic
  | |- always _ (index _ _) => apply always_index
  | |- always _ (range _ _) => apply always_range
  | |- always _ (bind (ret _) _) => apply always_bind_ret
  | |- always _ (bind _ _) => apply always_bind; [|intros]
  | |- always _ (match ?x with _ => _ end) => destruct x
  end.

Ltac always_tac := repeat always_step.

Ltac emits :=
  unfold log, setActive, CheckRateLimit, http, Publish;
  first [ apply always_emit | intros ?; simpl; repeat constructor ];
  try hnf; auto using HasPrefix_app, HasPrefix_app2.

Section BusDiscipline.

Variable E : Env.
Variable n : NetworksDB.
Variable ctx : Context.

Let P := bus_discipline n.

Lemma discipline_log bus msg : always P (log n bus msg).
Proof. emits. Qed.

Lemma discipline_setActive bus : always P (setActive n bus).
Proof. emits. Qed.

Lemma discipline_CheckRateLimit : always P (CheckRateLimit n).
Proof. emits. Qed.

Lemma discipline_http r : always P (http E r).
Proof. emits. Qed.

Lemma discipline_getHeaders : always P (getHeaders n).
Proof. unfold getHeaders. always_tac. Qed.

Hint Resolve discipline_log discipline_setActive discipline_CheckRateLimit
  discipline_http discipline_getHeaders : core.

Ltac discipline :=
  repeat first [ solve [auto] | always_step ].

Lemma discipline_apiIPQuery addr : always P (apiIPQuery E n ctx addr).
Proof. unfold apiIPQuery. discipline. Qed.

Lemma discipline_apiOrgInfoQuery id : always P (apiOrgInfoQuery E n ctx id).
Proof. unfold apiOrgInfoQuery. discipline. Qed.

Lemma discipline_apiNetblocksQuery asn :
  always P (apiNetblocksQuery E n ctx asn).
Proof. unfold apiNetblocksQuery. discipline. Qed.

Lemma discipline_apiASNInfoQuery asn :
  always P (apiASNInfoQuery E n ctx asn) /\
  forall k r,
    outcome (apiASNInfoQuery E n ctx asn k) = Done (Some r) ->
    Tag r = Type_ n /\ Source r = name n.
Proof.
  split; [unfold apiASNInfoQuery; discipline|].
  intros k r. unfold apiASNInfoQuery.
  destruct (ContextEventBus ctx) as [bus|]; [|discriminate].
  unfold bind, CheckRateLimit, setActive, Publish, emit, http, log, ret.
  simpl. destruct (outcome (getHeaders n k)); simpl; [|discriminate].
  destruct (RequestWebPage E _); simpl; [discriminate|].
  destruct (UnmarshalAS E _) as [err|m]; simpl; [discriminate|].
  destruct (negb _); simpl; [discriminate|].
  destruct (_ || _); simpl; [discriminate|].
  unfold index. destruct (Results m !! 0%nat); simpl; [|discriminate].
  intros [= <-]. now split.
Qed.

Hint Resolve discipline_apiIPQuery discipline_apiOrgInfoQuery
  discipline_apiNetblocksQuery : core.

Lemma discipline_executeASNQuery asn addr netblocks :
  always P (executeASNQuery E n ctx asn addr netblocks).
Proof.
  unfold executeASNQuery, scrape_prefix, Slice. discipline.
  emits.
Qed.

Lemma discipline_executeASNAddrQuery addr :
  always P (executeASNAddrQuery E n ctx addr).
Proof.
  unfold executeASNAddrQuery. discipline.
  apply discipline_executeASNQuery.
Qed.

Lemma discipline_executeAPIASNQuery asn addr netblocks :
  always P (executeAPIASNQuery E n ctx asn addr netblocks).
Proof.
  assert (Hpub : forall bus prefix nb,
             always P
               (let* req := apiASNInfoQuery E n ctx asn in
                match req with
                | None =>
                    log n bus
                      (Itoa asn +:+ ": Failed to obtain ASN information")
                | Some req =>
                    Publish bus NewASNTopic PriorityHigh
                      (PASN
                         {| Address :=
                              if negb (String.eqb addr "") then addr
                              else Address req;
                            ASN := ASN req;
                            Prefix := prefix;
                            CC := CC req;
                            Description := Description req;
                            Netblocks := Some nb;
                            Tag := Tag req;
                            Source := Source req |})
                end)).
  { intros bus prefix nb k.
    destruct (discipline_apiASNInfoQuery asn) as [Hev Hval].
    unfold bind.
    destruct (outcome (apiASNInfoQuery E n ctx asn k)) as [[r|]|msg] eqn:Ho;
      cbn [trace]; try apply Hev.
    - apply Forall_app. split; [apply Hev|].
      apply always_emit. exact (Hval k r Ho).
    - apply Forall_app. split; [apply Hev|]. apply discipline_log. }
  unfold executeAPIASNQuery, publishAPIASN, api_prefix, Slice.
  destruct (ContextEventBus ctx) as [bus|]; [|apply always_ret].
  destruct (len _ =? 0)%nat.
  - apply always_bind; [auto|intros found].
    destruct (len _ =? 0)%nat; [auto|].
    discipline; apply Hpub.
  - discipline; apply Hpub.
Qed.

Lemma discipline_candidates_loop bus ip asns asn cidrs :
  always P (candidates_loop E n ctx bus ip asns asn cidrs).
Proof.
  revert asn cidrs. induction asns as [|a rest IH]; intros asn cidrs;
    simpl; [apply always_ret|].
  discipline.
Qed.

Lemma discipline_executeAPIASNAddrQuery addr :
  always P (executeAPIASNAddrQuery E n ctx addr).
Proof.
  unfold executeAPIASNAddrQuery, resolve_candidates.
  destruct (ContextEventBus ctx) as [bus|]; [|apply always_ret].
  apply always_bind; [auto|intros [c id]].
  destruct (String.eqb id ""); [auto|].
  discipline.
  - apply discipline_candidates_loop.
  - apply discipline_executeAPIASNQuery.
Qed.

End BusDiscipline.

(** X1.  Whatever the remote side answers, the handler publishes only
    diagnostic messages that start with the service name, the service name
    as the liveness signal, and records tagged with the type and the name
    of the service, each at the priority of its topic. *)
Theorem bus_discipline_kept (E : Env) (n : NetworksDB) (ctx : Context)
  (req : ASNRequest) (k : nat) :
  Forall (bus_discipline n) (trace (OnASNRequest E n ctx req k)).
Proof.
  cut (always (bus_discipline n) (OnASNRequest E n ctx req));
    [intros H; apply H|].
  unfold OnASNRequest.
  destruct (_ && _); [apply always_ret|].
  destruct (ContextEventBus ctx) as [bus|]; [|apply always_ret].
  apply always_bind; [apply discipline_CheckRateLimit|intros _].
  destruct (hasAPIKey n), (negb _);
    auto using discipline_executeAPIASNAddrQuery,
      discipline_executeAPIASNQuery, discipline_executeASNAddrQuery,
      discipline_executeASNQuery.
Qed.

Ltac call_ok :=
  unfold log, setActive, CheckRateLimit, http, Publish, emit, getIPURL,
    getASNURL;
  intros ?; cbn [trace]; repeat constructor;
  first [ apply HasPrefix_app | reflexivity | discriminate ].

Ltac calls := repeat first [ always_step | solve [call_ok] ].

Section ScrapeCalls.

Variable E : Env.
Variable n : NetworksDB.
Variable ctx : Context.

Lemma scrape_executeASNQuery asn addr netblocks :
  always scrape_call (executeASNQuery E n ctx asn addr netblocks).
Proof. unfold executeASNQuery, scrape_prefix, Slice. calls. Qed.

Lemma scrape_executeASNAddrQuery addr :
  always scrape_call (executeASNAddrQuery E n ctx addr).
Proof.
  unfold executeASNAddrQuery. calls. apply scrape_executeASNQuery.
Qed.

End ScrapeCalls.

Section APICalls.

Variable E : Env.
Variable n : NetworksDB.
Variable ctx : Context.
Variable key : APIKey.
Hypothesis api_mode : hasAPIKey n = true.
Hypothesis credential : APIfield n = Some key.

Ltac with_key :=
  unfold getHeaders; rewrite api_mode, credential; cbn [negb].

Lemma api_apiIPQuery addr : always (api_call key) (apiIPQuery E n ctx addr).
Proof. unfold apiIPQuery. with_key. calls. Qed.

Lemma api_apiOrgInfoQuery id :
  always (api_call key) (apiOrgInfoQuery E n ctx id).
Proof. unfold apiOrgInfoQuery. with_key. calls. Qed.

Lemma api_apiASNInfoQuery asn :
  always (api_call key) (apiASNInfoQuery E n ctx asn).
Proof. unfold apiASNInfoQuery. with_key. calls. Qed.

Lemma api_apiNetblocksQuery asn :
  always (api_call key) (apiNetblocksQuery E n ctx asn).
Proof. unfold apiNetblocksQuery. with_key. calls. Qed.

Lemma api_executeAPIASNQuery asn addr netblocks :
  always (api_call key) (executeAPIASNQuery E n ctx asn addr netblocks).
Proof.
  unfold executeAPIASNQuery, publishAPIASN, api_prefix, Slice.
  destruct (ContextEventBus ctx) as [bus|]; [|apply always_ret].
  destruct (len _ =? 0)%nat.
  - apply always_bind; [apply api_apiNetblocksQuery|intros found].
    destruct (len _ =? 0)%nat; [call_ok|].
    repeat first [ apply api_apiASNInfoQuery | always_step | solve [call_ok] ].
  - repeat first [ apply api_apiASNInfoQuery | always_step | solve [call_ok] ].
Qed.

Lemma api_candidates_loop bus ip asns asn cidrs :
  always (api_call key) (candidates_loop E n ctx bus ip asns asn cidrs).
Proof.
  revert asn cidrs. induction asns as [|a rest IH]; intros asn cidrs;
    simpl; [apply always_ret|].
  repeat first [ apply api_apiNetblocksQuery | apply IH | always_step
               | solve [call_ok] ].
Qed.

Lemma api_executeAPIASNAddrQuery addr :
  always (api_call key) (executeAPIASNAddrQuery E n ctx addr).
Proof.
  unfold executeAPIASNAddrQuery, resolve_candidates.
  destruct (ContextEventBus ctx) as [bus|]; [|apply always_ret].
  apply always_bind; [apply api_apiIPQuery|intros [c id]].
  destruct (String.eqb id ""); [call_ok|].
  repeat first [ apply api_apiOrgInfoQuery | apply api_candidates_loop
               | apply api_executeAPIASNQuery | always_step
               | solve [call_ok] ].
Qed.

End APICalls.

(** X2.  A service started with a non-empty credential sends it, as a POST
    below the API path, with every outbound call it makes; a service
    started without one makes only plain fetches below the base URL, with
    no headers and no body. *)
Theorem credential_on_every_call (E : Env) (key : option APIKey)
  (ctx : Context) (req : ASNRequest) (k : nat) :
  let n := OnStart NewNetworksDB key in
  let tr := trace (OnASNRequest E n ctx req k) in
  match key with
  | Some k0 =>
      if String.eqb (Key k0) "" then Forall scrape_call tr
      else Forall (api_call k0) tr
  | None => Forall scrape_call tr
  end.
Proof.
  intros n tr.
  assert (Hscrape : hasAPIKey n = false -> Forall scrape_call tr).
  { intros Hmode. subst tr.
    cut (always scrape_call (OnASNRequest E n ctx req)); [intros H; apply H|].
    unfold OnASNRequest. rewrite Hmode.
    destruct (_ && _); [apply always_ret|].
    destruct (ContextEventBus ctx) as [bus|]; [|apply always_ret].
    apply always_bind; [call_ok|intros _].
    destruct (negb _);
      [apply scrape_executeASNAddrQuery|apply scrape_executeASNQuery]. }
  destruct key as [k0|]; [|now apply Hscrape].
  destruct (String.eqb (Key k0) "") eqn:Hk.
  - apply Hscrape. unfold n, OnStart. simpl. now rewrite Hk.
  - assert (Hmode : hasAPIKey n = true)
      by (unfold n, OnStart; simpl; now rewrite Hk).
    assert (Hcred : APIfield n = Some k0) by reflexivity.
    subst tr.
    cut (always (api_call k0) (OnASNRequest E n ctx req));
      [intros H; apply H|].
    unfold OnASNRequest. rewrite Hmode.
    destruct (_ && _); [apply always_ret|].
    destruct (ContextEventBus ctx) as [bus|]; [|apply always_ret].
    apply always_bind; [call_ok|intros _].
    destruct (negb _);
      [now apply api_executeAPIASNAddrQuery
      |now apply api_executeAPIASNQuery].
Qed.

(** *** Pacing of the outbound calls *)

Lemma paced_from_app (w : bool) (t1 t2 : list Event) :
  paced_from w (t1 ++ t2) =
  paced_from w t1 && paced_from (waited_after w t1) t2.
Proof.
  revert w. induction t1 as [|e t1 IH]; intros w; [reflexivity|].
  destruct e; simpl; rewrite IH; [reflexivity| |reflexivity].
  now rewrite andb_assoc.
Qed.

Lemma paced_from_still (w : bool) (tr : list Event) :
  Forall is_publication tr ->
  paced_from w tr = true /\ waited_after w tr = w.
Proof.
  induction 1 as [|e tr He _ IH]; [now split|].
  destruct e; simpl in *; try contradiction. exact IH.
Qed.

Section PaceRules.

Context {A B : Type}.

Lemma pace_any_armed (m : M A) : pace_any m -> pace_armed m.
Proof. intros H k. apply H. Qed.

Lemma pace_any_still (m : M A) : always is_publication m -> pace_any m.
Proof. intros H k w. now apply paced_from_still. Qed.

Lemma pace_any_bind (m : M A) (f : A -> M B) :
  pace_any m -> (forall a, pace_any (f a)) -> pace_any (bind m f).
Proof.
  intros Hm Hf k w. unfold bind.
  destruct (outcome (m k)); cbn [trace]; [|apply Hm].
  now rewrite paced_from_app, Hm, Hf.
Qed.

Lemma pace_armed_still_bind (m : M A) (f : A -> M B) :
  always is_publication m -> (forall a, pace_armed (f a)) ->
  pace_armed (bind m f).
Proof.
  intros Hm Hf k. unfold bind.
  destruct (paced_from_still true _ (Hm k)) as [H1 H2].
  destruct (outcome (m k)); cbn [trace]; [|exact H1].
  now rewrite paced_from_app, H1, H2, Hf.
Qed.

End PaceRules.

Lemma pace_any_wait {B} (n : NetworksDB) (f : unit -> M B) :
  (forall a, pace_armed (f a)) -> pace_any (bind (CheckRateLimit n) f).
Proof. intros Hf k w. unfold bind. simpl. apply Hf. Qed.

Lemma pace_armed_http {B} (E : Env) (r : Request)
  (f : string + string -> M B) :
  (forall a, pace_any (f a)) -> pace_armed (bind (http E r) f).
Proof. intros Hf k. unfold bind. simpl. apply Hf. Qed.

Lemma still_log n bus msg : always is_publication (log n bus msg).
Proof. now apply always_emit. Qed.

Lemma still_setActive n bus : always is_publication (setActive n bus).
Proof. now apply always_emit. Qed.

Lemma still_publish bus t p d : always is_publication (Publish bus t p d).
Proof. now apply always_emit. Qed.

Lemma still_getHeaders n : always is_publication (getHeaders n).
Proof. unfold getHeaders. repeat always_step. Qed.

Lemma still_scrape_prefix E addr netblocks :
  always is_publication (scrape_prefix E addr netblocks).
Proof. unfold scrape_prefix, Slice. repeat always_step. Qed.

Lemma still_api_prefix E addr netblocks :
  always is_publication (api_prefix E addr netblocks).
Proof. unfold api_prefix, Slice. repeat always_step. Qed.

Create HintDb still.
#[export] Hint Resolve still_log still_setActive still_publish
  still_getHeaders still_scrape_prefix still_api_prefix : still.

Ltac still :=
  solve [ auto with still | repeat first [ always_step | auto with still ] ].

(** Follows the program: a wait arms the next call, a call uses the wait
    up, publications leave it as it is. *)
Ltac pace_step :=
  match goal with
  | |- pace_any (bind (CheckRateLimit _) _) => apply pace_any_wait; intros
  | |- pace_armed (bind (http _ _) _) => apply pace_armed_http; intros
  | |- pace_armed (bind _ _) =>
      apply pace_armed_still_bind; [solve [still]|intros]
  | |- pace_any (bind _ _) =>
      apply pace_any_bind;
        [solve [auto with pace | apply pace_any_still; still]|intros]
  | |- pace_any (match ?x with _ => _ end) => destruct x
  | |- pace_armed (match ?x with _ => _ end) => destruct x
  | |- pace_any _ => solve [auto with pace | apply pace_any_still; still]
  | |- pace_armed _ => apply pace_any_armed
  end.

Create HintDb pace.

Ltac pace := repeat pace_step.

Section Pacing.

Variable E : Env.
Variable n : NetworksDB.
Variable ctx : Context.

Lemma pace_apiIPQuery addr : pace_any (apiIPQuery E n ctx addr).
Proof. unfold apiIPQuery. pace. Qed.

Lemma pace_apiOrgInfoQuery id : pace_any (apiOrgInfoQuery E n ctx id).
Proof. unfold apiOrgInfoQuery. pace. Qed.

Lemma pace_apiASNInfoQuery asn : pace_any (apiASNInfoQuery E n ctx asn).
Proof. unfold apiASNInfoQuery. pace. Qed.

Lemma pace_apiNetblocksQuery asn : pace_any (apiNetblocksQuery E n ctx asn).
Proof. unfold apiNetblocksQuery. pace. Qed.

Hint Resolve pace_apiIPQuery pace_apiOrgInfoQuery pace_apiASNInfoQuery
  pace_apiNetblocksQuery : pace.

Lemma pace_executeASNQuery asn addr netblocks :
  pace_any (executeASNQuery E n ctx asn addr netblocks).
Proof. unfold executeASNQuery. pace. Qed.

Hint Resolve pace_executeASNQuery : pace.

Lemma pace_executeASNAddrQuery addr :
  pace_armed (executeASNAddrQuery E n ctx addr).
Proof. unfold executeASNAddrQuery. pace. Qed.

Lemma pace_executeAPIASNQuery asn addr netblocks :
  pace_any (executeAPIASNQuery E n ctx asn addr netblocks).
Proof.
  assert (Hpub : forall bus nb, pace_any (publishAPIASN E n ctx bus asn addr nb)).
  { intros bus nb. unfold publishAPIASN.
    apply pace_any_bind; [apply pace_any_still; still|intros prefix].
    pace. }
  unfold executeAPIASNQuery.
  destruct (ContextEventBus ctx) as [bus|]; [|pace].
  destruct (len _ =? 0)%nat; [|apply Hpub].
  apply pace_any_bind; [auto with pace|intros found].
  destruct (len _ =? 0)%nat; [pace|apply Hpub].
Qed.

Hint Resolve pace_executeAPIASNQuery : pace.

Lemma pace_candidates_loop bus ip asns asn cidrs :
  pace_any (candidates_loop E n ctx bus ip asns asn cidrs).
Proof.
  revert asn cidrs. induction asns as [|a rest IH]; intros asn cidrs;
    simpl; [pace|].
  apply pace_any_wait. intros _. apply pace_any_armed.
  apply pace_any_bind; [auto with pace|intros s].
  apply pace_any_bind; [destruct (len s =? 0)%nat; pace|intros _].
  apply pace_any_bind; [apply pace_any_still; repeat always_step|].
  intros order. destruct (scan_contains _ _ _); [pace|apply IH].
Qed.

Hint Resolve pace_candidates_loop : pace.

Lemma pace_executeAPIASNAddrQuery addr :
  pace_any (executeAPIASNAddrQuery E n ctx addr).
Proof.
  unfold executeAPIASNAddrQuery, resolve_candidates.
  destruct (ContextEventBus ctx) as [bus|]; [|pace].
  apply pace_any_bind; [auto with pace|intros [c id]].
  destruct (String.eqb id ""); [pace|].
  apply pace_any_wait. intros _.
  apply pace_armed_still_bind; [still|intros _].
  apply pace_any_armed.
  apply pace_any_bind; [auto with pace|intros asns].
  destruct (length asns =? 0)%nat; [pace|].
  apply pace_any_bind; [auto with pace|intros [asn cidrs]].
  destruct (asn =? 0); pace.
Qed.

End Pacing.

(** X3.  The handler never makes an outbound call without a rate-limit
    wait since the previous call: in every trace, each call is preceded by
    a wait of its own. *)
Theorem calls_are_paced (E : Env) (n : NetworksDB) (ctx : Context)
  (req : ASNRequest) (k : nat) :
  paced (trace (OnASNRequest E n ctx req k)) = true.
Proof.
  cut (pace_any (OnASNRequest E n ctx req)); [intros H; apply H|].
  unfold OnASNRequest.
  destruct (_ && _); [pace|].
  destruct (ContextEventBus ctx) as [bus|]; [|pace].
  apply pace_any_wait. intros _.
  destruct (hasAPIKey n), (negb _).
  - apply pace_any_armed, pace_executeAPIASNAddrQuery.
  - apply pace_any_armed, pace_executeAPIASNQuery.
  - apply pace_executeASNAddrQuery.
  - apply pace_any_armed, pace_executeASNQuery.
Qed.

(** *** How many records, and what they say *)

(** X4.  A request leads to at most one record, and a record is the last
    thing the handler puts on the bus before it returns. *)
Theorem at_most_one_record (E : Env) (n : NetworksDB) (ctx : Context)
  (req : ASNRequest) (k : nat) :
  let r := OnASNRequest E n ctx req k in
  published (trace r) = [] \/
  exists tr' rec,
    trace r = tr' ++ [EvPublish NewASNTopic PriorityHigh (PASN rec)] /\
    published tr' = [] /\
    published (trace r) = [rec] /\
    outcome r = Done tt.
Proof.
  intros r. subst r.
  destruct (String.eqb (Address req) "" && (ASN req =? 0)) eqn:Hvalid.
  { left. unfold OnASNRequest. now rewrite Hvalid. }
  destruct (ContextEventBus ctx) as [bus|] eqn:Hbus.
  2: { left. unfold OnASNRequest. now rewrite Hvalid, Hbus. }
  assert (Hreq : Address req <> "" \/ ASN req <> 0).
  { apply andb_false_iff in Hvalid as [H|H].
    - left. now apply String.eqb_neq.
    - right. now apply Z.eqb_neq. }
  pose proof (attempts_conclude E n ctx bus Hbus req Hreq k) as H.
  destruct (outcome (OnASNRequest E n ctx req k)) as [[]|msg];
    [|now left].
  destruct H as [[Hp _]|(tr' & rec & Ht & Hp)]; [now left|].
  right. exists tr', rec. repeat split; try assumption.
  rewrite Ht, published_app, Hp. reflexivity.
Qed.

(** X5.  No attempt fails silently: when the handler returns from a valid
    request without having published a record, the last thing it put on
    the bus is a diagnostic message. *)
Theorem failure_is_logged (E : Env) (n : NetworksDB) (ctx : Context)
  (bus : EventBus) (req : ASNRequest) (k : nat) :
  ContextEventBus ctx = Some bus ->
  Address req <> "" \/ ASN req <> 0 ->
  outcome (OnASNRequest E n ctx req k) = Done tt ->
  published (trace (OnASNRequest E n ctx req k)) = [] ->
  exists tr' msg,
    trace (OnASNRequest E n ctx req k) =
    tr' ++ [EvPublish LogTopic PriorityHigh (PString msg)].
Proof.
  intros Hbus Hreq Hdone Hnone.
  pose proof (attempts_conclude E n ctx bus Hbus req Hreq k) as H.
  rewrite Hdone in H.
  destruct H as [[_ H]|(tr' & rec & Ht & Hp)]; [exact H|].
  rewrite Ht, published_app in Hnone.
  now apply app_eq_nil in Hnone as [_ Hnone].
Qed.

Lemma failure_is_logged_witness :
  let r :=
    OnASNRequest Scenario.bare_env Scenario.scrape_mode Scenario.ctx
      (Scenario.by_address "203.0.113.9") 0%nat in
  ContextEventBus Scenario.ctx = Some TheEventBus /\
  (Address (Scenario.by_address "203.0.113.9") <> "" \/
   ASN (Scenario.by_address "203.0.113.9") <> 0) /\
  outcome r = Done tt /\
  published (trace r) = [] /\
  exists tr' msg,
    trace r = tr' ++ [EvPublish LogTopic PriorityHigh (PString msg)].
Proof.
  intros r.
  assert (H1 : ContextEventBus Scenario.ctx = Some TheEventBus)
    by reflexivity.
  assert (H2 : Address (Scenario.by_address "203.0.113.9") <> "" \/
               ASN (Scenario.by_address "203.0.113.9") <> 0)
    by (left; discriminate).
  assert (H3 : outcome r = Done tt) by reflexivity.
  assert (H4 : published (trace r) = []) by reflexivity.
  repeat (split; [assumption|]).
  exact (failure_is_logged Scenario.bare_env Scenario.scrape_mode
           Scenario.ctx TheEventBus (Scenario.by_address "203.0.113.9")
           0%nat H1 H2 H3 H4).
Defined.

Section RecordContent.

Variable E : Env.
Variable n : NetworksDB.
Variable ctx : Context.

Lemma insert_cidrs_subseteq all (netblocks : StringSet) :
  netblocks ⊆ insert_cidrs E all netblocks.
Proof.
  unfold insert_cidrs. revert netblocks.
  induction all as [|m rest IH]; intros netblocks; cbn [fold_left];
    [set_solver|].
  destruct (2 <=? length m)%nat; [|apply IH].
  transitivity (Insert netblocks (TrimSpace E (nth 1 m ""))); [|apply IH].
  unfold Insert. set_solver.
Qed.

Lemma insert_cidrs_elem all (netblocks : StringSet) (x : string) :
  x ∈ insert_cidrs E all netblocks <->
  x ∈ netblocks \/
  exists m, m ∈ all /\ (2 <= length m)%nat /\ x = TrimSpace E (nth 1 m "").
Proof.
  unfold insert_cidrs. revert netblocks.
  induction all as [|m rest IH]; intros netblocks; cbn [fold_left].
  - split; [now left|]. intros [H|(m & Hm & _)]; [exact H|].
    now apply elem_of_nil in Hm.
  - rewrite IH. clear IH.
    destruct (2 <=? length m)%nat eqn:Hlen.
    + apply Nat.leb_le in Hlen. unfold Insert. split.
      * intros [H|(m' & Hm' & Hl & Hx)].
        -- apply elem_of_union in H as [H|H]; [|now left].
           apply elem_of_singleton in H. right. exists m.
           split; [constructor|now split].
        -- right. exists m'. split; [now constructor|now split].
      * intros [H|(m' & Hm' & Hl & Hx)].
        -- left. set_solver.
        -- apply elem_of_cons in Hm' as [->|Hm'].
           ++ left. set_solver.
           ++ right. exists m'. now repeat split.
    + apply Nat.leb_gt in Hlen. split.
      * intros [H|(m' & Hm' & Hl & Hx)]; [now left|].
        right. exists m'. split; [now constructor|now split].
      * intros [H|(m' & Hm' & Hl & Hx)]; [now left|].
        apply elem_of_cons in Hm' as [->|Hm']; [lia|].
        right. exists m'. now repeat split.
Qed.

Lemma sat_executeASNQuery_content asn addr netblocks :
  sat (fun r =>
         ASN r = asn /\ Address r = addr /\
         description_ends_with_cc r /\
         exists s : StringSet, Netblocks r = Some s /\ netblocks ⊆ s)
    (executeASNQuery E n ctx asn addr netblocks) (fun _ => True).
Proof.
  unfold executeASNQuery.
  destruct (ContextEventBus ctx) as [bus|]; [|apply quiet_sat; quiet_tac].
  repeat (apply sat_quiet_bind; [solve [quiet_tac]|intros]).
  destruct a1 as [err|page]; [apply quiet_sat; quiet_tac|].
  destruct (_ || _); [apply quiet_sat; quiet_tac|].
  apply sat_quiet_bind; [solve [quiet_tac]|intros m1].
  destruct (_ || _); [apply quiet_sat; quiet_tac|].
  apply sat_quiet_bind; [solve [quiet_tac]|intros m2].
  apply sat_quiet_bind; [solve [auto with quiet]|intros prefix].
  apply sat_publish. repeat split.
  - now eexists.
  - eexists. split; [reflexivity|apply insert_cidrs_subseteq].
Qed.

Lemma apiASNInfoQuery_value asn k r :
  outcome (apiASNInfoQuery E n ctx asn k) = Done (Some r) ->
  Address r = "" /\ description_ends_with_cc r.
Proof.
  unfold apiASNInfoQuery.
  destruct (ContextEventBus ctx) as [bus|]; [|discriminate].
  unfold bind, CheckRateLimit, setActive, Publish, emit, http, log, ret.
  simpl. destruct (outcome (getHeaders n k)); simpl; [|discriminate].
  destruct (RequestWebPage E _); simpl; [discriminate|].
  destruct (UnmarshalAS E _) as [err|m]; simpl; [discriminate|].
  destruct (negb _); simpl; [discriminate|].
  destruct (_ || _); simpl; [discriminate|].
  unfold index. destruct (Results m !! 0%nat); simpl; [|discriminate].
  intros [= <-]. split; [reflexivity|now eexists].
Qed.

Lemma sat_apiASNInfoQuery (P : ASNRequest -> Prop) asn :
  sat P (apiASNInfoQuery E n ctx asn)
    (fun o => forall r, o = Some r ->
                Address r = "" /\ description_ends_with_cc r).
Proof.
  intros k. split.
  - rewrite quiet_apiASNInfoQuery. constructor.
  - intros o Ho r ->. now apply (apiASNInfoQuery_value asn k).
Qed.

Lemma sat_executeAPIASNQuery_content asn addr netblocks :
  sat (fun r => Address r = addr /\ description_ends_with_cc r)
    (executeAPIASNQuery E n ctx asn addr netblocks) (fun _ => True).
Proof.
  assert (Hpub : forall bus nb,
             sat (fun r => Address r = addr /\ description_ends_with_cc r)
               (publishAPIASN E n ctx bus asn addr nb) (fun _ => True)).
  { intros bus nb. unfold publishAPIASN.
    do 3 (apply sat_quiet_bind; [solve [auto with quiet]|intros]).
    eapply sat_bind; [apply sat_apiASNInfoQuery|].
    intros [r|] Hr; [|apply quiet_sat; quiet_tac].
    destruct (Hr r eq_refl) as [Haddr Hdesc].
    apply sat_publish. split; [|exact Hdesc].
    simpl. destruct (negb (String.eqb addr "")) eqn:Hne; [reflexivity|].
    apply negb_false_iff, String.eqb_eq in Hne. now rewrite Haddr, Hne. }
  unfold executeAPIASNQuery.
  destruct (ContextEventBus ctx) as [bus|]; [|apply quiet_sat; quiet_tac].
  destruct (len _ =? 0)%nat; [|apply Hpub].
  apply sat_quiet_bind; [solve [quiet_tac]|intros found].
  destruct (len (Union _ found) =? 0)%nat; [apply quiet_sat; quiet_tac|].
  apply Hpub.
Qed.

Lemma sat_executeAPIASNAddrQuery_content addr :
  sat (fun r => Address r = addr /\ description_ends_with_cc r)
    (executeAPIASNAddrQuery E n ctx addr) (fun _ => True).
Proof.
  unfold executeAPIASNAddrQuery, resolve_candidates.
  destruct (ContextEventBus ctx) as [bus|]; [|apply quiet_sat; quiet_tac].
  apply sat_quiet_bind; [solve [quiet_tac]|intros [c id]].
  destruct (String.eqb id ""); [apply quiet_sat; quiet_tac|].
  repeat (apply sat_quiet_bind; [solve [quiet_tac]|intros]).
  destruct (length _ =? 0)%nat; [apply quiet_sat; quiet_tac|].
  apply sat_quiet_bind; [apply quiet_candidates_loop|intros [asn cidrs]].
  destruct (asn =? 0); [apply quiet_sat; quiet_tac|].
  apply sat_executeAPIASNQuery_content.
Qed.

Lemma sat_executeASNAddrQuery_content addr :
  sat (fun r => Address r = addr /\ description_ends_with_cc r)
    (executeASNAddrQuery E n ctx addr) (fun _ => True).
Proof.
  unfold executeASNAddrQuery.
  destruct (ContextEventBus ctx) as [bus|]; [|apply quiet_sat; quiet_tac].
  apply sat_quiet_bind; [solve [quiet_tac]|intros r].
  destruct r as [err|page]; [apply quiet_sat; quiet_tac|].
  destruct (_ || _); [apply quiet_sat; quiet_tac|].
  repeat (apply sat_quiet_bind; [solve [quiet_tac]|intros]).
  destruct a2 as [err|page']; [apply quiet_sat; quiet_tac|].
  destruct (_ || _); [apply quiet_sat; quiet_tac|].
  apply sat_quiet_bind; [solve [quiet_tac]|intros m1].
  destruct (Atoi E _) as [err|asn]; [apply quiet_sat; quiet_tac|].
  eapply sat_weaken; [|apply sat_executeASNQuery_content].
  intros r (_ & Ha & Hd & _). now split.
Qed.

End RecordContent.

(** X6.  A published record answers the request it came from: its address
    is the address of the request (empty for a request by ASN), its
    description ends with a comma, a space and its own country code, and in
    scrape mode a request by ASN is answered with that ASN. *)
Theorem record_answers_request (E : Env) (n : NetworksDB) (ctx : Context)
  (req : ASNRequest) (k : nat) :
  Forall
    (fun r =>
       Address r = Address req /\
       description_ends_with_cc r /\
       (hasAPIKey n = false -> Address req = "" -> ASN r = ASN req))
    (published (trace (OnASNRequest E n ctx req k))).
Proof.
  cut (sat (fun r =>
              Address r = Address req /\
              description_ends_with_cc r /\
              (hasAPIKey n = false -> Address req = "" -> ASN r = ASN req))
         (OnASNRequest E n ctx req) (fun _ => True)).
  { intros H. apply H. }
  unfold OnASNRequest.
  destruct (_ && _); [apply quiet_sat; quiet_tac|].
  destruct (ContextEventBus ctx) as [bus|]; [|apply quiet_sat; quiet_tac].
  apply sat_quiet_bind; [solve [quiet_tac]|intros _].
  destruct (hasAPIKey n) eqn:Hkey;
    destruct (negb (String.eqb (Address req) "")) eqn:Haddr.
  - eapply sat_weaken; [|apply sat_executeAPIASNAddrQuery_content].
    intros r [H1 H2]. repeat split; [exact H1|exact H2|discriminate].
  - apply negb_false_iff, String.eqb_eq in Haddr.
    eapply sat_weaken; [|apply sat_executeAPIASNQuery_content].
    intros r [H1 H2]. repeat split; [congruence|exact H2|discriminate].
  - apply negb_true_iff, String.eqb_neq in Haddr.
    eapply sat_weaken; [|apply sat_executeASNAddrQuery_content].
    intros r [H1 H2]. repeat split; [exact H1|exact H2|contradiction].
  - apply negb_false_iff, String.eqb_eq in Haddr.
    eapply sat_weaken; [|apply sat_executeASNQuery_content].
    intros r (H0 & H1 & H2 & _). repeat split; [congruence|exact H2|auto].
Qed.

(** X7.  In scrape mode the blocks already found are kept: every record
    [executeASNQuery] publishes carries the ASN and the address it was
    called with, and a netblocks set that includes the one passed in. *)
Theorem scrape_record_keeps_netblocks (E : Env) (n : NetworksDB)
  (ctx : Context) (asn : Z) (addr : string) (netblocks : StringSet)
  (k : nat) :
  Forall
    (fun r =>
       ASN r = asn /\ Address r = addr /\
       exists s : StringSet, Netblocks r = Some s /\ netblocks ⊆ s)
    (published (trace (executeASNQuery E n ctx asn addr netblocks k))).
Proof.
  eapply Forall_impl; [apply sat_executeASNQuery_content|].
  intros r (H1 & H2 & _ & H3). now repeat split.
Qed.

(** *** The API helpers *)

(** X8.  With a credential in place, the three helpers that test the number
    of results return on every answer of the remote side. *)
Theorem api_helpers_return (E : Env) (n : NetworksDB) (ctx : Context)
  (bus : EventBus) (key : APIKey) (addr : string) (asn : Z) (k : nat) :
  ContextEventBus ctx = Some bus ->
  hasAPIKey n = true ->
  APIfield n = Some key ->
  (exists v, outcome (apiIPQuery E n ctx addr k) = Done v) /\
  (exists v, outcome (apiASNInfoQuery E n ctx asn k) = Done v) /\
  (exists v, outcome (apiNetblocksQuery E n ctx asn k) = Done v).
Proof.
  intros Hbus Hmode Hcred. repeat split.
  - now apply (apiIPQuery_returns E n ctx bus key).
  - now apply (apiASNInfoQuery_returns E n ctx bus key).
  - now apply (apiNetblocksQuery_returns E n ctx bus key).
Qed.

Lemma api_helpers_return_witness :
  let E := Scenario.empty_org_env in
  ContextEventBus Scenario.ctx = Some TheEventBus /\
  hasAPIKey Scenario.api_mode = true /\
  APIfield Scenario.api_mode = Some {| Key := "secret" |} /\
  (exists v,
      outcome (apiIPQuery E Scenario.api_mode Scenario.ctx "198.51.100.7"
                 0%nat) = Done v) /\
  (exists v,
      outcome (apiASNInfoQuery E Scenario.api_mode Scenario.ctx 64501
                 0%nat) = Done v) /\
  (exists v,
      outcome (apiNetblocksQuery E Scenario.api_mode Scenario.ctx 64501
                 0%nat) = Done v).
Proof.
  intros E.
  repeat (split; [reflexivity|]).
  apply (api_helpers_return E Scenario.api_mode Scenario.ctx TheEventBus
           {| Key := "secret" |}); reflexivity.
Defined.

(** X9.  [apiOrgInfoQuery] faults exactly on a body that decodes without a
    service error to a non-zero total and no result; on every other answer
    it returns. *)
Theorem apiOrgInfoQuery_faults_iff (E : Env) (n : NetworksDB) (ctx : Context)
  (bus : EventBus) (key : APIKey) (id : string) (k : nat) :
  ContextEventBus ctx = Some bus ->
  hasAPIKey n = true ->
  APIfield n = Some key ->
  (exists msg, outcome (apiOrgInfoQuery E n ctx id k) = Panicked msg) <->
  (exists m,
      decoded (RequestWebPage E (api_request key getAPIOrgInfoURL "id" id))
        (UnmarshalOrg E) m /\
      Total m <> 0 /\ Results m = []).
Proof.
  intros Hbus Hmode Hcred. split.
  - intros [msg Hp]. revert Hp.
    unfold apiOrgInfoQuery, getHeaders, decoded, api_request, api_headers.
    rewrite Hbus, Hmode, Hcred.
    unfold bind, http, CheckRateLimit, setActive, log, Publish, emit, ret.
    simpl.
    destruct (RequestWebPage E _) as [err|page]; simpl; [discriminate|].
    destruct (UnmarshalOrg E page) as [err|m] eqn:Hm; simpl; [discriminate|].
    destruct (String.eqb (Error m) "") eqn:Herr; simpl; [|discriminate].
    apply String.eqb_eq in Herr.
    destruct (Total m =? 0) eqn:Htot; simpl; [discriminate|].
    apply Z.eqb_neq in Htot.
    destruct (Results m) as [|r0 rest] eqn:Hres; simpl.
    + intros _. exists m. split; [|now split].
      exists page. now repeat split.
    + destruct (length (ASNs r0) =? 0)%nat; simpl; discriminate.
  - intros (m & (page & Hpage & Hm & Herr) & Htot & Hres).
    eexists.
    apply (apiOrgInfoQuery_no_results E n ctx bus key Hbus Hmode Hcred
             id k page m Hpage Hm Herr Htot Hres).
Qed.

Lemma apiOrgInfoQuery_faults_iff_witness :
  ContextEventBus Scenario.ctx = Some TheEventBus /\
  hasAPIKey Scenario.api_mode = true /\
  APIfield Scenario.api_mode = Some {| Key := "secret" |} /\
  ((exists msg,
       outcome (apiOrgInfoQuery Scenario.empty_org_env Scenario.api_mode
                  Scenario.ctx "org-1" 0%nat) = Panicked msg) <->
   (exists m,
       decoded
         (RequestWebPage Scenario.empty_org_env
            (api_request {| Key := "secret" |} getAPIOrgInfoURL "id" "org-1"))
         (UnmarshalOrg Scenario.empty_org_env) m /\
       Total m <> 0 /\ Results m = [])).
Proof.
  repeat (split; [reflexivity|]).
  apply (apiOrgInfoQuery_faults_iff Scenario.empty_org_env Scenario.api_mode
           Scenario.ctx TheEventBus {| Key := "secret" |}); reflexivity.
Defined.

Lemma fold_Insert_elem {R} (f : R -> string) (rs : list R) (s : StringSet)
  (x : string) :
  x ∈ fold_left (fun nb r => Insert nb (f r)) rs s <->
  x ∈ s \/ exists r, r ∈ rs /\ f r = x.
Proof.
  revert s. induction rs as [|r rest IH]; intros s; cbn [fold_left].
  - split; [now left|]. intros [H|(r & Hr & _)]; [exact H|].
    now apply elem_of_nil in Hr.
  - rewrite IH. clear IH. unfold Insert. split.
    + intros [H|(r' & Hr' & Hx)].
      * apply elem_of_union in H as [H|H]; [|now left].
        apply elem_of_singleton in H. right. exists r.
        split; [constructor|now symmetry].
      * right. exists r'. split; [now constructor|exact Hx].
    + intros [H|(r' & Hr' & Hx)].
      * left. set_solver.
      * apply elem_of_cons in Hr' as [->|Hr'].
        -- left. set_solver.
        -- right. now exists r'.
Qed.

(** X10.  The set [apiNetblocksQuery] returns holds exactly the CIDR fields
    of the results of a body that decodes without a service error to a
    non-zero total; on every other answer it is empty. *)
Theorem apiNetblocksQuery_members (E : Env) (n : NetworksDB) (ctx : Context)
  (bus : EventBus) (key : APIKey) (asn : Z) (k : nat) (x : string) :
  ContextEventBus ctx = Some bus ->
  hasAPIKey n = true ->
  APIfield n = Some key ->
  exists s : StringSet,
    outcome (apiNetblocksQuery E n ctx asn k) = Done s /\
    (x ∈ s <->
     exists m block,
       decoded
         (RequestWebPage E
            (api_request key getAPINetblocksURL "asn" (Itoa asn)))
         (UnmarshalNetblocks E) m /\
       Total m <> 0 /\ block ∈ Results m /\ CIDR block = x).
Proof.
  intros Hbus Hmode Hcred.
  unfold apiNetblocksQuery, getHeaders, decoded, api_request, api_headers.
  rewrite Hbus, Hmode, Hcred.
  unfold bind, http, CheckRateLimit, setActive, log, Publish, emit, ret.
  simpl.
  destruct (RequestWebPage E _) as [err|page]; simpl.
  { eexists. split; [reflexivity|]. split; [set_solver|].
    intros (m & b & (p & Hp & _) & _). discriminate. }
  destruct (UnmarshalNetblocks E page) as [err|m] eqn:Hm; simpl.
  { eexists. split; [reflexivity|]. split; [set_solver|].
    intros (m & b & (p & [= <-] & Hm' & _) & _). congruence. }
  destruct (String.eqb (Error m) "") eqn:Herr; simpl.
  2: { eexists. split; [reflexivity|]. split; [set_solver|].
       intros (m' & b & (p & [= <-] & Hm' & Herr') & _).
       apply String.eqb_neq in Herr. congruence. }
  apply String.eqb_eq in Herr.
  destruct (Total m =? 0) eqn:Htot; simpl.
  { apply Z.eqb_eq in Htot.
    eexists. split; [reflexivity|]. split; [set_solver|].
    intros (m' & b & (p & [= <-] & Hm' & _) & Ht & _). congruence. }
  apply Z.eqb_neq in Htot.
  destruct (Results m) as [|r0 rest] eqn:Hres; simpl.
  { eexists. split; [reflexivity|]. split; [set_solver|].
    intros (m' & b & (p & [= <-] & Hm' & _) & _ & Hb & _).
    assert (m' = m) by congruence. subst m'. rewrite Hres in Hb.
    now apply elem_of_nil in Hb. }
  eexists. split; [reflexivity|].
  change (fold_left (fun nb block => Insert nb (CIDR block)) rest
            (Insert New (CIDR r0)))
    with (fold_left (fun nb block => Insert nb (CIDR block)) (r0 :: rest) New).
  rewrite fold_Insert_elem. split.
  - intros [H|(b & Hb & Hx)]; [unfold New in H; set_solver|].
    exists m, b. rewrite Hres. repeat split; try assumption.
    exists page. now repeat split.
  - intros (m' & b & (p & [= <-] & Hm' & _) & _ & Hb & Hx).
    assert (m' = m) by congruence. subst m'. rewrite Hres in Hb.
    right. now exists b.
Qed.

Lemma apiNetblocksQuery_members_witness :
  let E :=
    Scenario.api_env GoModel.unreachable "198.51.100.0/24" "EXAMPLE"
      "United States" in
  ContextEventBus Scenario.ctx = Some TheEventBus /\
  hasAPIKey Scenario.api_mode = true /\
  APIfield Scenario.api_mode = Some {| Key := "secret" |} /\
  exists s : StringSet,
    outcome (apiNetblocksQuery E Scenario.api_mode Scenario.ctx 64500 0%nat)
      = Done s /\
    ("198.51.100.0/24" ∈ s <->
     exists m block,
       decoded
         (RequestWebPage E
            (api_request {| Key := "secret" |} getAPINetblocksURL "asn"
               (Itoa 64500)))
         (UnmarshalNetblocks E) m /\
       Total m <> 0 /\ block ∈ Results m /\ CIDR block = "198.51.100.0/24").
Proof.
  intros E.
  repeat (split; [reflexivity|]).
  apply (apiNetblocksQuery_members E Scenario.api_mode Scenario.ctx
           TheEventBus {| Key := "secret" |}); reflexivity.
Defined.

(** X11.  A service that has not been started has the API mode set and no
    credential: every valid request it is handed makes it fault on the
    credential, before any outbound call. *)
Theorem unstarted_service_faults (E : Env) (ctx : Context) (bus : EventBus)
  (req : ASNRequest) (k : nat) :
  ContextEventBus ctx = Some bus ->
  Address req <> "" \/ ASN req <> 0 ->
  let r := OnASNRequest E NewNetworksDB ctx req k in
  outcome r = Panicked "invalid memory address or nil pointer dereference" /\
  fetched (trace r) = [] /\
  published (trace r) = [].
Proof.
  intros Hbus Hreq.
  assert (Hvalid : String.eqb (Address req) "" && (ASN req =? 0) = false).
  { apply andb_false_iff. destruct Hreq as [H|H].
    - left. now apply String.eqb_neq.
    - right. now apply Z.eqb_neq. }
  unfold OnASNRequest. rewrite Hvalid, Hbus. cbn [hasAPIKey NewNetworksDB].
  destruct (negb (String.eqb (Address req) "")).
  - unfold executeAPIASNAddrQuery, apiIPQuery. rewrite Hbus.
    repeat split.
  - unfold executeAPIASNQuery, apiNetblocksQuery. rewrite Hbus.
    repeat split.
Qed.

Lemma unstarted_service_faults_witness :
  let r :=
    OnASNRequest Scenario.bare_env NewNetworksDB Scenario.ctx
      (Scenario.by_asn 64500) 0%nat in
  ContextEventBus Scenario.ctx = Some TheEventBus /\
  (Address (Scenario.by_asn 64500) <> "" \/ ASN (Scenario.by_asn 64500) <> 0) /\
  outcome r = Panicked "invalid memory address or nil pointer dereference" /\
  fetched (trace r) = [] /\
  published (trace r) = [].
Proof.
  intros r.
  assert (H1 : ContextEventBus Scenario.ctx = Some TheEventBus)
    by reflexivity.
  assert (H2 : Address (Scenario.by_asn 64500) <> "" \/
               ASN (Scenario.by_asn 64500) <> 0) by (right; discriminate).
  split; [exact H1|]. split; [exact H2|].
  exact (unstarted_service_faults Scenario.bare_env Scenario.ctx TheEventBus
           (Scenario.by_asn 64500) 0%nat H1 H2).
Defined.

(** *** The Whois handler *)

Lemma service_events_lift (tr : list Event) :
  Whois.service_events (map Whois.EvService tr) = tr.
Proof. induction tr as [|e tr IH]; simpl; [reflexivity|now rewrite IH]. Qed.

Lemma whois_published_lift (tr : list Event) :
  Whois.whois_published (map Whois.EvService tr) = [].
Proof. induction tr as [|e tr IH]; simpl; [reflexivity|exact IH]. Qed.

Lemma service_events_app (t1 t2 : list Whois.WhoisEvent) :
  Whois.service_events (t1 ++ t2) =
  Whois.service_events t1 ++ Whois.service_events t2.
Proof.
  induction t1 as [|e t1 IH]; [reflexivity|].
  destruct e; simpl; now rewrite IH.
Qed.

Lemma whois_published_app (t1 t2 : list Whois.WhoisEvent) :
  Whois.whois_published (t1 ++ t2) =
  Whois.whois_published t1 ++ Whois.whois_published t2.
Proof.
  induction t1 as [|e t1 IH]; [reflexivity|].
  destruct e; simpl; now rewrite IH.
Qed.

Section WhoisLoop.

Variable E : Env.
Variable L : Whois.Lib.
Variable n : NetworksDB.
Variable bus : EventBus.

Lemma quiet_slice s lo hi : quiet (Whois.slice s lo hi).
Proof. unfold Whois.slice. quiet_tac. Qed.

Lemma still_slice s lo hi : always is_publication (Whois.slice s lo hi).
Proof. unfold Whois.slice. repeat always_step. Qed.

Hint Resolve quiet_slice : quiet.
Hint Resolve still_slice : still.

Lemma quiet_visit m nd : quiet (Whois.visit E L n bus m nd).
Proof. unfold Whois.visit. quiet_tac. Qed.

Lemma quiet_visit_all ms nd : quiet (Whois.visit_all E L n bus ms nd).
Proof.
  revert nd. induction ms as [|m rest IH]; intros nd; simpl.
  - apply quiet_ret.
  - apply quiet_bind; [apply quiet_visit|intros nd'; apply IH].
Qed.

Lemma pace_visit m nd : pace_any (Whois.visit E L n bus m nd).
Proof. unfold Whois.visit. pace. Qed.

Lemma pace_visit_all ms nd : pace_any (Whois.visit_all E L n bus ms nd).
Proof.
  revert nd. induction ms as [|m rest IH]; intros nd; simpl.
  - pace.
  - apply pace_any_bind; [apply pace_visit|intros nd'; apply IH].
Qed.

Lemma scrape_visit m nd : always scrape_call (Whois.visit E L n bus m nd).
Proof.
  unfold Whois.visit, Whois.slice, Whois.getDomainsInNetworkURL. calls.
Qed.

Lemma scrape_visit_all ms nd :
  always scrape_call (Whois.visit_all E L n bus ms nd).
Proof.
  revert nd. induction ms as [|m rest IH]; intros nd; simpl.
  - apply always_ret.
  - apply always_bind; [apply scrape_visit|intros nd'; apply IH].
Qed.

(** A visit that returns has fetched the IP page its match calls for,
    first of all. *)
Lemma visit_fetches m nd k :
  (2 <= length m)%nat ->
  forall nd',
    outcome (Whois.visit E L n bus m nd k) = Done nd' ->
    exists rest,
      fetched (trace (Whois.visit E L n bus m nd k)) =
      mkRequest (networksdbBaseURL +:+ nth 1 m "") None None :: rest.
Proof.
  intros Hlen nd' _. unfold Whois.visit.
  destruct (length m <? 2)%nat eqn:Hl; [apply Nat.ltb_lt in Hl; lia|].
  destruct m as [|m0 [|m1 m]]; simpl in Hlen; try lia.
  unfold bind at 1 2 3. simpl.
  unfold bind at 1. simpl. eauto.
Qed.

Lemma visit_all_fetches ms nd k nd' :
  outcome (Whois.visit_all E L n bus ms nd k) = Done nd' ->
  ip_page_requests ms `sublist_of`
    fetched (trace (Whois.visit_all E L n bus ms nd k)).
Proof.
  revert nd k. induction ms as [|m rest IH]; intros nd k; simpl.
  - intros _. constructor.
  - unfold bind.
    destruct (outcome (Whois.visit E L n bus m nd k)) as [nd1|msg] eqn:Hv;
      cbn [outcome trace]; [|discriminate].
    intros Hrest. rewrite fetched_app.
    specialize (IH nd1 _ Hrest).
    unfold ip_page_requests in *. cbn [List.filter].
    destruct (2 <=? length m)%nat eqn:Hl.
    + apply Nat.leb_le in Hl.
      destruct (visit_fetches m nd k Hl nd1 Hv) as [more Hf].
      rewrite Hf. cbn [map app]. apply sublist_skip.
      now apply sublist_inserts_l.
    + now apply sublist_inserts_l.
Qed.

End WhoisLoop.

(** Runs the handler up to the loop over the IP links. *)
Ltac whois_run E L n req k :=
  unfold Whois.OnWhoisRequest;
  destruct (Whois.ContextConfig _) as [cfg|];
  [destruct (ContextEventBus _) as [bus|];
   [destruct (negb (Whois.IsDomainInScope cfg _));
    [|unfold Whois.wbind, Whois.lift, CheckRateLimit, setActive, Publish,
        emit, http, log;
      cbn [outcome trace iters Whois.woutcome Whois.wtrace Whois.witers
           map app];
      destruct (RequestWebPage E _) as [err|page];
      [|destruct (is_nil _);
        [|destruct
            (outcome
               (Whois.visit_all E L n bus
                  (Whois.reFindAllStringSubmatch L Whois.networksdbIPLinkRE
                     page) New k)) as [newdomains|msg] eqn:Hloop;
          [unfold Slice, range;
           cbn [outcome trace iters Whois.woutcome Whois.wtrace
                Whois.witers map app];
           destruct (0 <? length _)%nat eqn:Hsome|]]]]|]|];
  cbn [outcome trace iters Whois.woutcome Whois.wtrace Whois.witers map app
       Whois.wret Whois.PublishWhois].

(** X12.  The Whois handler paces its calls like the ASN handler: every
    outbound call comes after a rate-limit wait of its own, and every call
    is a plain fetch below the base URL. *)
Theorem whois_calls_paced (E : Env) (L : Whois.Lib) (n : NetworksDB)
  (ctx : Whois.WhoisContext) (req : Whois.WhoisRequest) (k : nat) :
  let tr :=
    Whois.service_events (Whois.wtrace (Whois.OnWhoisRequest E L n ctx req k))
  in
  paced tr = true /\ Forall scrape_call tr.
Proof.
  intros tr. subst tr. whois_run E L n req k.
  all: cbn [Whois.service_events];
    rewrite ?service_events_app, ?service_events_lift;
    cbn [Whois.service_events]; rewrite ?app_nil_r.
  all: unfold paced, log, Publish; cbn [paced_from andb emit trace].
  all: split; try reflexivity; try apply pace_visit_all.
  all: repeat constructor; try apply scrape_visit_all.
Qed.

(** X13.  The Whois handler publishes no ASN record and at most one Whois
    request; that request is the last thing it puts on the bus, it names
    the domain asked about and the service, and its new domains are a
    non-empty list without repetition. *)
Theorem whois_publication (E : Env) (L : Whois.Lib) (n : NetworksDB)
  (ctx : Whois.WhoisContext) (req : Whois.WhoisRequest) (k : nat) :
  map_order_ok E ->
  let tr := Whois.wtrace (Whois.OnWhoisRequest E L n ctx req k) in
  published (Whois.service_events tr) = [] /\
  (Whois.whois_published tr = [] \/
   exists tr' w,
     tr = tr' ++ [Whois.EvPublishWhois PriorityHigh w] /\
     Whois.whois_published tr' = [] /\
     Whois.Domain w = Whois.Domain req /\
     Whois.Tag w = Type_ n /\
     Whois.Source w = name n /\
     Whois.NewDomains w <> [] /\
     NoDup (Whois.NewDomains w)).
Proof.
  intros Hok tr. subst tr. whois_run E L n req k.
  all: split;
    [cbn [Whois.service_events];
     rewrite ?service_events_app, ?service_events_lift;
     cbn [Whois.service_events published]; rewrite ?app_nil_r;
     try reflexivity; apply quiet_visit_all|].
  all: try (left; cbn [Whois.whois_published];
            rewrite ?whois_published_app, ?whois_published_lift;
            reflexivity).
  right.
  set (r := Whois.visit_all E L n bus _ New k) in *.
  eexists (Whois.EvService EvCheckRateLimit :: Whois.EvService _ ::
           Whois.EvService _ :: map Whois.EvService (trace r)), _.
  split; [reflexivity|]. split; [apply (whois_published_lift (_ :: _ :: _ :: _))|].
  cbn [Whois.Domain Whois.Tag Whois.Source Whois.NewDomains].
  repeat split.
  - intros Hnil.
    assert (Hlen : length (map_order E (iters r) newdomains) =
                   length (map_order E (S (iters r)) newdomains))
      by now rewrite (Permutation_length (Hok (iters r) newdomains)),
           (Permutation_length (Hok (S (iters r)) newdomains)).
    rewrite Hnil in Hlen. simpl in Hlen. rewrite Hlen in Hsome.
    discriminate.
  - rewrite (Hok (S (iters r)) newdomains). apply NoDup_elements.
Qed.

Lemma whois_publication_witness :
  let E := WhoisScenario.env WhoisScenario.network_page in
  let tr :=
    Whois.wtrace
      (Whois.OnWhoisRequest E WhoisScenario.lib Scenario.scrape_mode
         WhoisScenario.ctx (WhoisScenario.request "example.com") 0%nat) in
  map_order_ok E /\
  Whois.whois_published tr =
    [ {| Whois.Domain := "example.com";
         Whois.NewDomains := ["www.example.com"];
         Whois.Tag := "scrape";
         Whois.Source := "NetworksDB" |} ] /\
  published (Whois.service_events tr) = [].
Proof.
  intros E tr.
  assert (H : map_order_ok E) by (intros k s; reflexivity).
  split; [exact H|]. split; [vm_compute; reflexivity|].
  exact (proj1 (whois_publication E WhoisScenario.lib Scenario.scrape_mode
                  WhoisScenario.ctx (WhoisScenario.request "example.com")
                  0%nat H)).
Defined.

(** X14.  A link that fails does not stop the others: when the handler
    returns, it has fetched the IP page of every link of the domain page
    that has its capture, in the order of the links. *)
Theorem whois_visits_every_link (E : Env) (L : Whois.Lib) (n : NetworksDB)
  (ctx : Whois.WhoisContext) (cfg : Whois.Config) (bus : EventBus)
  (req : Whois.WhoisRequest) (page : string) (k : nat) :
  Whois.ContextConfig ctx = Some cfg ->
  ContextEventBus (Whois.bus_of ctx) = Some bus ->
  Whois.IsDomainInScope cfg (Whois.Domain req) = true ->
  RequestWebPage E
    (mkRequest (Whois.getDomainToIPURL (Whois.Domain req)) None None) =
    inr page ->
  Whois.woutcome (Whois.OnWhoisRequest E L n ctx req k) = Done tt ->
  ip_page_requests (Whois.reFindAllStringSubmatch L Whois.networksdbIPLinkRE page)
    `sublist_of`
  fetched
    (Whois.service_events
       (Whois.wtrace (Whois.OnWhoisRequest E L n ctx req k))).
Proof.
  intros Hcfg Hbus Hscope Hpage.
  unfold Whois.OnWhoisRequest. rewrite Hcfg, Hbus, Hscope. cbn [negb].
  unfold Whois.wbind, Whois.lift, CheckRateLimit, setActive, Publish, emit,
    http, log.
  cbn [outcome trace iters Whois.woutcome Whois.wtrace Whois.witers map app].
  rewrite Hpage.
  destruct (Whois.reFindAllStringSubmatch L Whois.networksdbIPLinkRE page)
    as [|m ms] eqn:Hms.
  { intros _. apply sublist_nil_l. }
  cbn [is_nil].
  destruct (outcome (Whois.visit_all E L n bus (m :: ms) New k))
    as [nd|msg] eqn:Hloop;
    cbn [outcome trace iters Whois.woutcome Whois.wtrace Whois.witers map app];
    [|discriminate].
  intros _.
  cbn [Whois.service_events fetched].
  apply sublist_cons.
  rewrite service_events_app, service_events_lift, fetched_app.
  apply sublist_inserts_r.
  now apply (visit_all_fetches E L n bus (m :: ms) New k nd).
Qed.

Lemma whois_visits_every_link_witness :
  let E := WhoisScenario.env WhoisScenario.network_page in
  let r :=
    Whois.OnWhoisRequest E WhoisScenario.lib Scenario.scrape_mode
      WhoisScenario.ctx (WhoisScenario.request "example.com") 0%nat in
  Whois.ContextConfig WhoisScenario.ctx = Some WhoisScenario.in_scope /\
  ContextEventBus (Whois.bus_of WhoisScenario.ctx) = Some TheEventBus /\
  Whois.IsDomainInScope WhoisScenario.in_scope "example.com" = true /\
  RequestWebPage E
    (mkRequest (Whois.getDomainToIPURL "example.com") None None) =
    inr WhoisScenario.domain_page /\
  Whois.woutcome r = Done tt /\
  ip_page_requests
    (Whois.reFindAllStringSubmatch WhoisScenario.lib Whois.networksdbIPLinkRE
       WhoisScenario.domain_page)
    `sublist_of` fetched (Whois.service_events (Whois.wtrace r)).
Proof.
  intros E r.
  assert (H5 : Whois.woutcome r = Done tt) by (vm_compute; reflexivity).
  repeat (split; [reflexivity|]).
  exact (whois_visits_every_link E WhoisScenario.lib Scenario.scrape_mode
           WhoisScenario.ctx WhoisScenario.in_scope TheEventBus
           (WhoisScenario.request "example.com") WhoisScenario.domain_page
           0%nat eq_refl eq_refl eq_refl eq_refl H5).
Defined.

(** X15.  The list of domains is cut out between the end of the domains
    marker and the end of the table marker.  When the table marker ends
    first, the cut faults and takes the handler down with it. *)
Theorem visit_faults_on_reversed_markers (E : Env) (L : Whois.Lib)
  (n : NetworksDB) (bus : EventBus) (m0 m1 : string)
  (newdomains : StringSet) (k : nat)
  (page1 c0 c1 : string) (cidr : IPNet) (page2 : string)
  (ds de ts te : Z) :
  RequestWebPage E (mkRequest (networksdbBaseURL +:+ m1) None None) =
    inr page1 ->
  Whois.reFindStringSubmatch L Whois.networksdbIPPageCIDRRE page1 = [c0; c1] ->
  ParseCIDR E c1 = inr cidr ->
  RequestWebPage E
    (mkRequest
       (Whois.getDomainsInNetworkURL
          (Whois.IP_String L (fst (Whois.FirstLast L cidr)))
          (Whois.IP_String L (snd (Whois.FirstLast L cidr))))
       None None) = inr page2 ->
  Whois.reFindStringIndex L Whois.networksdbDomainsRE page2 = [ds; de] ->
  Whois.reFindStringIndex L Whois.networksdbTableRE page2 = [ts; te] ->
  0 <= te < de ->
  te <= Z.of_nat (String.length page2) ->
  outcome (Whois.visit E L n bus [m0; m1] newdomains k) =
    Panicked ("runtime error: slice bounds out of range [" +:+ Itoa de +:+
              ":" +:+ Itoa te +:+ "]").
Proof.
  intros Hp1 Hc Hcidr Hp2 Hd Ht Hrev Hlen.
  unfold Whois.visit. cbn [length Nat.ltb Nat.leb].
  unfold index. cbn [lookup list_lookup].
  unfold log, setActive, CheckRateLimit, Publish, emit, http, bind, ret.
  cbn [outcome trace iters].
  rewrite Hp1. cbn [outcome trace iters]. rewrite Hc.
  cbn [is_nil length Nat.ltb Nat.leb orb lookup list_lookup outcome trace
       iters].
  rewrite Hcidr. cbn [outcome trace iters].
  destruct (Whois.FirstLast L cidr) as [first last]. cbn [fst snd] in Hp2.
  cbn [outcome trace iters]. rewrite Hp2. cbn [outcome trace iters].
  rewrite Hd, Ht.
  cbn [is_nil length Nat.ltb Nat.leb orb lookup list_lookup outcome trace
       iters].
  unfold Whois.slice, panic.
  assert (H1 : (te <? 0) || (Z.of_nat (String.length page2) <? te) = false).
  { apply orb_false_iff. split; apply Z.ltb_ge; lia. }
  assert (H2 : (de <? 0) || (te <? de) = true).
  { apply orb_true_iff. right. apply Z.ltb_lt. lia. }
  rewrite H1, H2. reflexivity.
Qed.

Lemma visit_faults_on_reversed_markers_witness :
  let E := WhoisScenario.env WhoisScenario.reversed_page in
  let L := WhoisScenario.lib in
  let cidr := mkIPNet [198; 51; 100; 0] [255; 255; 255; 0] in
  RequestWebPage E
    (mkRequest (networksdbBaseURL +:+ "/ip/198.51.100.7") None None) =
    inr WhoisScenario.ip_page /\
  Whois.reFindStringSubmatch L Whois.networksdbIPPageCIDRRE
    WhoisScenario.ip_page =
    ["<b>Network: 198.51.100.0/24</a>"; "198.51.100.0/24"] /\
  ParseCIDR E "198.51.100.0/24" = inr cidr /\
  RequestWebPage E
    (mkRequest
       (Whois.getDomainsInNetworkURL
          (Whois.IP_String L (fst (Whois.FirstLast L cidr)))
          (Whois.IP_String L (snd (Whois.FirstLast L cidr))))
       None None) = inr WhoisScenario.reversed_page /\
  Whois.reFindStringIndex L Whois.networksdbDomainsRE
    WhoisScenario.reversed_page = [17; 35] /\
  Whois.reFindStringIndex L Whois.networksdbTableRE
    WhoisScenario.reversed_page = [0; 12] /\
  0 <= 12 < 35 /\
  12 <= Z.of_nat (String.length WhoisScenario.reversed_page) /\
  outcome
    (Whois.visit E L Scenario.scrape_mode TheEventBus
       ["<a href=/ip/198.51.100.7>"; "/ip/198.51.100.7"] New 0%nat) =
    Panicked "runtime error: slice bounds out of range [35:12]".
Proof.
  intros E L cidr.
  assert (H7 : 0 <= 12 < 35) by lia.
  assert (H8 : 12 <= Z.of_nat (String.length WhoisScenario.reversed_page))
    by (vm_compute; discriminate).
  repeat (split; [reflexivity|]). split; [exact H7|]. split; [exact H8|].
  exact (visit_faults_on_reversed_markers E L Scenario.scrape_mode
           TheEventBus "<a href=/ip/198.51.100.7>" "/ip/198.51.100.7" New
           0%nat WhoisScenario.ip_page "<b>Network: 198.51.100.0/24</a>"
           "198.51.100.0/24" cidr WhoisScenario.reversed_page 17 35 0 12
           eq_refl eq_refl eq_refl eq_refl eq_refl eq_refl H7 H8).
Defined.

(** *** More on the healing loop *)

(** X16.  The wait for an address is left in one way only: the body of the
    loop for an address gets through only if one of the lookups it made
    found an entry for that address. *)
Theorem heal_address_needs_entry (W : Heal.Env) (fuel : nat)
  (uuid addr : string) (k : nat) :
  Heal.proceeded (Heal.heal_address W fuel uuid addr k) = true ->
  exists j, (k <= j <= S k + fuel)%nat /\ Heal.AddrSearch W j addr <> None.
Proof.
  unfold Heal.heal_address.
  destruct (Heal.AddrSearch W k addr) as [r|] eqn:Hk.
  - intros _. exists k. split; [lia|congruence].
  - unfold Heal.seq at 1. rewrite for_each_emit.
    cbn [Heal.proceeded Heal.trace Heal.lookups]. unfold Heal.seq.
    destruct (Heal.proceeded (Heal.wait W fuel addr (S k))) eqn:Hw.
    + intros _. destruct (wait_exit W addr fuel (S k) Hw) as (j & Hj & Hf).
      exists j. split; [lia|exact Hf].
    + rewrite Hw. discriminate.
Qed.

Lemma heal_address_needs_entry_witness :
  let W := Scenario.heal_env Scenario.late in
  Heal.proceeded (Heal.heal_address W 10%nat "event-1" "198.51.100.7" 0%nat) = true /\
  exists j,
    (0 <= j <= 1 + 10)%nat /\ Heal.AddrSearch W j "198.51.100.7" <> None.
Proof.
  intros W.
  assert (H : Heal.proceeded
                (Heal.heal_address W 10%nat "event-1" "198.51.100.7" 0%nat) = true)
    by reflexivity.
  split; [exact H|].
  exact (heal_address_needs_entry W 10%nat "event-1" "198.51.100.7" 0%nat H).
Defined.

(** X17.  When the entry shows up after [d] sleeps, the body for that
    address hands the request to every data source once, in order, sleeps
    [d] times one second, looks the address up once more and inserts what
    that last lookup finds. *)
Theorem heal_address_resumes (W : Heal.Env) (fuel d : nat)
  (uuid addr : string) (k : nat) (r : ASNRequest) :
  (d <= fuel)%nat ->
  (forall j, (k <= j <= k + d)%nat -> Heal.AddrSearch W j addr = None) ->
  Heal.AddrSearch W (S k + d) addr <> None ->
  Heal.AddrSearch W (S (S k + d)) addr = Some r ->
  Heal.heal_address W fuel uuid addr k =
  Heal.mkRes true
    (Heal.dispatches W addr ++
     repeat (Heal.EvSleep Heal.Second) d ++
     [Heal.EvInsertInfrastructure (ASN r) (Description r) (Address r)
        (Prefix r) (Source r) (Tag r) uuid])
    (S (S (S k + d))).
Proof.
  intros Hle Hnone Hsome Hfinal. unfold Heal.heal_address.
  rewrite Hnone by lia. unfold Heal.seq at 1. rewrite for_each_emit.
  cbn [Heal.proceeded Heal.trace Heal.lookups]. unfold Heal.seq.
  rewrite (wait_resumes W addr fuel d (S k) Hle).
  - cbn [Heal.proceeded Heal.trace Heal.lookups]. rewrite Hfinal.
    reflexivity.
  - intros j Hj. apply Hnone. lia.
  - exact Hsome.
Qed.

Lemma heal_address_resumes_witness :
  let W := Scenario.heal_env Scenario.late in
  (4 <= 10)%nat /\
  (forall j, (0 <= j <= 0 + 4)%nat ->
     Heal.AddrSearch W j "198.51.100.7" = None) /\
  Heal.AddrSearch W 5%nat "198.51.100.7" <> None /\
  Heal.AddrSearch W 6%nat "198.51.100.7" = Some Scenario.example_record /\
  Heal.heal_address W 10%nat "event-1" "198.51.100.7" 0%nat =
  Heal.mkRes true
    (Heal.dispatches W "198.51.100.7" ++
     repeat (Heal.EvSleep Heal.Second) 4%nat ++
     [Heal.EvInsertInfrastructure 64500 "Example Net, US" "198.51.100.7"
        "198.51.100.0/24" "NetworksDB" "api" "event-1"])
    7%nat.
Proof.
  intros W.
  assert (H1 : (4 <= 10)%nat) by lia.
  assert (H2 : forall j, (0 <= j <= 0 + 4)%nat ->
                 Heal.AddrSearch W j "198.51.100.7" = None).
  { intros j Hj. unfold W, Scenario.heal_env, Scenario.late.
    cbn [Heal.AddrSearch].
    destruct (5 <=? j)%nat eqn:H5; [apply Nat.leb_le in H5; lia|reflexivity]. }
  assert (H3 : Heal.AddrSearch W 5%nat "198.51.100.7" <> None) by discriminate.
  assert (H4 : Heal.AddrSearch W 6%nat "198.51.100.7" =
               Some Scenario.example_record) by reflexivity.
  repeat (split; [assumption|]).
  exact (heal_address_resumes W 10%nat 4%nat "event-1" "198.51.100.7" 0%nat
           Scenario.example_record H1 H2 H3 H4).
Defined.

Section HealedRun.

Variable W : Heal.Env.
Hypothesis cached : forall k a, Heal.AddrSearch W k a <> None.

Lemma healed_address fuel uuid addr k :
  exists e,
    Heal.heal_address W fuel uuid addr k = Heal.mkRes true [e] (S k) /\
    is_insertion e.
Proof.
  unfold Heal.heal_address.
  destruct (Heal.AddrSearch W k addr) as [r|] eqn:Hk.
  - eexists. split; [reflexivity|exact I].
  - now destruct (cached k addr).
Qed.

Lemma healed_for_each {A} (xs : list A) (body : A -> Heal.H) (k : nat) :
  (forall x k', exists tr,
      body x k' = Heal.mkRes true tr (k' + length tr) /\
      Forall is_insertion tr) ->
  exists tr,
    Heal.for_each xs body k = Heal.mkRes true tr (k + length tr) /\
    Forall is_insertion tr.
Proof.
  intros Hbody. revert k. induction xs as [|x rest IH]; intros k.
  - exists []. split; [simpl; unfold Heal.skip; now rewrite Nat.add_0_r|].
    constructor.
  - destruct (Hbody x k) as (t1 & H1 & F1).
    destruct (IH (k + length t1)%nat) as (t2 & H2 & F2).
    exists (t1 ++ t2). split; [|now apply Forall_app].
    cbn [Heal.for_each]. unfold Heal.seq. rewrite H1.
    cbn [Heal.proceeded Heal.trace Heal.lookups]. rewrite H2.
    cbn [Heal.proceeded Heal.trace Heal.lookups].
    now rewrite length_app, Nat.add_assoc.
Qed.

End HealedRun.

(** X18.  When the cache answers every lookup, healing asks no data source
    and never sleeps, whatever the bound on waiting: the run gets through,
    everything it does is an insertion, and it makes one lookup per
    insertion. *)
Theorem healed_run_is_silent (W : Heal.Env) (fuel : nat)
  (uuids : list string) (k : nat) :
  (forall k a, Heal.AddrSearch W k a <> None) ->
  let r := Heal.healASInfo W fuel uuids k in
  Heal.proceeded r = true /\
  Forall is_insertion (Heal.trace r) /\
  Heal.lookups r = (k + length (Heal.trace r))%nat.
Proof.
  intros Hcached r. subst r. unfold Heal.healASInfo.
  destruct (Heal.NewLocalSystem_err W).
  { unfold Heal.skip; cbn. repeat split; [constructor|lia]. }
  destruct (healed_for_each uuids
              (fun uuid k0 =>
                 Heal.for_each (Heal.EventOutput W k0 uuid)
                   (fun out =>
                      Heal.for_each (Heal.Addresses out)
                        (fun a => Heal.heal_address W fuel uuid a)) k0) k)
    as (tr & Hrun & Hins).
  - intros uuid k1. apply healed_for_each. intros out k2.
    apply healed_for_each. intros a k3.
    destruct (healed_address W Hcached fuel uuid a k3) as (e & He & Hi).
    exists [e]. split; [rewrite He; f_equal; simpl; lia|].
    now repeat constructor.
  - rewrite Hrun. now repeat split.
Qed.

Lemma healed_run_is_silent_witness :
  let W := Scenario.heal_env (fun _ _ => Some Scenario.example_record) in
  let r := Heal.healASInfo W 0%nat ["event-1"; "event-2"] 0%nat in
  (forall k a, Heal.AddrSearch W k a <> None) /\
  Heal.proceeded r = true /\
  Forall is_insertion (Heal.trace r) /\
  Heal.lookups r = (0 + length (Heal.trace r))%nat.
Proof.
  intros W r.
  assert (H : forall k a, Heal.AddrSearch W k a <> None) by discriminate.
  split; [exact H|].
  exact (healed_run_is_silent W 0%nat ["event-1"; "event-2"] 0%nat H).
Defined.

(** *** Scope of a name and selection of the enumerations *)

Lemma append_nil_l (t : string) : "" +:+ t = t.
Proof. reflexivity. Qed.

Lemma append_cons (c : ascii) (a t : string) :
  String c a +:+ t = String c (a +:+ t).
Proof. reflexivity. Qed.

Lemma length_append (a t : string) :
  String.length (a +:+ t) = (String.length a + String.length t)%nat.
Proof.
  induction a as [|c a IH]; [reflexivity|].
  rewrite append_cons. simpl. now rewrite IH.
Qed.

Lemma drop_append (a t : string) : DB.drop (String.length a) (a +:+ t) = t.
Proof.
  induction a as [|c a IH]; [reflexivity|].
  rewrite append_cons. exact IH.
Qed.

Lemma drop_split (k : nat) (s : string) :
  (k <= String.length s)%nat -> exists a, s = a +:+ DB.drop k s.
Proof.
  revert s. induction k as [|k IH]; intros s Hk.
  - now exists "".
  - destruct s as [|c s]; simpl in Hk; [lia|].
    destruct (IH s) as [a Ha]; [lia|].
    exists (String c a). rewrite append_cons. simpl. now rewrite <- Ha.
Qed.

(** [strings.HasSuffix] holds exactly of the strings that end with the
    suffix. *)
Lemma HasSuffix_iff (s suffix : string) :
  DB.HasSuffix s suffix = true <-> exists a, s = a +:+ suffix.
Proof.
  unfold DB.HasSuffix. split.
  - intros H. apply andb_prop in H as [Hlen Heq].
    apply Nat.leb_le in Hlen. apply String.eqb_eq in Heq.
    destruct (drop_split (String.length s - String.length suffix) s)
      as [a Ha]; [lia|].
    exists a. now rewrite Heq in Ha.
  - intros [a ->]. rewrite length_append. apply andb_true_intro. split.
    + apply Nat.leb_le. lia.
    + replace (String.length a + String.length suffix -
               String.length suffix)%nat with (String.length a) by lia.
      rewrite drop_append. apply String.eqb_refl.
Qed.

Section ScopeProperties.

Variable Str : DB.Strings.

Lemma scope_loop_iff (n : string) (scope : list string) :
  DB.scope_loop Str n scope false = true <->
  exists d, d ∈ scope /\
    (n = DB.ToLower Str d \/
     exists sub, n = sub +:+ "." +:+ DB.ToLower Str d).
Proof.
  induction scope as [|d rest IH]; cbn [DB.scope_loop].
  - split; [discriminate|]. intros (d & Hd & _).
    now apply elem_of_nil in Hd.
  - destruct (String.eqb n (DB.ToLower Str d)) eqn:Heq; cbn [orb].
    + apply String.eqb_eq in Heq. split; [|reflexivity].
      intros _. exists d. split; [constructor|now left].
    + destruct (DB.HasSuffix n ("." +:+ DB.ToLower Str d)) eqn:Hsuf.
      * apply HasSuffix_iff in Hsuf. split; [|reflexivity].
        intros _. exists d. split; [constructor|now right].
      * rewrite IH. split.
        -- intros (d' & Hd' & H). exists d'. split; [now constructor|exact H].
        -- intros (d' & Hd' & H).
           apply elem_of_cons in Hd' as [->|Hd']; [|now exists d'].
           exfalso. destruct H as [H|H].
           ++ apply String.eqb_neq in Heq. contradiction.
           ++ apply HasSuffix_iff in H. congruence.
Qed.

Lemma domains_loop_existsb (domains surface : list string) :
  DB.domains_loop Str domains surface =
  existsb (fun d => DB.domainNameInScope Str d surface) domains.
Proof.
  induction domains as [|d rest IH]; [reflexivity|].
  simpl. destruct (DB.domainNameInScope Str d surface); [reflexivity|exact IH].
Qed.

Lemma eventUUIDs_loop_filter (db : DB.Graph) (domains ids uuids : list string) :
  DB.eventUUIDs_loop Str db domains ids uuids =
  uuids ++
  List.filter
    (fun id =>
       is_nil domains ||
       existsb (fun d => DB.domainNameInScope Str d (DB.EventDomains db id))
         domains)
    ids.
Proof.
  revert uuids. induction ids as [|id rest IH]; intros uuids;
    cbn [DB.eventUUIDs_loop List.filter].
  - now rewrite app_nil_r.
  - assert (Hn : (length domains =? 0)%nat = is_nil domains)
      by (destruct domains; reflexivity).
    rewrite Hn, domains_loop_existsb.
    destruct (is_nil domains); cbn [orb].
    + rewrite IH. now rewrite <- app_assoc.
    + destruct (existsb _ domains); rewrite IH; [|reflexivity].
      now rewrite <- app_assoc.
Qed.

End ScopeProperties.

(** X19.  A name is in scope exactly when, trimmed and in lower case, it is
    the lower case of a scope entry or ends with a dot followed by the lower
    case of a scope entry: a name that merely ends with the letters of an
    entry is not in scope. *)
Theorem domainNameInScope_iff (Str : DB.Strings) (name : string)
  (scope : list string) :
  DB.domainNameInScope Str name scope = true <->
  exists d, d ∈ scope /\
    (DB.ToLower Str (DB.TrimSpace Str name) = DB.ToLower Str d \/
     exists sub,
       DB.ToLower Str (DB.TrimSpace Str name) =
       sub +:+ "." +:+ DB.ToLower Str d).
Proof. unfold DB.domainNameInScope. apply scope_loop_iff. Qed.

(** X20.  [eventUUIDs] returns the enumerations of the database in their
    order, each as often as the database lists it: all of them when no
    domain is given, and otherwise those whose domains put at least one of
    the given domains in scope. *)
Theorem eventUUIDs_selects (Str : DB.Strings) (domains : list string)
  (db : DB.Graph) :
  DB.eventUUIDs Str domains db =
    List.filter
      (fun id =>
         is_nil domains ||
         existsb (fun d => DB.domainNameInScope Str d (DB.EventDomains db id))
           domains)
      (DB.EventList db) /\
  DB.eventUUIDs Str [] db = DB.EventList db /\
  DB.eventUUIDs Str domains db `sublist_of` DB.EventList db.
Proof.
  assert (H : forall ds,
             DB.eventUUIDs Str ds db =
             List.filter
               (fun id =>
                  is_nil ds ||
                  existsb
                    (fun d =>
                       DB.domainNameInScope Str d (DB.EventDomains db id)) ds)
               (DB.EventList db)).
  { intros ds. unfold DB.eventUUIDs. now rewrite eventUUIDs_loop_filter. }
  split; [apply H|]. split.
  - rewrite H. cbn [is_nil orb].
    clear H. induction (DB.EventList db) as [|x l IH]; [reflexivity|].
    cbn [List.filter]. f_equal. exact IH.
  - rewrite H. clear H.
    induction (DB.EventList db) as [|x l IH]; [constructor|].
    cbn [List.filter]. destruct (_ || _).
    + now apply sublist_skip.
    + now apply sublist_cons.
Qed.

(** *** Migration, output and listing of the enumerations *)

Lemma append_assoc (a b c : string) : (a +:+ b) +:+ c = a +:+ b +:+ c.
Proof.
  induction a as [|x a IH]; [reflexivity|].
  rewrite !append_cons. now rewrite IH.
Qed.

Lemma append_nil_r (a : string) : a +:+ "" = a.
Proof.
  induction a as [|x a IH]; [reflexivity|].
  rewrite append_cons. now rewrite IH.
Qed.

Section Migration.

Variable from : DB.Graph.

Lemma migrateAllEvents_from_spec (held uuids : list string) :
  match DB.migrateAllEvents_from from held uuids with
  | (calls, None) =>
      calls = uuids /\
      forall done u rest,
        uuids = done ++ u :: rest ->
        DB.MigrateEvent from (held ++ done) u = None
  | (calls, Some e) =>
      exists done u rest,
        uuids = done ++ u :: rest /\
        calls = done ++ [u] /\
        DB.MigrateEvent from (held ++ done) u = Some e /\
        forall d1 v d2,
          done = d1 ++ v :: d2 ->
          DB.MigrateEvent from (held ++ d1) v = None
  end.
Proof.
  revert held. induction uuids as [|uuid rest IH]; intros held;
    cbn [DB.migrateAllEvents_from].
  - split; [reflexivity|]. intros done u r H.
    now destruct done.
  - destruct (DB.MigrateEvent from held uuid) as [e|] eqn:Hm.
    + exists [], uuid, rest. rewrite app_nil_r. repeat split; try assumption.
      intros d1 v d2 H. now destruct d1.
    + specialize (IH (held ++ [uuid])).
      destruct (DB.migrateAllEvents_from from (held ++ [uuid]) rest)
        as [calls [e|]].
      * destruct IH as (done & u & r & Hu & Hc & He & Hprior).
        exists (uuid :: done), u, r.
        rewrite <- app_assoc in He. cbn [app] in He.
        repeat split; try (subst; reflexivity); try assumption.
        intros d1 v d2 H. destruct d1 as [|x d1]; cbn [app] in H.
        -- injection H as <- _. now rewrite app_nil_r.
        -- injection H as <- H.
           specialize (Hprior d1 v d2 H).
           now rewrite <- app_assoc in Hprior.
      * destruct IH as [Hc Hall]. split; [now subst|].
        intros done u r H. destruct done as [|x done]; cbn [app] in H.
        -- injection H as <- _. now rewrite app_nil_r.
        -- injection H as <- H. specialize (Hall done u r H).
           now rewrite <- app_assoc in Hall.
Qed.

End Migration.

(** X21.  [memGraphForEvents] yields a graph or an error, never both.  It
    yields a graph exactly when the graph could be made and every event
    moved in its turn, and the graph then holds all the events in order.
    Otherwise the migration stopped at the first event that failed: the
    events before it were moved, none after it was tried, and the error
    carries the text of that failure. *)
Theorem memGraphForEvents_outcome (created : bool) (uuids : list string)
  (from : DB.Graph) :
  match DB.memGraphForEvents created uuids from with
  | (Some moved, None) =>
      created = true /\ moved = uuids /\
      forall done u rest,
        uuids = done ++ u :: rest -> DB.MigrateEvent from done u = None
  | (None, Some msg) =>
      (created = false /\
       msg = "Failed to create the in-memory graph database") \/
      (created = true /\
       exists done u rest e,
         uuids = done ++ u :: rest /\
         fst (DB.migrateAllEvents uuids from) = done ++ [u] /\
         DB.MigrateEvent from done u = Some e /\
         (forall d1 v d2,
             done = d1 ++ v :: d2 -> DB.MigrateEvent from d1 v = None) /\
         msg =
           "Failed to move the data into the in-memory graph database: "
           +:+ e)
  | _ => False
  end.
Proof.
  unfold DB.memGraphForEvents, DB.migrateAllEvents.
  destruct created; cbn [negb]; [|left; now split].
  pose proof (migrateAllEvents_from_spec from [] uuids) as H.
  destruct (DB.migrateAllEvents_from from [] uuids) as [calls [e|]].
  - right. split; [reflexivity|].
    destruct H as (done & u & rest & Hu & Hc & He & Hprior).
    exists done, u, rest, e. cbn [fst]. now repeat split.
  - destruct H as [Hc Hall]. now repeat split.
Qed.

Lemma firstn_snoc_nth (l : list string) (i : nat) :
  (i < length l)%nat -> firstn (S i) l = firstn i l ++ [nth i l ""].
Proof.
  revert i. induction l as [|x l IH]; intros i Hi; simpl in Hi; [lia|].
  destruct i as [|i]; [reflexivity|].
  cbn [firstn nth app]. f_equal. apply IH. lia.
Qed.

Lemma getEventOutput_loop_spec (db : DB.Graph) (uuids : list string)
  (i : nat) (output : list DB.Output) :
  (i <= length uuids)%nat ->
  DB.getEventOutput_loop db uuids i output =
  output ++ flat_map (DB.EventOutput db) (rev (firstn i uuids)).
Proof.
  revert output. induction i as [|i IH]; intros output Hi;
    cbn [DB.getEventOutput_loop].
  - cbn. now rewrite app_nil_r.
  - rewrite IH by lia. rewrite firstn_snoc_nth by lia.
    rewrite rev_app_distr. cbn [rev app flat_map].
    now rewrite <- app_assoc.
Qed.

(** X22.  [getEventOutput] gathers the output of the enumerations from the
    last to the first: it is the outputs of the events in reverse order,
    one after the other, so that gathering over two lists in a row is
    gathering over the second and then over the first. *)
Theorem getEventOutput_reversed (db : DB.Graph) (uuids more : list string) :
  DB.getEventOutput uuids db =
    flat_map (DB.EventOutput db) (rev uuids) /\
  DB.getEventOutput (uuids ++ more) db =
    DB.getEventOutput more db ++ DB.getEventOutput uuids db.
Proof.
  assert (H : forall l,
             DB.getEventOutput l db = flat_map (DB.EventOutput db) (rev l)).
  { intros l. unfold DB.getEventOutput.
    rewrite getEventOutput_loop_spec by lia.
    now rewrite firstn_all. }
  split; [apply H|].
  rewrite !H, rev_app_distr. apply flat_map_app.
Qed.

(** X23.  The comparison handed to the sort puts an enumeration that lies
    wholly after another before it; but it is no ordering: of two
    enumerations, one of which started earlier and ended later than the
    other, each comes before the other. *)
Theorem less_on_date_ranges (db : DB.Graph) (x y : string)
  (e1 l1 e2 l2 : Z) :
  DB.EventDateRange db x = (e1, l1) ->
  DB.EventDateRange db y = (e2, l2) ->
  (e2 <= l2 -> l2 < e1 -> e1 <= l1 ->
   DB.less db x y = true /\ DB.less db y x = false) /\
  (e1 < e2 -> l2 < l1 ->
   DB.less db x y = true /\ DB.less db y x = true).
Proof.
  intros Hx Hy. unfold DB.less. rewrite Hx, Hy. split.
  - intros H1 H2 H3. split.
    + apply orb_true_iff. left. apply Z.ltb_lt. lia.
    + apply orb_false_iff. split; apply Z.ltb_ge; lia.
  - intros H1 H2. split; apply orb_true_iff.
    + left. apply Z.ltb_lt. lia.
    + right. apply Z.ltb_lt. lia.
Qed.

Lemma less_on_date_ranges_witness :
  let db :=
    {| DB.EventList := ["outer"; "inner"];
       DB.EventDomains := fun _ => ["example.com"];
       DB.EventDateRange :=
         fun u => if String.eqb u "outer" then (1, 10) else (2, 5);
       DB.EventOutput := fun _ => [];
       DB.MigrateEvent := fun _ _ => None |} in
  DB.EventDateRange db "outer" = (1, 10) /\
  DB.EventDateRange db "inner" = (2, 5) /\
  1 < 2 /\ 5 < 10 /\
  DB.less db "outer" "inner" = true /\ DB.less db "inner" "outer" = true.
Proof.
  intros db.
  assert (H1 : 1 < 2) by lia. assert (H2 : 5 < 10) by lia.
  split; [reflexivity|]. split; [reflexivity|].
  split; [exact H1|]. split; [exact H2|].
  exact (proj2 (less_on_date_ranges db "outer" "inner" 1 10 2 5
                  eq_refl eq_refl) H1 H2).
Defined.

Lemma print_domains_later (x : nat) (ds : list string) :
  x <> 0%nat ->
  DB.print_domains x ds =
  match ds with
  | [] => ""
  | _ => ", " +:+ String.concat ", " ds
  end.
Proof.
  revert x. induction ds as [|d rest IH]; intros x Hx; [reflexivity|].
  cbn [DB.print_domains].
  destruct (x =? 0)%nat eqn:H0; [apply Nat.eqb_eq in H0; contradiction|].
  cbn [negb]. rewrite (IH (S x)) by lia.
  destruct rest as [|d' rest]; cbn [String.concat].
  - now rewrite append_nil_r.
  - reflexivity.
Qed.

Lemma print_domains_join (ds : list string) :
  DB.print_domains 0 ds = String.concat ", " ds.
Proof.
  destruct ds as [|d rest]; [reflexivity|].
  cbn [DB.print_domains Nat.eqb negb]. rewrite append_nil_l.
  rewrite print_domains_later by lia.
  destruct rest as [|d' rest]; cbn [String.concat].
  - apply append_nil_r.
  - reflexivity.
Qed.

Lemma concat_cons (sep x : string) (y : list string) :
  String.concat sep (x :: y) =
  x +:+ match y with [] => "" | _ => sep +:+ String.concat sep y end.
Proof.
  destruct y; cbn [String.concat]; [now rewrite append_nil_r|reflexivity].
Qed.

Lemma listed_entry_then (Format : Z -> string) (db : DB.Graph)
  (earliest latest : list Z) (i : nat) (ev t : string) :
  Itoa (Z.of_nat i + 1) +:+ ") " +:+
  Format (nth i earliest 0) +:+ " -> " +:+
  Format (nth i latest 0) +:+ ": " +:+
  String.concat ", " (DB.EventDomains db ev) +:+ DB.nl +:+ t =
  listed_entry Format db earliest latest i ev +:+ t.
Proof. unfold listed_entry. now rewrite ?append_assoc. Qed.

Lemma listEvents_loop_later (Format : Z -> string) (db : DB.Graph)
  (earliest latest : list Z) (i : nat) (events : list string) :
  i <> 0%nat ->
  DB.listEvents_loop Format db i events earliest latest =
  match events with
  | [] => ""
  | _ =>
      DB.nl +:+
      String.concat DB.nl
        (imap (fun j => listed_entry Format db earliest latest (i + j))
           events)
  end.
Proof.
  revert i. induction events as [|ev rest IH]; intros i Hi; [reflexivity|].
  cbn [DB.listEvents_loop].
  destruct (i =? 0)%nat eqn:H0; [apply Nat.eqb_eq in H0; contradiction|].
  cbn [negb]. rewrite (IH (S i)) by lia.
  rewrite print_domains_join, listed_entry_then.
  rewrite imap_cons, concat_cons, Nat.add_0_r. f_equal. f_equal.
  assert (Hext : imap
                   ((fun j => listed_entry Format db earliest latest (i + j))
                      ∘ S) rest =
                 imap (fun j => listed_entry Format db earliest latest
                                  (S i + j)) rest).
  { apply imap_ext. intros j x _. cbn. f_equal. lia. }
  rewrite Hext. now destruct rest.
Qed.

Lemma listEvents_loop_format (Format : Z -> string) (db : DB.Graph)
  (earliest latest : list Z) (events : list string) :
  DB.listEvents_loop Format db 0 events earliest latest =
  String.concat DB.nl (imap (listed_entry Format db earliest latest) events).
Proof.
  destruct events as [|ev rest]; [reflexivity|].
  cbn [DB.listEvents_loop Nat.eqb negb].
  rewrite append_nil_l, print_domains_join, listEvents_loop_later by lia.
  rewrite listed_entry_then, imap_cons, concat_cons. f_equal.
  assert (Hext : imap (listed_entry Format db earliest latest ∘ S) rest =
                 imap (fun j => listed_entry Format db earliest latest
                                  (1 + j)) rest).
  { apply imap_ext. intros j x _. reflexivity. }
  rewrite Hext. now destruct rest.
Qed.

Lemma date_ranges_map (db : DB.Graph) (events : list string)
  (earliest latest : list Z) :
  DB.date_ranges db events earliest latest =
  (earliest ++ map (fun ev => fst (DB.EventDateRange db ev)) events,
   latest ++ map (fun ev => snd (DB.EventDateRange db ev)) events).
Proof.
  revert earliest latest.
  induction events as [|ev rest IH]; intros earliest latest;
    cbn [DB.date_ranges map].
  - now rewrite !app_nil_r.
  - destruct (DB.EventDateRange db ev) as [e l]. rewrite IH.
    cbn [fst snd]. now rewrite <- !app_assoc.
Qed.

(** X24.  What [listEvents] prints.  With no enumeration in scope it is
    one message on the error stream.  Otherwise it is one entry per
    enumeration, in sorted order, the entries separated by an empty line;
    the entry at index [i] is numbered [i + 1] and shows the first and last
    instants of that enumeration and its domains, separated by a comma and
    a space and followed by a line feed. *)
Theorem listEvents_format (Str : DB.Strings) (Format : Z -> string)
  (sort_Slice : (string -> string -> bool) -> list string -> list string)
  (domains : list string) (db : DB.Graph) :
  let events := sort_Slice (DB.less db) (DB.eventUUIDs Str domains db) in
  let earliest := map (fun ev => fst (DB.EventDateRange db ev)) events in
  let latest := map (fun ev => snd (DB.EventDateRange db ev)) events in
  DB.listEvents Str Format sort_Slice domains db =
  if is_nil (DB.eventUUIDs Str domains db) then
    inl ("No enumerations found within the provided scope" +:+ DB.nl)
  else
    inr (String.concat DB.nl
           (imap (listed_entry Format db earliest latest) events)).
Proof.
  cbv zeta. unfold DB.listEvents, DB.orderedEvents.
  rewrite date_ranges_map. cbn [app]. cbv beta iota zeta.
  rewrite listEvents_loop_format.
  now destruct (DB.eventUUIDs Str domains db).
Qed.

(** X25.  The choice of an enumeration by number never faults.  A number
    [N] above zero and below the count of enumerations chooses the one at
    index [N] of the sorted list, which is the one the listing shows under
    [N + 1]; any other number, the count itself included, leaves all the
    enumerations chosen. *)
Theorem select_enum_chooses (Format : Z -> string) (db : DB.Graph)
  (earliest latest : list Z) (Enum : Z) (uuids : list string) (k : nat) :
  (0 < Enum < Z.of_nat (length uuids) ->
   exists u,
     uuids !! Z.to_nat Enum = Some u /\
     DB.select_enum Enum uuids k = mkRes (Done [u]) [] k /\
     HasPrefix (listed_entry Format db earliest latest (Z.to_nat Enum) u)
       (Itoa (Enum + 1) +:+ ") ") = true) /\
  (Enum <= 0 \/ Z.of_nat (length uuids) <= Enum ->
   DB.select_enum Enum uuids k = mkRes (Done uuids) [] k).
Proof.
  unfold DB.select_enum. split.
  - intros [H0 Hlen].
    assert (Hc : (0 <? Enum) && (Enum <? Z.of_nat (length uuids)) = true).
    { apply andb_true_intro. split; apply Z.ltb_lt; lia. }
    rewrite Hc.
    destruct (uuids !! Z.to_nat Enum) as [u|] eqn:Hu.
    + exists u. split; [reflexivity|]. split.
      * unfold bind, index. rewrite Hu. reflexivity.
      * unfold listed_entry. rewrite Z2Nat.id by lia.
        rewrite <- append_assoc. apply HasPrefix_app.
    + apply lookup_ge_None in Hu. lia.
  - intros H.
    assert (Hc : (0 <? Enum) && (Enum <? Z.of_nat (length uuids)) = false).
    { apply andb_false_iff. destruct H; [left|right]; apply Z.ltb_ge; lia. }
    now rewrite Hc.
Qed.

Lemma select_enum_chooses_witness :
  let db :=
    {| DB.EventList := ["first"; "second"];
       DB.EventDomains := fun _ => ["example.com"];
       DB.EventDateRange := fun _ => (1, 10);
       DB.EventOutput := fun _ => [];
       DB.MigrateEvent := fun _ _ => None |} in
  0 < 1 < Z.of_nat (length ["first"; "second"]) /\
  (2 <= 0 \/ Z.of_nat (length ["first"; "second"]) <= 2) /\
  DB.select_enum 1 ["first"; "second"] 0%nat =
    mkRes (Done ["second"]) [] 0%nat /\
  DB.select_enum 2 ["first"; "second"] 0%nat =
    mkRes (Done ["first"; "second"]) [] 0%nat.
Proof.
  intros db.
  assert (H1 : 0 < 1 < Z.of_nat (length ["first"; "second"]))
    by (simpl; lia).
  assert (H2 : 2 <= 0 \/ Z.of_nat (length ["first"; "second"]) <= 2)
    by (right; simpl; lia).
  split; [exact H1|]. split; [exact H2|]. split.
  - destruct (proj1 (select_enum_chooses Itoa db [] [] 1
                       ["first"; "second"] 0%nat) H1)
      as (u & Hu & Hrun & _).
    injection Hu as <-. exact Hrun.
  - exact (proj2 (select_enum_chooses Itoa db [] [] 2
                    ["first"; "second"] 0%nat) H2).
Defined.
